(** * Note backend: versioning, revert and protection gating

    A shallow embedding of the note routes of the backend
    ([src/routes/noteRoutes.js]), of the two middlewares they run behind
    ([authenticate], [checkNoteOwnership]) and of the request validation
    chain ([noteValidation], [handleValidationErrors]), followed by the
    properties of the create / update / revert / unlock / list workflow.
    The account routes ([routes/authRoutes.js], [routes/userRoutes.js],
    [utils/authUtils.js]), the seeding ([utils/seedData.js]) and the
    notifications of the note routes follow in sections of their own.

    Conventions of the embedding:
    - a request body field is a JavaScript value ([JS.value]); an absent
      key is [JS.undefined];
    - the relational store is a record of finite maps keyed by the numeric
      primary key, with one auto-increment counter per table;
    - a route handler is a function from the store to a response and the
      store after the request; an [await]ed call that rejects is caught by
      the handler's [try]/[catch] and becomes the handler's 500 response;
    - [prisma.$transaction] commits all of its writes or none;
    - the socket notification sits in its own [try]/[catch], touches
      neither the store nor the response, and is left out of the
      handlers; the section on notifications has the handlers with it;
    - strings are byte strings and numbers are integers; timestamps are
      integers (milliseconds), and one request reads the clock once.  The
      byte-wise [JS.trim] and lengths are the validator's on strings of
      the ASCII range, and the integers are JavaScript's inside the safe
      range: the properties that assert what a request is answered, or
      what it stores of a trimmed field, take their fields from that
      range ([JS.plain]), and an id that may be absent from the [Int]
      range ([Prisma.is_Int]);
    - the route parameter [:id] is taken after [parseInt], as the integer
      it denotes, so the [isNaN(noteId)] guards of [PATCH] and [DELETE]
      never fire;
    - two rows with the same timestamp come back from an [orderBy] in an
      order the database chooses: the properties only use that the result
      is sorted and holds the selected rows. *)

From Stdlib Require Import ZArith String Ascii List Lia DecimalString.
From stdpp Require Import gmap strings list sorting.

Open Scope string_scope.
Open Scope Z_scope.

(** ** JavaScript values of a JSON request body *)

Module JS.

Inductive value : Type :=
| undefined
| null
| bool (b : Datatypes.bool)
| num (n : Z)
| str (s : string).

Global Instance value_eq_dec : EqDecision value.
Proof. solve_decision. Defined.

(** ToBoolean, as used by [if (v)], [!v], [a && b] and [a || b]. *)
Definition truthy (v : value) : Datatypes.bool :=
  match v with
  | undefined | null => false
  | bool b => b
  | num n => negb (n =? 0)
  | str s => negb (String.eqb s "")
  end.

(** [String(v)]; for a number, the digits of an integer, which is what
    the language prints inside the safe range ([safe] below; from 1e21 on
    it prints an exponent). *)
Definition String (v : value) : string :=
  match v with
  | undefined => "undefined"
  | null => "null"
  | bool true => "true"
  | bool false => "false"
  | num n => NilZero.string_of_int (Z.to_int n)
  | str s => s
  end.

Fixpoint ltrim (s : string) : string :=
  match s with
  | String.String c s' => if Ascii.is_space c then ltrim s' else s
  | EmptyString => EmptyString
  end.

Definition rtrim (s : string) : string := String.rev (ltrim (String.rev s)).

(** [s.trim()] and the validator's [trim] on the white space of the ASCII
    range: tab, line feed, vertical tab, form feed, carriage return and
    space.  On a string of the ASCII range ([is_ascii] below) this is what
    they strip; on others they also strip the Unicode white space. *)
Definition trim (s : string) : string := rtrim (ltrim s).

Definition digit_of (radix : Z) (c : ascii) : option Z :=
  let n := Z.of_N (N_of_ascii c) in
  let d := if (48 <=? n) && (n <=? 57) then Some (n - 48)
           else if (97 <=? n) && (n <=? 122) then Some (n - 87)
           else if (65 <=? n) && (n <=? 90) then Some (n - 55)
           else None in
  match d with
  | Some d => if d <? radix then Some d else None
  | None => None
  end.

Fixpoint parse_digits (radix : Z) (acc : option Z) (s : string) : option Z :=
  match s with
  | String.String c s' =>
      match digit_of radix c with
      | Some d => parse_digits radix (Some (default 0 acc * radix + d)) s'
      | None => acc
      end
  | EmptyString => acc
  end.

(** [parseInt(v)]: [None] is [NaN].  Leading white space, an optional
    sign, an optional [0x] prefix, then the longest run of digits. *)
Definition parseInt (v : value) : option Z :=
  let s := ltrim (String v) in
  let '(sign, s) :=
    match s with
    | String.String "-"%char r => (-1, r)
    | String.String "+"%char r => (1, r)
    | _ => (1, s)
    end in
  let '(radix, s) :=
    match s with
    | String.String "0"%char (String.String "x"%char r)
    | String.String "0"%char (String.String "X"%char r) => (16, r)
    | _ => (10, s)
    end in
  Z.mul sign <$> parse_digits radix None s.

(** Where the strings and numbers of this file are those of JavaScript.  A
    string is a string of bytes: for one of the ASCII range the bytes are
    the characters, so that [trim], the lengths and the white space that
    [parseInt] skips are those of the validator and of the language (which
    also strip Unicode white space and count characters).  An integer is a
    number that a double holds exactly, and [String] prints it in full,
    inside the safe range. *)
Definition is_ascii (s : string) : Datatypes.bool :=
  forallb (λ c, (N_of_ascii c <? 128)%N) (list_ascii_of_string s).

Definition safe (n : Z) : Datatypes.bool :=
  (-9007199254740992 <? n) && (n <? 9007199254740992).

(** A field of a body inside that range. *)
Definition plain (v : value) : Datatypes.bool :=
  match v with
  | str s => is_ascii s
  | num n => safe n
  | _ => true
  end.

(** A field that is read as an id: what [parseInt] makes of it is inside
    the range as well. *)
Definition plain_id (v : value) : Datatypes.bool :=
  plain v &&
  match parseInt v with
  | Some k => safe k
  | None => true
  end.

End JS.

(** ** Request validation ([express-validator] chains) *)

Module Validator.

(** The library's [toString], applied to a field before a standard
    sanitizer or validator sees it. *)
Definition toString (v : JS.value) : string :=
  match v with
  | JS.undefined | JS.null => ""
  | _ => JS.String v
  end.

Definition notEmpty (s : string) : bool := negb (String.eqb s "").

(** [isLength({ max })] by the length in bytes, which on a string of the
    ASCII range is the number of characters that the validator counts. *)
Definition isLength_max (max : Z) (s : string) : bool :=
  Z.of_nat (String.length s) <=? max.

(** [isBoolean()] without options. *)
Definition isBoolean (s : string) : bool :=
  bool_decide (s ∈ ["true"; "false"; "1"; "0"]).

End Validator.

(** ** Data model ([prisma/schema.prisma]) *)

Record User : Type := mkUser {
  u_id : Z;
  u_name : string;
  u_email : string;
  u_password : string;
  u_createdAt : Z;
  u_updatedAt : Z
}.

Record Note : Type := mkNote {
  n_id : Z;
  n_title : string;
  n_description : string;
  n_isProtected : bool;
  n_password : option string;          (* [String?]: [None] is SQL NULL *)
  n_ownerId : Z;
  n_createdAt : Z;
  n_updatedAt : Z
}.

Record NoteVersion : Type := mkNoteVersion {
  v_id : Z;
  v_title : string;
  v_description : string;
  v_noteId : Z;
  v_createdAt : Z
}.

Global Instance Note_eq_dec : EqDecision Note.
Proof. solve_decision. Defined.
Global Instance NoteVersion_eq_dec : EqDecision NoteVersion.
Proof. solve_decision. Defined.

(** The three tables and the auto-increment counters of [notes] and
    [note_versions]. *)
Record Store : Type := mkStore {
  users : gmap Z User;
  notes : gmap Z Note;
  versions : gmap Z NoteVersion;
  nextNoteId : Z;
  nextVersionId : Z
}.

(** ** Responses *)

Record OwnerJson : Type := mkOwnerJson {
  o_id : Z;
  o_name : string;
  o_email : string
}.

(** A note as it is serialised in a response body.  A field that holds
    [JS.undefined] is a key that [JSON.stringify] drops. *)
Record NoteJson : Type := mkNoteJson {
  j_id : Z;
  j_title : string;
  j_description : JS.value;
  j_isProtected : bool;
  j_password : JS.value;
  j_ownerId : Z;
  j_createdAt : Z;
  j_updatedAt : Z;
  j_owner : option OwnerJson;
  j_needsPassword : JS.value
}.

(** An element of the list-notes response: the [select] of [GET /]. *)
Record NoteMeta : Type := mkNoteMeta {
  m_id : Z;
  m_title : string;
  m_isProtected : bool;
  m_createdAt : Z;
  m_updatedAt : Z;
  m_owner : option OwnerJson
}.

(** An element of the versions response; [vj_id] is the string
    ['current'] for the synthetic entry and the numeric id otherwise. *)
Record VersionJson : Type := mkVersionJson {
  vj_id : JS.value;
  vj_title : string;
  vj_description : string;
  vj_noteId : Z;
  vj_createdAt : Z;
  vj_isCurrent : JS.value
}.

Inductive Body : Type :=
| ErrorBody (error : string)
| ErrorsBody (errors : list string)
| MessageBody (message : string)
| NoteBody (note : NoteJson)
| NotesBody (l : list NoteMeta)
| VersionsBody (l : list VersionJson).

Record Response : Type := mkResponse {
  status : Z;
  body : Body
}.

(** A middleware or a handler step either sends the response, which ends
    the request, or goes on with a value. *)
Inductive Step (A : Type) : Type :=
| Send (r : Response)
| Next (a : A).
Arguments Send {A} r.
Arguments Next {A} a.

Global Instance Step_ret : MRet Step := fun A a => Next a.
Global Instance Step_bind : MBind Step := fun A B f m =>
  match m with
  | Send r => Send r
  | Next a => f a
  end.

Definition send {A} (code : Z) (b : Body) : Step A := Send (mkResponse code b).

(** A call that throws inside [try { ... } catch], with the response of the
    [catch] block. *)
Definition try_catch {A} (o : option A) (code : Z) (b : Body) : Step A :=
  match o with
  | Some a => Next a
  | None => send code b
  end.

Definition run (s : Store) (m : Step (Response * Store)) : Response * Store :=
  match m with
  | Send r => (r, s)
  | Next rs => rs
  end.

(** ** Collaborators *)

(** [bcryptjs].  [bcrypt_hash s rounds salt] is the hash of [s] under the
    salt that [genSalt(rounds)] drew for the call. *)
Class Bcrypt : Type := {
  bcrypt_hash : string → Z → string → string;
  bcrypt_compare : string → string → bool;
  (* a bcrypt hash is a string of 60 characters, never the empty string *)
  bcrypt_hash_nonempty : ∀ s rounds salt, bcrypt_hash s rounds salt ≠ ""
}.

(** What a request sees of its surroundings: the clock and the salt drawn
    by the hasher. *)
Record Env : Type := mkEnv {
  now : Z;
  salt : string
}.

(** The token of the request after cookie / bearer extraction and
    [jwt.verify]. *)
Inductive Credential : Type :=
| NoToken
| InvalidToken
| Token (id : Z).

(** The body of [POST /] and [PATCH /:id]. *)
Record NoteRequest : Type := mkNoteRequest {
  title : JS.value;
  description : JS.value;
  isProtected : JS.value;
  password : JS.value
}.

Inductive Method : Type := POST | PATCH.

(** A body whose title and description, the two fields that the
    validation trims and measures, are inside the range of [JS.plain]. *)
Definition plain_note (b : NoteRequest) : bool :=
  JS.plain (title b) && JS.plain (description b).

(** The Prisma client over the store.  A call that throws (input of the
    wrong type for the column, missing record, foreign key) yields [None]. *)
Module Prisma.

(** The [data] of [note.create] and of [note.update]; a field holding
    [JS.undefined] is a key that is absent or ignored. *)
Record NoteData : Type := mkNoteData {
  d_title : JS.value;
  d_description : JS.value;
  d_isProtected : JS.value;
  d_password : JS.value
}.

(** A required field of [note.create]. *)
Definition String_arg (v : JS.value) : option string :=
  match v with
  | JS.str s => Some s
  | _ => None
  end.

Definition Boolean_arg (v : JS.value) : option bool :=
  match v with
  | JS.bool b => Some b
  | _ => None
  end.

(** The nullable [password String?] of [note.create]. *)
Definition String_opt_arg (v : JS.value) : option (option string) :=
  match v with
  | JS.str s => Some (Some s)
  | JS.null | JS.undefined => Some None
  | _ => None
  end.

(** A field of [note.update]: [JS.undefined] keeps the stored value. *)
Definition String_set (v : JS.value) (old : string) : option string :=
  match v with
  | JS.undefined => Some old
  | JS.str s => Some s
  | _ => None
  end.

Definition Boolean_set (v : JS.value) (old : bool) : option bool :=
  match v with
  | JS.undefined => Some old
  | JS.bool b => Some b
  | _ => None
  end.

Definition String_opt_set (v : JS.value) (old : option string)
  : option (option string) :=
  match v with
  | JS.undefined => Some old
  | JS.null => Some None
  | JS.str s => Some (Some s)
  | _ => None
  end.

(** [findUnique({ where: { id } })] for an integer [id]: the row, or
    [null].  For an [id] of the [Int] range ([is_Int] below), which every
    id of a row is, that is all the client does. *)
Definition user_findUnique (s : Store) (id : Z) : option User :=
  users s !! id.

Definition note_findUnique (s : Store) (id : Z) : option Note :=
  notes s !! id.

(** [noteVersion.findUnique({ where: { id } })]; the outer [None] is the
    validation error for an [id] that is not a number. *)
Definition noteVersion_findUnique (s : Store) (id : JS.value)
  : option (option NoteVersion) :=
  match id with
  | JS.num n => Some (versions s !! n)
  | _ => None
  end.

Definition note_create (d : NoteData) (ownerId : Z) (t : Z) (s : Store)
  : option (Note * Store) :=
  title ← String_arg (d_title d);
  description ← String_arg (d_description d);
  isProtected ← Boolean_arg (d_isProtected d);
  password ← String_opt_arg (d_password d);
  _ ← users s !! ownerId;
  let n := mkNote (nextNoteId s) title description isProtected password
                  ownerId t t in
  Some (n, mkStore (users s) (<[nextNoteId s := n]> (notes s)) (versions s)
                   (nextNoteId s + 1) (nextVersionId s)).

Definition noteVersion_create (title description : string) (noteId : Z)
    (t : Z) (s : Store) : option (NoteVersion * Store) :=
  _ ← notes s !! noteId;
  let v := mkNoteVersion (nextVersionId s) title description noteId t in
  Some (v, mkStore (users s) (notes s) (<[nextVersionId s := v]> (versions s))
                   (nextNoteId s) (nextVersionId s + 1)).

Definition note_update (id : Z) (d : NoteData) (t : Z) (s : Store)
  : option (Note * Store) :=
  old ← notes s !! id;
  title ← String_set (d_title d) (n_title old);
  description ← String_set (d_description d) (n_description old);
  isProtected ← Boolean_set (d_isProtected d) (n_isProtected old);
  password ← String_opt_set (d_password d) (n_password old);
  let n := mkNote (n_id old) title description isProtected password
                  (n_ownerId old) (n_createdAt old) t in
  Some (n, mkStore (users s) (<[id := n]> (notes s)) (versions s)
                   (nextNoteId s) (nextVersionId s)).

(** [note.delete]; the versions go with the note ([onDelete: Cascade]). *)
Definition note_delete (id : Z) (s : Store) : option (Note * Store) :=
  old ← notes s !! id;
  Some (old, mkStore (users s) (delete id (notes s))
                     (filter (λ kv, v_noteId kv.2 ≠ id) (versions s))
                     (nextNoteId s) (nextVersionId s)).

(** [orderBy: { updatedAt: 'desc' }] and [orderBy: { createdAt: 'desc' }];
    the sort stands for the one of the database. *)
Definition updatedAt_desc (a b : Note) : Prop := n_updatedAt b ≤ n_updatedAt a.
Definition createdAt_desc (a b : NoteVersion) : Prop :=
  v_createdAt b ≤ v_createdAt a.

Global Instance updatedAt_desc_dec : RelDecision updatedAt_desc.
Proof. intros a b. unfold updatedAt_desc. apply _. Defined.
Global Instance createdAt_desc_dec : RelDecision createdAt_desc.
Proof. intros a b. unfold createdAt_desc. apply _. Defined.

Definition note_findMany (s : Store) : list Note :=
  merge_sort updatedAt_desc (map_to_list (notes s)).*2.

Definition noteVersion_findMany (s : Store) (noteId : Z) : list NoteVersion :=
  merge_sort createdAt_desc
    (filter (λ v, v_noteId v = noteId) (map_to_list (versions s)).*2).

(** The values of an [Int] column: the ids that the lookups above take.
    The client refuses an id far outside (the call throws), which the
    lookups do not show; the properties about an id that may be absent
    keep it inside. *)
Definition is_Int (id : Z) : bool :=
  (-2147483648 <=? id) && (id <=? 2147483647).

End Prisma.

(** ** Validation ([utils/validationUtils.js]) *)

(** [body('title').trim().notEmpty()...isLength({ max: 255 })],
    [body('description').trim().notEmpty()],
    [body('isProtected').optional().isBoolean()] and
    [body('password').optional().custom(...)].  The sanitizer [trim]
    writes the trimmed string back into the body; [optional()] skips the
    rest of its chain when the field is [undefined].  The result is the
    body the handler will see and the messages of the failed validators. *)
Definition noteValidation (method : Method) (b : NoteRequest)
  : NoteRequest * list string :=
  let title' := JS.trim (Validator.toString (title b)) in
  let description' := JS.trim (Validator.toString (description b)) in
  let e_title :=
    ((if Validator.notEmpty title' then [] else ["Title is required"]) ++
     (if Validator.isLength_max 255 title' then []
      else ["Title cannot exceed 255 characters"]))%list in
  let e_description :=
    if Validator.notEmpty description' then [] else ["Description is required"] in
  let e_isProtected :=
    match isProtected b with
    | JS.undefined => []
    | v => if Validator.isBoolean (Validator.toString v) then []
           else ["isProtected must be a boolean value"]
    end in
  let e_password :=
    match password b with
    | JS.undefined => []
    | value =>
        match method with
        | POST =>
            if JS.truthy (isProtected b) && negb (JS.truthy value)
            then ["Password is required for protected notes"] else []
        | PATCH => []
        end
    end in
  (mkNoteRequest (JS.str title') (JS.str description') (isProtected b) (password b),
   (e_title ++ e_description ++ e_isProtected ++ e_password)%list).

Definition handleValidationErrors (v : NoteRequest * list string)
  : Step NoteRequest :=
  match v.2 with
  | [] => Next v.1
  | errors => send 400 (ErrorsBody errors)
  end.

(** ** Middleware ([middleware/authMiddleware.js]) *)

Definition authenticate (s : Store) (c : Credential) : Step User :=
  match c with
  | NoToken => send 401 (ErrorBody "Access denied. No token provided")
  | InvalidToken => send 401 (ErrorBody "Invalid token")
  | Token id =>
      match Prisma.user_findUnique s id with
      | None => send 401 (ErrorBody "User not found")
      | Some user => Next user
      end
  end.

Definition checkNoteOwnership (s : Store) (user : User) (noteId : Z)
  : Step unit :=
  match Prisma.note_findUnique s noteId with
  | None => send 404 (ErrorBody "Note not found")
  | Some note =>
      if bool_decide (n_ownerId note ≠ u_id user)
      then send 403 (ErrorBody "Access denied. You are not the owner of this note")
      else Next ()
  end.

(** ** Serialisation of a note *)

Definition owner_json (u : User) : OwnerJson :=
  mkOwnerJson (u_id u) (u_name u) (u_email u).

Definition password_json (p : option string) : JS.value :=
  match p with
  | Some h => JS.str h
  | None => JS.null
  end.

(** The object Prisma returns for a note row, with the [owner] relation
    when the query [include]s it. *)
Definition note_json (n : Note) (owner : option OwnerJson) : NoteJson :=
  mkNoteJson (n_id n) (n_title n) (JS.str (n_description n)) (n_isProtected n)
             (password_json (n_password n)) (n_ownerId n) (n_createdAt n)
             (n_updatedAt n) owner JS.undefined.

(** [{ ...note, password: undefined }] *)
Definition without_password (j : NoteJson) : NoteJson :=
  mkNoteJson (j_id j) (j_title j) (j_description j) (j_isProtected j)
             JS.undefined (j_ownerId j) (j_createdAt j) (j_updatedAt j)
             (j_owner j) (j_needsPassword j).

(** [{ ...note, description: null, needsPassword: true, password: undefined }] *)
Definition locked (j : NoteJson) : NoteJson :=
  mkNoteJson (j_id j) (j_title j) JS.null (j_isProtected j)
             JS.undefined (j_ownerId j) (j_createdAt j) (j_updatedAt j)
             (j_owner j) (JS.bool true).

Definition note_meta (s : Store) (n : Note) : NoteMeta :=
  mkNoteMeta (n_id n) (n_title n) (n_isProtected n) (n_createdAt n)
             (n_updatedAt n) (owner_json <$> Prisma.user_findUnique s (n_ownerId n)).

Definition version_json (v : NoteVersion) : VersionJson :=
  mkVersionJson (JS.num (v_id v)) (v_title v) (v_description v) (v_noteId v)
                (v_createdAt v) JS.undefined.

(** The synthetic entry that [GET /:id/versions] builds from the note. *)
Definition currentVersion (note : Note) : VersionJson :=
  mkVersionJson (JS.str "current") (n_title note) (n_description note)
                (n_id note) (n_updatedAt note) (JS.bool true).

(** [a || b] *)
Definition js_or (a b : JS.value) : JS.value := if JS.truthy a then a else b.

(** ** Route handlers ([routes/noteRoutes.js]) *)

Section Routes.

Context `{Bcrypt}.

(** [await bcrypt.hash(password, rounds)] rejects unless [password] is a
    string. *)
Definition hash (password : JS.value) (rounds : Z) (env : Env) : option string :=
  match password with
  | JS.str s => Some (bcrypt_hash s rounds (salt env))
  | _ => None
  end.

(** [await bcrypt.compare(password, stored)] rejects unless both are
    strings. *)
Definition compare (password : JS.value) (stored : option string) : option bool :=
  match password, stored with
  | JS.str s, Some h => Some (bcrypt_compare s h)
  | _, _ => None
  end.

(** [GET /] *)
Definition get_notes (s : Store) (c : Credential) : Response * Store :=
  run s (
    _ ← authenticate s c;
    let notes := note_meta s <$> Prisma.note_findMany s in
    Next (mkResponse 200 (NotesBody notes), s)).

(** [POST /] *)
Definition post_note (s : Store) (c : Credential) (req : NoteRequest)
    (env : Env) : Response * Store :=
  run s (
    user ← authenticate s c;
    req ← handleValidationErrors (noteValidation POST req);
    let userId := u_id user in
    password ←
      (if JS.truthy (isProtected req) && JS.truthy (password req)
       then h ← try_catch (hash (password req) 12 env)
                          500 (ErrorBody "Server error");
            Next (JS.str h)
       else Next (password req));
    '(note, s') ← try_catch
      ('(newNote, s1) ← Prisma.note_create
           (Prisma.mkNoteData (title req) (description req)
                              (js_or (isProtected req) (JS.bool false))
                              password)
           userId (now env) s;
       '(_, s2) ← Prisma.noteVersion_create
           (n_title newNote) (n_description newNote) (n_id newNote)
           (now env) s1;
       Some (newNote, s2))
      500 (ErrorBody "Server error");
    Next (mkResponse 201 (NoteBody (note_json note None)), s')).

(** [GET /:id] *)
Definition get_note (s : Store) (c : Credential) (noteId : Z)
  : Response * Store :=
  run s (
    user ← authenticate s c;
    let userId := u_id user in
    match Prisma.note_findUnique s noteId with
    | None => send 404 (ErrorBody "Note not found")
    | Some n =>
        let owner := owner_json <$> Prisma.user_findUnique s (n_ownerId n) in
        let note := note_json n owner in
        hidden ←
          (if n_isProtected n
           then o ← try_catch owner 500 (ErrorBody "Server error");
                Next (bool_decide (o_id o ≠ userId))
           else Next false);
        if hidden : bool
        then Next (mkResponse 200 (NoteBody (locked note)), s)
        else Next (mkResponse 200 (NoteBody (without_password note)), s)
    end).

(** [POST /:id/unlock] *)
Definition post_unlock (s : Store) (c : Credential) (noteId : Z)
    (password : JS.value) : Response * Store :=
  run s (
    _ ← authenticate s c;
    if negb (JS.truthy password)
    then send 400 (ErrorBody "Password is required")
    else
      match Prisma.note_findUnique s noteId with
      | None => send 404 (ErrorBody "Note not found")
      | Some note =>
          if negb (n_isProtected note)
          then send 400 (ErrorBody "This note is not protected")
          else
            isPasswordValid ← try_catch (compare password (n_password note))
                                        500 (ErrorBody "Server error");
            if negb isPasswordValid
            then send 401 (ErrorBody "Invalid password")
            else Next (mkResponse 200
                         (NoteBody (without_password (note_json note None))), s)
      end).

(** [PATCH /:id] *)
Definition patch_note (s : Store) (c : Credential) (noteId : Z)
    (req : NoteRequest) (env : Env) : Response * Store :=
  run s (
    user ← authenticate s c;
    _ ← checkNoteOwnership s user noteId;
    req ← handleValidationErrors (noteValidation PATCH req);
    match Prisma.note_findUnique s noteId with
    | None => send 404 (ErrorBody "Note not found")
    | Some currentNote =>
        if JS.truthy (isProtected req) && negb (JS.truthy (password req))
           && negb (n_isProtected currentNote)
        then send 400 (ErrorBody "Password is required when protecting a note")
        else
          password ←
            (if JS.truthy (isProtected req) && JS.truthy (password req)
             then h ← try_catch (hash (password req) 12 env)
                                500 (ErrorBody "Server error updating note");
                  Next (JS.str h)
             else Next (password req));
          let updateData :=
            Prisma.mkNoteData (title req) (description req) (isProtected req)
              (if JS.truthy password then password else JS.undefined) in
          '(updatedNote, s') ← try_catch
            ('(_, s1) ← Prisma.noteVersion_create
                 (n_title currentNote) (n_description currentNote)
                 (n_id currentNote) (now env) s;
             Prisma.note_update noteId updateData (now env) s1)
            500 (ErrorBody "Server error updating note");
          Next (mkResponse 200
                  (NoteBody (without_password (note_json updatedNote None))), s')
    end).

(** [DELETE /:id] *)
Definition delete_note (s : Store) (c : Credential) (noteId : Z)
  : Response * Store :=
  run s (
    user ← authenticate s c;
    _ ← checkNoteOwnership s user noteId;
    match Prisma.note_findUnique s noteId with
    | None => send 404 (ErrorBody "Note not found")
    | Some _ =>
        '(_, s') ← try_catch (Prisma.note_delete noteId s)
                             500 (ErrorBody "Server error deleting note");
        Next (mkResponse 200 (MessageBody "Note deleted successfully"), s')
    end).

(** [GET /:id/versions] *)
Definition get_versions (s : Store) (c : Credential) (noteId : Z)
  : Response * Store :=
  run s (
    user ← authenticate s c;
    match Prisma.note_findUnique s noteId with
    | None => send 404 (ErrorBody "Note not found")
    | Some note =>
        if n_isProtected note && bool_decide (n_ownerId note ≠ u_id user)
        then send 403 (ErrorBody "Access denied - Unlock protected note first")
        else
          let versions := Prisma.noteVersion_findMany s noteId in
          let allVersions := currentVersion note :: (version_json <$> versions) in
          Next (mkResponse 200 (VersionsBody allVersions), s)
    end).

(** [isNaN(parseInt(versionId)) ? versionId : parseInt(versionId)] *)
Definition parsedVersionId (versionId : JS.value) : JS.value :=
  match JS.parseInt versionId with
  | None => versionId
  | Some n => JS.num n
  end.

(** [POST /:id/revert] *)
Definition post_revert (s : Store) (c : Credential) (noteId : Z)
    (versionId : JS.value) (env : Env) : Response * Store :=
  run s (
    user ← authenticate s c;
    _ ← checkNoteOwnership s user noteId;
    found ← try_catch (Prisma.noteVersion_findUnique s (parsedVersionId versionId))
                      500 (ErrorBody "Server error");
    match found with
    | None => send 404 (ErrorBody "Version not found")
    | Some version =>
        if bool_decide (v_noteId version ≠ noteId)
        then send 404 (ErrorBody "Version not found")
        else
          currentNote ← try_catch (Prisma.note_findUnique s noteId)
                                  500 (ErrorBody "Server error");
          '(revertedNote, s') ← try_catch
            ('(_, s1) ← Prisma.noteVersion_create
                 (n_title currentNote) (n_description currentNote)
                 (n_id currentNote) (now env) s;
             Prisma.note_update noteId
               (Prisma.mkNoteData (JS.str (v_title version))
                                  (JS.str (v_description version))
                                  JS.undefined JS.undefined)
               (now env) s1)
            500 (ErrorBody "Server error");
          Next (mkResponse 200
                  (NoteBody (without_password (note_json revertedNote None))), s')
    end).

End Routes.

(** ** Store invariant *)

(** What the schema guarantees of every store: primary keys are the keys of
    the tables and lie below the auto-increment counters, and the foreign
    keys [notes.owner_id] and [note_versions.note_id] resolve. *)
Record store_wf (s : Store) : Prop := mkStoreWf {
  wf_user_id : ∀ k u, users s !! k = Some u → u_id u = k;
  wf_note_id : ∀ k n, notes s !! k = Some n → n_id n = k;
  wf_note_fresh : ∀ k n, notes s !! k = Some n → k < nextNoteId s;
  wf_note_owner : ∀ k n, notes s !! k = Some n → is_Some (users s !! n_ownerId n);
  wf_version_fresh : ∀ k v, versions s !! k = Some v → k < nextVersionId s;
  wf_version_note : ∀ k v, versions s !! k = Some v → is_Some (notes s !! v_noteId v)
}.

(** The invariant as a check that runs on a store. *)
Definition store_wf_b (s : Store) : bool :=
  forallb (λ '(k, u), u_id u =? k) (map_to_list (users s)) &&
  forallb (λ '(k, n), (n_id n =? k) && (k <? nextNoteId s) &&
                      bool_decide (is_Some (users s !! n_ownerId n)))
          (map_to_list (notes s)) &&
  forallb (λ '(k, v), (k <? nextVersionId s) &&
                      bool_decide (is_Some (notes s !! v_noteId v)))
          (map_to_list (versions s)).

(** The persisted versions of a note, in no particular order. *)
Definition versions_of (s : Store) (noteId : Z) : list NoteVersion :=
  filter (λ v, v_noteId v = noteId) (map_to_list (versions s)).*2.

(** ** Vocabulary of the properties *)

(** The protection invariant as the specification words it: a password
    hash is present if and only if the note is protected. *)
Definition protection_invariant (n : Note) : Prop :=
  is_Some (n_password n) ↔ n_isProtected n = true.

(** The half of it that the routes maintain. *)
Definition protected_has_password (n : Note) : Prop :=
  n_isProtected n = true → is_Some (n_password n).

(** A request that writes a note. *)
Inductive Write : Type :=
| Create (req : NoteRequest)
| Update (noteId : Z) (req : NoteRequest).

Section Updates.
Context `{Bcrypt}.

(** The password column of a note after a successful update: a non-empty
    string in the patch replaces it, hashed only when the same patch has a
    truthy [isProtected]; anything else leaves it as it was. *)
Definition new_password (req : NoteRequest) (env : Env) (old : Note)
  : option string :=
  match password req with
  | JS.str p =>
      if String.eqb p "" then n_password old
      else Some (if JS.truthy (isProtected req)
                 then bcrypt_hash p 12 (salt env) else p)
  | _ => n_password old
  end.

(** The note row after a successful update. *)
Definition updated (req : NoteRequest) (env : Env) (old : Note)
    (isProtected' : bool) : Note :=
  mkNote (n_id old)
         (JS.trim (Validator.toString (title req)))
         (JS.trim (Validator.toString (description req)))
         isProtected' (new_password req env old)
         (n_ownerId old) (n_createdAt old) (now env).

(** [N] updates of one note by one caller, each of which has to succeed. *)

Fixpoint patch_all (s : Store) (c : Credential) (noteId : Z)
    (ups : list (NoteRequest * Env)) : option Store :=
  match ups with
  | [] => Some s
  | (req, env) :: ups =>
      let '(r, s') := patch_note s c noteId req env in
      if status r =? 200 then patch_all s' c noteId ups else None
  end.

Definition write (s : Store) (c : Credential) (w : Write) (env : Env)
  : Response * Store :=
  match w with
  | Create req => post_note s c req env
  | Update noteId req => patch_note s c noteId req env
  end.

(** The status of success and the note written. *)
Definition write_status (w : Write) : Z :=
  match w with
  | Create _ => 201
  | Update _ _ => 200
  end.

Definition write_target (s : Store) (w : Write) : Z :=
  match w with
  | Create _ => nextNoteId s
  | Update noteId _ => noteId
  end.
End Updates.

(** The persisted entries of a versions response. *)
Definition persisted (l : list VersionJson) : list VersionJson :=
  filter (λ v, vj_isCurrent v ≠ JS.bool true) l.

(** The snapshot that an update or a revert takes of the note before it
    writes, and the store after the two writes of the transaction. *)
Definition snapshot (s : Store) (n : Note) (t : Z) : NoteVersion :=
  mkNoteVersion (nextVersionId s) (n_title n) (n_description n) (n_id n) t.

Definition committed (s : Store) (noteId : Z) (new : Note) (t : Z) (old : Note)
  : Store :=
  mkStore (users s) (<[noteId := new]> (notes s))
          (<[nextVersionId s := snapshot s old t]> (versions s))
          (nextNoteId s) (nextVersionId s + 1).

(** The store after the two writes of the transaction of a create. *)
Definition inserted (s : Store) (new : Note) (t : Z) : Store :=
  mkStore (users s) (<[nextNoteId s := new]> (notes s))
          (<[nextVersionId s :=
               mkNoteVersion (nextVersionId s) (n_title new) (n_description new)
                             (n_id new) t]> (versions s))
          (nextNoteId s + 1) (nextVersionId s + 1).

(** The note row after a revert to [version]. *)
Definition reverted (old : Note) (version : NoteVersion) (t : Z) : Note :=
  mkNote (n_id old) (v_title version) (v_description version)
         (n_isProtected old) (n_password old)
         (n_ownerId old) (n_createdAt old) t.

(** Descending [updatedAt] on the entries of the list-notes response. *)
Definition meta_updatedAt_desc (a b : NoteMeta) : Prop :=
  m_updatedAt b ≤ m_updatedAt a.

(** ** A concrete instance for the examples *)

Module Demo.

(** A stand-in hasher: the hash is the password behind a fixed prefix. *)
Program Instance bcrypt : Bcrypt := {|
  bcrypt_hash s rounds salt := "$2a$" ++ s;
  bcrypt_compare s h := String.eqb h ("$2a$" ++ s)
|}.
Next Obligation. intros; unfold String.app; cbn; discriminate. Qed.

Definition alice : User := mkUser 1 "Alice" "alice@example.com" "x" 0 0.
Definition bob : User := mkUser 2 "Bob" "bob@example.com" "y" 0 0.

(** Two registered users and no note. *)
Definition s0 : Store := mkStore (<[1 := alice]> (<[2 := bob]> ∅)) ∅ ∅ 1 1.

Definition env (t : Z) : Env := mkEnv t "salt".

Definition plain : NoteRequest :=
  mkNoteRequest (JS.str "T1") (JS.str "D1") (JS.bool false) JS.undefined.

Definition secret : NoteRequest :=
  mkNoteRequest (JS.str "T1") (JS.str "D1") (JS.bool true) (JS.str "secret1A!").

(** After Alice created the unprotected note 1. *)
Definition s1 : Store := (post_note s0 (Token 1) plain (env 10)).2.

(** After Alice created the protected note 1 instead. *)
Definition s1p : Store := (post_note s0 (Token 1) secret (env 10)).2.

(** Patches: a new title and description; the title alone; protection
    switched off; a password without protection. *)
Definition edit (t d : string) : NoteRequest :=
  mkNoteRequest (JS.str t) (JS.str d) JS.undefined JS.undefined.

Definition title_only : NoteRequest :=
  mkNoteRequest (JS.str "T2") JS.undefined JS.undefined JS.undefined.

Definition unprotect : NoteRequest :=
  mkNoteRequest (JS.str "T1") (JS.str "D1") (JS.bool false) JS.undefined.

Definition protect_without_password : NoteRequest :=
  mkNoteRequest (JS.str "T1") (JS.str "D1") (JS.bool true) JS.undefined.

Definition password_only : NoteRequest :=
  mkNoteRequest (JS.str "T1") (JS.str "D1") JS.undefined (JS.str "hunter2").

(** After Alice edited the unprotected note 1. *)
Definition s2 : Store := (patch_note s1 (Token 1) 1 (edit "T2" "D2") (env 20)).2.

End Demo.

(** * Accounts: registration, login, tokens and the profile routes

    [routes/authRoutes.js], [routes/userRoutes.js], [utils/authUtils.js],
    the other validation chains of [utils/validationUtils.js] and the token
    extraction of [authenticate]. *)

(** More of [express-validator]: [isLength({ min })] and [matches] for a
    regular expression that is one character class. *)
Module Rules.

(** By the length in bytes, as [Validator.isLength_max]. *)
Definition isLength_min (min : Z) (s : string) : bool :=
  min <=? Z.of_nat (String.length s).

Fixpoint matches (class : ascii → bool) (s : string) : bool :=
  match s with
  | EmptyString => false
  | String.String c s' => class c || matches class s'
  end.

(** [/[A-Z]/], [/[0-9]/] and [/[!@#$%^&*]/] *)
Definition upper (c : ascii) : bool :=
  let n := Z.of_N (N_of_ascii c) in (65 <=? n) && (n <=? 90).

Definition digit (c : ascii) : bool :=
  let n := Z.of_N (N_of_ascii c) in (48 <=? n) && (n <=? 57).

Definition special (c : ascii) : bool :=
  bool_decide (c ∈ ["!"; "@"; "#"; "$"; "%"; "^"; "&"; "*"]%char).

End Rules.

(** [jsonwebtoken] under the secret of the deployment.  [jwt_sign id t] is
    [jwt.sign({ id }, secret, { expiresIn: '30d' })] at time [t], and
    [jwt_verify token t] the [id] of the payload when [jwt.verify] accepts
    the token at time [t]; times are in milliseconds, the token counts in
    seconds and lives 30 days = 2592000 s. *)
Class Jwt : Type := {
  jwt_sign : Z → Z → string;
  jwt_verify : string → Z → option Z;
  jwt_sign_nonempty : ∀ id t, jwt_sign id t ≠ "";
  jwt_verify_sign : ∀ id iat t,
    jwt_verify (jwt_sign id iat) t =
    if t `div` 1000 <? iat `div` 1000 + 2592000 then Some id else None
}.

(** What the deployment decides about e-mail addresses: validator.js's
    [isEmail], and when the database takes two addresses for the same
    value of the unique column (its collation). *)
Class Mail : Type := {
  isEmail : string → bool;
  same_email : string → string → bool;
  same_email_refl : ∀ a, same_email a a = true;
  same_email_sym : ∀ a b, same_email a b = true → same_email b a = true;
  same_email_trans : ∀ a b c,
    same_email a b = true → same_email b c = true → same_email a c = true
}.

(** The database with the auto-increment counter of [users]. *)
Record Db : Type := mkDb {
  store : Store;
  nextUserId : Z
}.

(** The cookies and the [Authorization] header of a request. *)
Record Headers : Type := mkHeaders {
  cookie_jwt : option string;
  authorization : option string
}.

(** A cookie set by a response; an option that is not given is [None]. *)
Record Cookie : Type := mkCookie {
  cookie_name : string;
  cookie_value : string;
  httpOnly : bool;
  maxAge : option Z;
  expires : option Z;
  sameSite : option string;
  secure : option bool
}.

(** The bodies of the account routes: those of the note routes (errors and
    messages), the [select] of id, name and email, and a whole user row. *)
Inductive AccountBody : Type :=
| Plain (b : Body)
| UserBody (u : OwnerJson)
| RowBody (u : User).

Record Reply : Type := mkReply {
  reply_status : Z;
  reply_body : AccountBody;
  reply_cookie : option Cookie
}.

Definition reply_of (r : Response) : Reply :=
  mkReply (status r) (Plain (body r)) None.

Definition run_db (db : Db) (m : Step (Reply * Db)) : Reply * Db :=
  match m with
  | Send r => (reply_of r, db)
  | Next rd => rd
  end.

Record RegisterRequest : Type := mkRegisterRequest {
  reg_name : JS.value;
  reg_email : JS.value;
  reg_password : JS.value
}.

Record LoginRequest : Type := mkLoginRequest {
  login_email : JS.value;
  login_password : JS.value
}.

Record ProfileRequest : Type := mkProfileRequest {
  prof_name : JS.value;
  prof_email : JS.value
}.

Record PasswordRequest : Type := mkPasswordRequest {
  oldPassword : JS.value;
  newPassword : JS.value
}.

(** The bodies of the account routes inside the range of [JS.plain]. *)
Definition plain_register (b : RegisterRequest) : bool :=
  JS.plain (reg_name b) && JS.plain (reg_email b) && JS.plain (reg_password b).

Definition plain_login (b : LoginRequest) : bool :=
  JS.plain (login_email b) && JS.plain (login_password b).

Definition plain_profile (b : ProfileRequest) : bool :=
  JS.plain (prof_name b) && JS.plain (prof_email b).

Definition plain_passwords (b : PasswordRequest) : bool :=
  JS.plain (oldPassword b) && JS.plain (newPassword b).

(** [handleValidationErrors] behind a chain over another body. *)
Definition handle_validation {A} (v : A * list string) : Step A :=
  match v.2 with
  | [] => Next v.1
  | errors => send 400 (ErrorsBody errors)
  end.

(** The messages of the password chain of a registration and of a new
    password: [trim().notEmpty().isLength({ min: 8 }).matches(...)...]. *)
Definition password_rules (required : string) (p : string) : list string :=
  ((if Validator.notEmpty p then [] else [required]) ++
   (if Rules.isLength_min 8 p then []
    else ["Password must be at least 8 characters"]) ++
   (if Rules.matches Rules.upper p then []
    else ["Password must contain at least one uppercase letter"]) ++
   (if Rules.matches Rules.digit p then []
    else ["Password must contain at least one number"]) ++
   (if Rules.matches Rules.special p then []
    else ["Password must contain at least one special character"]))%list.

(** [passwordChangeValidation]: the body the handler sees (both passwords
    trimmed) and the messages. *)
Definition passwordChangeValidation (b : PasswordRequest)
  : (string * string) * list string :=
  let old := JS.trim (Validator.toString (oldPassword b)) in
  let new := JS.trim (Validator.toString (newPassword b)) in
  ((old, new),
   ((if Validator.notEmpty old then [] else ["Current password is required"]) ++
    password_rules "New password is required" new)%list).

Section Accounts.

Context `{Bcrypt} `{Jwt} `{Mail}.

(** The chain of [body('email')] in [registerValidation] and
    [loginValidation]. *)
Definition email_rules (e : string) : list string :=
  ((if Validator.notEmpty e then [] else ["Email is required"]) ++
   (if isEmail e then [] else ["Please enter a valid email"]))%list.

(** [registerValidation]: name, email and password, each trimmed. *)
Definition registerValidation (b : RegisterRequest)
  : (string * string * string) * list string :=
  let name := JS.trim (Validator.toString (reg_name b)) in
  let email := JS.trim (Validator.toString (reg_email b)) in
  let password := JS.trim (Validator.toString (reg_password b)) in
  ((name, email, password),
   ((if Validator.notEmpty name then [] else ["Name is required"]) ++
    (if Rules.isLength_min 2 name then []
     else ["Name must be at least 2 characters"]) ++
    email_rules email ++
    password_rules "Password is required" password)%list).

(** [loginValidation] *)
Definition loginValidation (b : LoginRequest) : (string * string) * list string :=
  let email := JS.trim (Validator.toString (login_email b)) in
  let password := JS.trim (Validator.toString (login_password b)) in
  ((email, password),
   (email_rules email ++
    (if Validator.notEmpty password then [] else ["Password is required"]))%list).

(** The chains of [PATCH /me]: both fields are [optional()], so an absent
    field stays absent and is not checked; a field that is there is
    trimmed. *)
Definition profileValidation (b : ProfileRequest)
  : (option string * option string) * list string :=
  let field (v : JS.value) : option string :=
    match v with
    | JS.undefined => None
    | _ => Some (JS.trim (Validator.toString v))
    end in
  let name := field (prof_name b) in
  let email := field (prof_email b) in
  ((name, email),
   (match name with
    | Some n => if Rules.isLength_min 2 n then []
                else ["Name must be at least 2 characters"]
    | None => []
    end ++
    match email with
    | Some e => if isEmail e then [] else ["Please enter a valid email"]
    | None => []
    end)%list).

(** [prisma.user.findUnique({ where: { email } })] *)
Definition user_findUnique_email (s : Store) (email : string) : option User :=
  snd <$> find (λ kv, same_email (u_email kv.2) email) (map_to_list (users s)).

(** [prisma.user.create]; it throws when the address is taken
    ([email @unique]). *)
Definition user_create (name email password : string) (t : Z) (db : Db)
  : option (User * Db) :=
  match user_findUnique_email (store db) email with
  | Some _ => None
  | None =>
      let u := mkUser (nextUserId db) name email password t t in
      Some (u, mkDb (mkStore (<[nextUserId db := u]> (users (store db)))
                             (notes (store db)) (versions (store db))
                             (nextNoteId (store db)) (nextVersionId (store db)))
                    (nextUserId db + 1))
  end.

(** [prisma.user.update({ where: { id }, data })] with the keys of [data]
    that are there; it throws when no such user exists and when the new
    address is the one of another user. *)
Definition user_update (id : Z) (name email password : option string) (t : Z)
    (db : Db) : option (User * Db) :=
  old ← users (store db) !! id;
  let u := mkUser (u_id old) (default (u_name old) name)
                  (default (u_email old) email)
                  (default (u_password old) password)
                  (u_createdAt old) t in
  if existsb (λ kv, negb (kv.1 =? id) && same_email (u_email kv.2) (u_email u))
             (map_to_list (users (store db)))
  then None
  else Some (u, mkDb (mkStore (<[id := u]> (users (store db)))
                              (notes (store db)) (versions (store db))
                              (nextNoteId (store db)) (nextVersionId (store db)))
                     (nextUserId db)).

(** [setTokenCookie]; [production] is [NODE_ENV === 'production']. *)
Definition setTokenCookie (token : string) (production : bool) : Cookie :=
  mkCookie "jwt" token true (Some (30 * 24 * 60 * 60 * 1000)) None
           (Some "strict") (Some production).

(** [generateToken] *)
Definition generateToken (userId : Z) (t : Z) : string := jwt_sign userId t.

(** [hashPassword]: [genSalt(12)], then [hash]. *)
Definition hashPassword (password : string) (env : Env) : string :=
  bcrypt_hash password 12 (salt env).

Definition comparePassword (entered hashed : string) : bool :=
  bcrypt_compare entered hashed.

(** The token of a request, as [authenticate] looks for it: the [jwt]
    cookie, else the second of the pieces between blanks of an
    [Authorization] header that starts with ['Bearer ']. *)
Fixpoint until_blank (s : string) : string :=
  match s with
  | EmptyString => EmptyString
  | String.String c s' =>
      if Ascii.eqb c " " then EmptyString else String.String c (until_blank s')
  end.

Definition bearer (h : string) : option string :=
  if String.prefix "Bearer " h
  then Some (until_blank (String.substring 7 (String.length h - 7) h))
  else None.

Definition request_token (h : Headers) : option string :=
  let token :=
    match cookie_jwt h with
    | Some t => if String.eqb t "" then None else Some t
    | None => None
    end in
  let token :=
    match token with
    | Some t => Some t
    | None => authorization h ≫= bearer
    end in
  match token with
  | Some t => if String.eqb t "" then None else Some t
  | None => None
  end.

(** The first half of [authenticate]: extraction and [jwt.verify]. *)
Definition credential (h : Headers) (t : Z) : Credential :=
  match request_token h with
  | None => NoToken
  | Some token =>
      match jwt_verify token t with
      | Some id => Token id
      | None => InvalidToken
      end
  end.

Definition user_json (u : User) : OwnerJson :=
  mkOwnerJson (u_id u) (u_name u) (u_email u).

(** [POST /register] *)
Definition post_register (db : Db) (req : RegisterRequest) (env : Env)
    (production : bool) : Reply * Db :=
  run_db db (
    '(name, email, password) ← handle_validation (registerValidation req);
    match user_findUnique_email (store db) email with
    | Some _ => send 400 (ErrorBody "Email already registered")
    | None =>
        let hashedPassword := hashPassword password env in
        '(user, db') ← try_catch
          (user_create name email hashedPassword (now env) db)
          500 (ErrorBody "Server error");
        let token := generateToken (u_id user) (now env) in
        Next (mkReply 201 (UserBody (user_json user))
                      (Some (setTokenCookie token production)), db')
    end).

(** [POST /login] *)
Definition post_login (db : Db) (req : LoginRequest) (env : Env)
    (production : bool) : Reply * Db :=
  run_db db (
    '(email, password) ← handle_validation (loginValidation req);
    match user_findUnique_email (store db) email with
    | None => send 401 (ErrorBody "Invalid email or password")
    | Some user =>
        if negb (comparePassword password (u_password user))
        then send 401 (ErrorBody "Invalid email or password")
        else
          let token := generateToken (u_id user) (now env) in
          Next (mkReply 200 (UserBody (user_json user))
                        (Some (setTokenCookie token production)), db)
    end).

(** [POST /logout] *)
Definition post_logout (db : Db) : Reply * Db :=
  (mkReply 200 (Plain (MessageBody "Logged out successfully"))
           (Some (mkCookie "jwt" "" true None (Some 0) None None)), db).

(** [GET /me] *)
Definition get_me (db : Db) (c : Credential) : Reply * Db :=
  run_db db (
    user ← authenticate (store db) c;
    Next (mkReply 200 (RowBody user) None, db)).

(** [PATCH /me] *)
Definition patch_me (db : Db) (c : Credential) (req : ProfileRequest)
    (env : Env) : Reply * Db :=
  run_db db (
    user ← authenticate (store db) c;
    '(name, email) ← handle_validation (profileValidation req);
    let userId := u_id user in
    let truthy (o : option string) : option string :=
      match o with
      | Some v => if String.eqb v "" then None else Some v
      | None => None
      end in
    _ ← match truthy email with
        | Some e =>
            if negb (String.eqb e (u_email user))
            then match user_findUnique_email (store db) e with
                 | Some _ => send 400 (ErrorBody "Email already in use")
                 | None => Next ()
                 end
            else Next ()
        | None => Next ()
        end;
    '(updatedUser, db') ← try_catch
      (user_update userId (truthy name) (truthy email) None (now env) db)
      500 (ErrorBody "Server error");
    Next (mkReply 200 (UserBody (user_json updatedUser)) None, db')).

(** [PATCH /me/password] *)
Definition patch_password (db : Db) (c : Credential) (req : PasswordRequest)
    (env : Env) : Reply * Db :=
  run_db db (
    user ← authenticate (store db) c;
    '(oldPassword, newPassword) ← handle_validation (passwordChangeValidation req);
    let userId := u_id user in
    user ← try_catch (Prisma.user_findUnique (store db) userId)
                     500 (ErrorBody "Server error");
    if negb (comparePassword oldPassword (u_password user))
    then send 400 (ErrorBody "Current password is incorrect")
    else
      let hashedPassword := hashPassword newPassword env in
      '(_, db') ← try_catch
        (user_update userId None None (Some hashedPassword) (now env) db)
        500 (ErrorBody "Server error");
      Next (mkReply 200 (Plain (MessageBody "Password updated successfully"))
                    None, db')).

End Accounts.

(** A field of the profile patch as the handler of [PATCH /me] uses it:
    the trimmed value when the field is there and not empty. *)
Definition given (v : JS.value) : option string :=
  match v with
  | JS.undefined => None
  | _ => let x := JS.trim (Validator.toString v) in
         if String.eqb x "" then None else Some x
  end.

(** A string without a blank, as a token is. *)
Definition blank_free (s : string) : Prop :=
  " "%char ∉ list_ascii_of_string s.

(** The users have distinct addresses ([email @unique]). *)
Definition emails_unique `{Mail} (s : Store) : Prop :=
  ∀ k1 k2 u1 u2,
    users s !! k1 = Some u1 → users s !! k2 = Some u2 →
    same_email (u_email u1) (u_email u2) = true → k1 = k2.

(** The invariant of the database with its user counter. *)
Record db_wf `{Mail} (db : Db) : Prop := mkDbWf {
  db_store_wf : store_wf (store db);
  db_user_fresh : ∀ k u, users (store db) !! k = Some u → k < nextUserId db;
  db_emails_unique : emails_unique (store db)
}.

(** * Seeding ([utils/seedData.js]) *)

(** What the seeding reads from outside: the clock, the value of
    [Math.floor(Math.random() * 3)] in the round of user [i], and the salt
    of each hash (that of note [j] of user [i], and of user [i] under
    [j = 0]). *)
Record SeedEnv : Type := mkSeedEnv {
  seed_now : Z;
  seed_random : Z → Z;
  seed_salt : Z → Z → string
}.

(** What [seed] returns.  The result of a seeding that ran has no
    [skipped] key; [skipped] is [false] for it. *)
Record SeedResult : Type := mkSeedResult {
  usersCount : Z;
  notesCount : Z;
  skipped : bool
}.

Section Seed.

Context `{Bcrypt} `{Mail}.

Definition seed_user_name (i : Z) : string := "User " ++ JS.String (JS.num i).

Definition seed_user_email (i : Z) : string :=
  "user" ++ JS.String (JS.num i) ++ "@example.com".

Definition seed_note_title (i j : Z) : string :=
  "Note " ++ JS.String (JS.num j) ++ " by User " ++ JS.String (JS.num i).

Definition seed_note_description (i j : Z) : string :=
  "Content for note " ++ JS.String (JS.num j) ++
  String.String "010" ("Created by User " ++ JS.String (JS.num i) ++
  String.String "010" "This is a sample note with some content.").

(** The inner loop: the notes [j] of user [i], each with its initial
    version; every fourth note is protected. *)
Fixpoint seed_notes (user : User) (i : Z) (js : list Z) (env : SeedEnv)
    (db : Db) : option Db :=
  match js with
  | [] => Some db
  | j :: js =>
      let isProtected := bool_decide (j `mod` 4 = 0) in
      '(note, s1) ← Prisma.note_create
        (Prisma.mkNoteData
           (JS.str (seed_note_title i j)) (JS.str (seed_note_description i j))
           (JS.bool isProtected)
           (if isProtected
            then JS.str (bcrypt_hash "notePassword" 12 (seed_salt env i j))
            else JS.null))
        (u_id user) (seed_now env) (store db);
      '(_, s2) ← Prisma.noteVersion_create
        (n_title note) (n_description note) (n_id note) (seed_now env) s1;
      seed_notes user i js env (mkDb s2 (nextUserId db))
  end.

(** The outer loop: the users [i], each with 4 to 6 notes. *)
Fixpoint seed_users (ids : list Z) (env : SeedEnv) (db : Db) : option Db :=
  match ids with
  | [] => Some db
  | i :: ids =>
      '(user, db1) ← user_create (seed_user_name i) (seed_user_email i)
        (bcrypt_hash "Password123!" 12 (seed_salt env i 0)) (seed_now env) db;
      let notesCount := seed_random env i + 4 in
      db2 ← seed_notes user i (seqZ 1 notesCount) env db1;
      seed_users ids env db2
  end.

(** [seed()]; [None] is the error it rethrows. *)
Definition seed (env : SeedEnv) (db : Db) : option (SeedResult * Db) :=
  let userCount := Z.of_nat (size (users (store db))) in
  if 0 <? userCount
  then Some (mkSeedResult userCount (Z.of_nat (size (notes (store db)))) true, db)
  else
    let cleaned :=
      mkDb (mkStore ∅ ∅ ∅ (nextNoteId (store db)) (nextVersionId (store db)))
           (nextUserId db) in
    db' ← seed_users (seqZ 1 5) env cleaned;
    Some (mkSeedResult 5 (Z.of_nat (size (notes (store db')))) false, db').

End Seed.

(** A note as the seeding (and a create) leaves it: the password is there
    exactly when the note is protected, and the history is one version
    with the note's title and description. *)
Definition seeded_note (s : Store) (k : Z) (n : Note) : Prop :=
  protection_invariant n ∧
  ∃ v, versions_of s k ≡ₚ [v] ∧
       v_title v = n_title n ∧ v_description v = n_description n.

(** The state of the seeding after the users [seen]. *)
Record seeding `{Bcrypt} `{Mail} (env : SeedEnv) (seen : list Z) (db : Db)
  : Prop := mkSeeding {
  seeding_wf : db_wf db;
  seeding_notes : ∀ k n, notes (store db) !! k = Some n →
                         seeded_note (store db) k n;
  seeding_users : ∀ k u, users (store db) !! k = Some u →
    ∃ i, i ∈ seen ∧ u_email u = seed_user_email i ∧
         u_password u = bcrypt_hash "Password123!" 12 (seed_salt env i 0);
  seeding_user_count : size (users (store db)) = length seen;
  seeding_note_count :
    (4 * length seen ≤ size (notes (store db)) ≤ 6 * length seen)%nat
}.

(** * Notifications ([io.emit('notification', ...)] in [routes/noteRoutes.js])

    Each writing note route broadcasts one event to all connected sockets
    after its write and before it answers; a failure of the broadcast is
    caught on the spot.  [emitted] is the clock at the broadcast. *)

Record Notification : Type := mkNotification {
  ev_action : string;
  ev_noteId : Z;
  ev_userId : Z;
  ev_title : string;
  ev_timestamp : Z;
  ev_versionId : JS.value
}.

Definition run_io (s : Store)
    (m : Step (Response * Store * list Notification))
  : Response * Store * list Notification :=
  match m with
  | Send r => (r, s, [])
  | Next x => x
  end.

Section Notifications.

Context `{Bcrypt}.

(** [POST /] with its broadcast *)
Definition post_note_io (s : Store) (c : Credential) (req : NoteRequest)
    (env : Env) (emitted : Z) : Response * Store * list Notification :=
  run_io s (
    user ← authenticate s c;
    req ← handleValidationErrors (noteValidation POST req);
    let userId := u_id user in
    password ←
      (if JS.truthy (isProtected req) && JS.truthy (password req)
       then h ← try_catch (hash (password req) 12 env)
                          500 (ErrorBody "Server error");
            Next (JS.str h)
       else Next (password req));
    '(note, s') ← try_catch
      ('(newNote, s1) ← Prisma.note_create
           (Prisma.mkNoteData (title req) (description req)
                              (js_or (isProtected req) (JS.bool false))
                              password)
           userId (now env) s;
       '(_, s2) ← Prisma.noteVersion_create
           (n_title newNote) (n_description newNote) (n_id newNote)
           (now env) s1;
       Some (newNote, s2))
      500 (ErrorBody "Server error");
    Next (mkResponse 201 (NoteBody (note_json note None)), s',
          [mkNotification "create" (n_id note) userId (n_title note) emitted
                          JS.undefined])).

(** [PATCH /:id] with its broadcast *)
Definition patch_note_io (s : Store) (c : Credential) (noteId : Z)
    (req : NoteRequest) (env : Env) (emitted : Z)
  : Response * Store * list Notification :=
  run_io s (
    user ← authenticate s c;
    _ ← checkNoteOwnership s user noteId;
    req ← handleValidationErrors (noteValidation PATCH req);
    let userId := u_id user in
    match Prisma.note_findUnique s noteId with
    | None => send 404 (ErrorBody "Note not found")
    | Some currentNote =>
        if JS.truthy (isProtected req) && negb (JS.truthy (password req))
           && negb (n_isProtected currentNote)
        then send 400 (ErrorBody "Password is required when protecting a note")
        else
          password ←
            (if JS.truthy (isProtected req) && JS.truthy (password req)
             then h ← try_catch (hash (password req) 12 env)
                                500 (ErrorBody "Server error updating note");
                  Next (JS.str h)
             else Next (password req));
          let updateData :=
            Prisma.mkNoteData (title req) (description req) (isProtected req)
              (if JS.truthy password then password else JS.undefined) in
          '(updatedNote, s') ← try_catch
            ('(_, s1) ← Prisma.noteVersion_create
                 (n_title currentNote) (n_description currentNote)
                 (n_id currentNote) (now env) s;
             Prisma.note_update noteId updateData (now env) s1)
            500 (ErrorBody "Server error updating note");
          Next (mkResponse 200
                  (NoteBody (without_password (note_json updatedNote None))), s',
                [mkNotification "update" (n_id updatedNote) userId
                                (n_title updatedNote) emitted JS.undefined])
    end).

(** [DELETE /:id] with its broadcast *)
Definition delete_note_io (s : Store) (c : Credential) (noteId : Z)
    (emitted : Z) : Response * Store * list Notification :=
  run_io s (
    user ← authenticate s c;
    _ ← checkNoteOwnership s user noteId;
    let userId := u_id user in
    match Prisma.note_findUnique s noteId with
    | None => send 404 (ErrorBody "Note not found")
    | Some _ =>
        '(deletedNote, s') ← try_catch (Prisma.note_delete noteId s)
                               500 (ErrorBody "Server error deleting note");
        Next (mkResponse 200 (MessageBody "Note deleted successfully"), s',
              [mkNotification "delete" (n_id deletedNote) userId
                              (n_title deletedNote) emitted JS.undefined])
    end).

(** [POST /:id/revert] with its broadcast *)
Definition post_revert_io (s : Store) (c : Credential) (noteId : Z)
    (versionId : JS.value) (env : Env) (emitted : Z)
  : Response * Store * list Notification :=
  run_io s (
    user ← authenticate s c;
    _ ← checkNoteOwnership s user noteId;
    let userId := u_id user in
    found ← try_catch (Prisma.noteVersion_findUnique s (parsedVersionId versionId))
                      500 (ErrorBody "Server error");
    match found with
    | None => send 404 (ErrorBody "Version not found")
    | Some version =>
        if bool_decide (v_noteId version ≠ noteId)
        then send 404 (ErrorBody "Version not found")
        else
          currentNote ← try_catch (Prisma.note_findUnique s noteId)
                                  500 (ErrorBody "Server error");
          '(revertedNote, s') ← try_catch
            ('(_, s1) ← Prisma.noteVersion_create
                 (n_title currentNote) (n_description currentNote)
                 (n_id currentNote) (now env) s;
             Prisma.note_update noteId
               (Prisma.mkNoteData (JS.str (v_title version))
                                  (JS.str (v_description version))
                                  JS.undefined JS.undefined)
               (now env) s1)
            500 (ErrorBody "Server error");
          Next (mkResponse 200
                  (NoteBody (without_password (note_json revertedNote None))), s',
                [mkNotification "revert" (n_id revertedNote) userId
                                (n_title revertedNote) emitted
                                (parsedVersionId versionId)])
    end).

End Notifications.

(** The invariant of the database as a check, for concrete databases. *)
Definition db_wf_b `{Mail} (db : Db) : bool :=
  let rows := map_to_list (users (store db)) in
  store_wf_b (store db) &&
  forallb (λ kv, kv.1 <? nextUserId db) rows &&
  forallb (λ a, forallb (λ b, implb (same_email (u_email a.2) (u_email b.2))
                                    (a.1 =? b.1)) rows) rows.

(** ** A concrete deployment for the examples of the account routes *)

Module Site.

#[local] Existing Instance Demo.bcrypt.

(** A stand-in for the token library: the token spells its payload, the id
    and the time of issue, in binary digits behind a letter. *)
Fixpoint bits (p : positive) : string :=
  match p with
  | xH => EmptyString
  | xO p => String.String "0" (bits p)
  | xI p => String.String "1" (bits p)
  end.

Fixpoint of_bits (s : string) : option positive :=
  match s with
  | EmptyString => Some xH
  | String.String c s =>
      p ← of_bits s;
      if Ascii.eqb c "0" then Some (xO p)
      else if Ascii.eqb c "1" then Some (xI p) else None
  end.

Definition sign (id iat : Z) : string :=
  String.String "J" (bits (encode (id, iat))).

Definition verify (token : string) (t : Z) : option Z :=
  match token with
  | EmptyString => None
  | String.String _ s =>
      payload ← of_bits s ≫= decode (A := Z * Z);
      if t `div` 1000 <? payload.2 `div` 1000 + 2592000
      then Some payload.1 else None
  end.

Program Instance jwt : Jwt := {| jwt_sign := sign; jwt_verify := verify |}.
Next Obligation. intros; discriminate. Qed.
Next Obligation.
  intros id iat t. unfold sign, verify.
  assert (∀ p, of_bits (bits p) = Some p) as ->
    by (induction p as [p IH|p IH|]; cbn; rewrite ?IH; done).
  cbn. rewrite decode_encode. done.
Qed.

(** A stand-in for the address check and a database that compares
    addresses as they are written. *)
Program Instance mail : Mail := {|
  isEmail s := Rules.matches (Ascii.eqb "@") s;
  same_email := String.eqb
|}.
Next Obligation. intros; apply String.eqb_refl. Qed.
Next Obligation. intros a b; by rewrite String.eqb_sym. Qed.
Next Obligation. intros a b c ->%String.eqb_eq; done. Qed.

(** Alice and Bob, no note, and the next user id 3. *)
Definition db0 : Db := mkDb Demo.s0 3.

Definition carol : RegisterRequest :=
  mkRegisterRequest (JS.str "Carol") (JS.str " carol@example.com ")
                    (JS.str "Passw0rd!").

(** After Carol registered. *)
Definition db1 : Db := (post_register db0 carol (Demo.env 10) true).2.

Definition carol_login : LoginRequest :=
  mkLoginRequest (JS.str "carol@example.com") (JS.str "Passw0rd! ").

Definition rename : ProfileRequest :=
  mkProfileRequest (JS.str " Caroline ") JS.undefined.

Definition to_bob's_address : ProfileRequest :=
  mkProfileRequest JS.undefined (JS.str "bob@example.com").

Definition new_password : PasswordRequest :=
  mkPasswordRequest (JS.str "Passw0rd!") (JS.str "N3wPassw0rd!").

Definition wrong_password : PasswordRequest :=
  mkPasswordRequest (JS.str "passw0rd!") (JS.str "N3wPassw0rd!").

(** An empty database, and a seeding at time 100 whose random number in
    the round of user [i] is [i mod 3]. *)
Definition empty : Db := mkDb (mkStore ∅ ∅ ∅ 1 1) 1.

Definition seed_env : SeedEnv := mkSeedEnv 100 (λ i, i `mod` 3) (λ _ _, "salt").

End Site.

(** * Properties *)

Example trim_ex : JS.trim "  T1 " = "T1".
Proof. reflexivity. Qed.
Example parseInt_ex1 : JS.parseInt (JS.str "12abc") = Some 12.
Proof. reflexivity. Qed.
Example parseInt_ex2 : JS.parseInt (JS.str "current") = None.
Proof. reflexivity. Qed.
Example parseInt_ex3 : JS.parseInt (JS.num 42) = Some 42.
Proof. reflexivity. Qed.
Example parseInt_ex4 : JS.parseInt JS.undefined = None.
Proof. reflexivity. Qed.


Lemma store_wf_b_sound s : store_wf_b s = true → store_wf s.
Proof.
  unfold store_wf_b. rewrite !andb_true_iff, !forallb_forall.
  intros [[Hu Hn] Hv].
  assert (∀ k n, notes s !! k = Some n →
            n_id n = k ∧ k < nextNoteId s ∧ is_Some (users s !! n_ownerId n)) as Hn'.
  { intros k n Hk. apply elem_of_map_to_list, list_elem_of_In, Hn in Hk.
    apply andb_true_iff in Hk as [[H1 H2]%andb_true_iff H3].
    apply bool_decide_eq_true in H3. apply Z.eqb_eq in H1. apply Z.ltb_lt in H2.
    done. }
  assert (∀ k v, versions s !! k = Some v →
            k < nextVersionId s ∧ is_Some (notes s !! v_noteId v)) as Hv'.
  { intros k v Hk. apply elem_of_map_to_list, list_elem_of_In, Hv in Hk.
    apply andb_true_iff in Hk as [H1 H2].
    apply bool_decide_eq_true in H2. apply Z.ltb_lt in H1. done. }
  split.
  - intros k u Hk. apply elem_of_map_to_list, list_elem_of_In, Hu in Hk.
    by apply Z.eqb_eq.
  - intros k n Hk. by destruct (Hn' k n Hk) as (? & ? & ?).
  - intros k n Hk. by destruct (Hn' k n Hk) as (? & ? & ?).
  - intros k n Hk. by destruct (Hn' k n Hk) as (? & ? & ?).
  - intros k v Hk. by destruct (Hv' k v Hk) as (? & ?).
  - intros k v Hk. by destruct (Hv' k v Hk) as (? & ?).
Qed.

Section Proofs.

Context `{Bcrypt}.

(** ** The middlewares *)

Lemma authenticate_Next s c user :
  authenticate s c = Next user ↔ ∃ id, c = Token id ∧ users s !! id = Some user.
Proof.
  unfold authenticate, Prisma.user_findUnique, send. split.
  - destruct c as [| |id]; try discriminate.
    destruct (users s !! id) eqn:E; [|discriminate].
    intros [= ->]. eauto.
  - intros (id & -> & ->). done.
Qed.

Lemma authenticate_users s s' c :
  users s' = users s → authenticate s' c = authenticate s c.
Proof. intros E. unfold authenticate, Prisma.user_findUnique. by rewrite E. Qed.

Lemma checkNoteOwnership_Next s user noteId :
  checkNoteOwnership s user noteId = Next () ↔
  ∃ note, notes s !! noteId = Some note ∧ n_ownerId note = u_id user.
Proof.
  unfold checkNoteOwnership, Prisma.note_findUnique, send. split.
  - destruct (notes s !! noteId) as [note|]; [|discriminate].
    case_bool_decide as E; [discriminate|]. intros _. exists note.
    split; [done|]. by destruct (decide (n_ownerId note = u_id user)).
  - intros (note & -> & E). rewrite bool_decide_eq_false_2; [done|]. naive_solver.
Qed.

Lemma handleValidationErrors_Next v req :
  handleValidationErrors v = Next req ↔ v.2 = [] ∧ req = v.1.
Proof.
  unfold handleValidationErrors, send. destruct v as [b [|e es]]; simpl.
  - split; [by intros [= ->]|by intros [_ ->]].
  - split; [discriminate|by intros [? _]].
Qed.

(** The body the handler sees when [noteValidation] lets a request pass. *)
Lemma noteValidation_body method req :
  (noteValidation method req).1 =
  mkNoteRequest (JS.str (JS.trim (Validator.toString (title req))))
                (JS.str (JS.trim (Validator.toString (description req))))
                (isProtected req) (password req).
Proof. reflexivity. Qed.

Lemma noteValidation_title method req :
  (noteValidation method req).2 = [] →
  JS.trim (Validator.toString (title req)) ≠ "" ∧
  (String.length (JS.trim (Validator.toString (title req))) ≤ 255)%nat ∧
  JS.trim (Validator.toString (description req)) ≠ "".
Proof.
  unfold noteValidation. cbn [snd].
  destruct (Validator.notEmpty (JS.trim (Validator.toString (title req)))) eqn:E1;
    [|discriminate].
  destruct (Validator.isLength_max 255 (JS.trim (Validator.toString (title req))))
    eqn:E2; [|discriminate].
  destruct (Validator.notEmpty (JS.trim (Validator.toString (description req))))
    eqn:E3; [|discriminate].
  intros _. unfold Validator.notEmpty, Validator.isLength_max in *.
  apply negb_true_iff, String.eqb_neq in E1, E3. apply Z.leb_le in E2.
  split_and!; [done|lia|done].
Qed.

Lemma authenticate_Send s c r :
  authenticate s c = Send r → status r = 401.
Proof.
  unfold authenticate, send. intros E.
  destruct c; [| |destruct (Prisma.user_findUnique _ _)]; by simplify_eq.
Qed.

Lemma checkNoteOwnership_Send s user noteId r :
  checkNoteOwnership s user noteId = Send r →
  r = mkResponse 404 (ErrorBody "Note not found") ∧ notes s !! noteId = None ∨
  status r = 403 ∧ ∃ note, notes s !! noteId = Some note ∧ n_ownerId note ≠ u_id user.
Proof.
  unfold checkNoteOwnership, Prisma.note_findUnique, send. intros E.
  destruct (notes s !! noteId) as [note|]; [|left; by simplify_eq].
  case_bool_decide; simplify_eq. right. eauto.
Qed.

Lemma handleValidationErrors_Send v r :
  handleValidationErrors v = Send r → r = mkResponse 400 (ErrorsBody v.2) ∧ v.2 ≠ [].
Proof.
  unfold handleValidationErrors, send. destruct v as [b [|e es]]; simpl; [done|].
  by intros [= <-].
Qed.

(** ** The transaction of an update and of a revert *)

Lemma snapshot_then_update s noteId old d t n s' :
  ('(_, s1) ← Prisma.noteVersion_create (n_title old) (n_description old)
                                        (n_id old) t s;
   Prisma.note_update noteId d t s1) = Some (n, s') ↔
  is_Some (notes s !! n_id old) ∧
  ∃ cur title description isProtected password,
    notes s !! noteId = Some cur ∧
    Prisma.String_set (Prisma.d_title d) (n_title cur) = Some title ∧
    Prisma.String_set (Prisma.d_description d) (n_description cur) = Some description ∧
    Prisma.Boolean_set (Prisma.d_isProtected d) (n_isProtected cur) = Some isProtected ∧
    Prisma.String_opt_set (Prisma.d_password d) (n_password cur) = Some password ∧
    n = mkNote (n_id cur) title description isProtected password
               (n_ownerId cur) (n_createdAt cur) t ∧
    s' = committed s noteId n t old.
Proof.
  unfold Prisma.noteVersion_create, Prisma.note_update, committed, snapshot.
  split.
  - intros E. destruct (notes s !! n_id old) eqn:E0; simplify_option_eq.
    split; [by eauto|]. eexists _, _, _, _, _. split_and!; try done.
  - intros [[x E0] (cur & t' & d' & ip & pw & E1 & E2 & E3 & E4 & E5 & -> & ->)].
    rewrite E0. simpl. rewrite E1. simpl. rewrite E2, E3, E4, E5. done.
Qed.

(** ** [PATCH /:id] *)

Local Arguments authenticate : simpl never.
Local Arguments checkNoteOwnership : simpl never.
Local Arguments noteValidation : simpl never.
Local Arguments handleValidationErrors : simpl never.
Local Arguments Prisma.note_create : simpl never.
Local Arguments Prisma.note_update : simpl never.
Local Arguments Prisma.note_delete : simpl never.
Local Arguments Prisma.noteVersion_create : simpl never.

(** A response other than the awaited one ends the analysis of a path. *)
Ltac wrong_status :=
  match goal with
  | E : (_, _) = (?r, _), Hst : status ?r = _ |- _ =>
      injection E as <- <-;
      repeat match goal with
        | Ha : authenticate _ _ = Send _ |- _ => apply authenticate_Send in Ha
        | Ha : checkNoteOwnership _ _ _ = Send _ |- _ =>
            apply checkNoteOwnership_Send in Ha as [[-> _]|[Ha _]]
        | Ha : handleValidationErrors _ = Send _ |- _ =>
            apply handleValidationErrors_Send in Ha as [-> _]
        end;
      first [discriminate Hst | cbn in *; congruence]
  end.

Lemma truthy_hash p rounds salt :
  negb (String.eqb (bcrypt_hash p rounds salt) "") = true.
Proof. apply negb_true_iff, String.eqb_neq, bcrypt_hash_nonempty. Qed.

(** Decompose the committed transaction of hypothesis [E]; [Hold] is the
    lookup of the note before the request. *)
Ltac tx_outcome E Hold :=
  match type of E with
  | context [try_catch ?tx _ _] =>
      let Htx := fresh "Htx" in
      destruct tx as [[? ?]|] eqn:Htx; cbn in E; [|wrong_status];
      apply snapshot_then_update in Htx
        as (_ & ? & ? & ? & ? & ? & Htx & ? & ? & ? & ? & -> & ->);
      rewrite Hold in Htx; injection Htx as <-;
      injection E as <- <-
  end.

Lemma patch_note_200 s c noteId req env r s' :
  patch_note s c noteId req env = (r, s') → status r = 200 →
  ∃ user old isProtected',
    authenticate s c = Next user ∧
    notes s !! noteId = Some old ∧ n_ownerId old = u_id user ∧
    (noteValidation PATCH req).2 = [] ∧
    Prisma.Boolean_set (isProtected req) (n_isProtected old) = Some isProtected' ∧
    (JS.truthy (password req) = true → ∃ p, password req = JS.str p) ∧
    (JS.truthy (isProtected req) = true → JS.truthy (password req) = false →
     n_isProtected old = true) ∧
    s' = committed s noteId (updated req env old isProtected') (now env) old ∧
    r = mkResponse 200
          (NoteBody (without_password
                       (note_json (updated req env old isProtected') None))).
Proof.
  unfold patch_note, run. intros E Hst.
  destruct (authenticate s c) as [?|user] eqn:Hauth; cbn in E; [wrong_status|].
  destruct (checkNoteOwnership s user noteId) as [?|[]] eqn:Hown; cbn in E;
    [wrong_status|].
  apply checkNoteOwnership_Next in Hown as (old & Hold & Howner).
  destruct (handleValidationErrors (noteValidation PATCH req)) as [?|req'] eqn:Hval;
    cbn in E; [wrong_status|].
  apply handleValidationErrors_Next in Hval as [Hval ->].
  rewrite noteValidation_body in E. cbn in E.
  unfold Prisma.note_findUnique in E. rewrite Hold in E.
  exists user, old. unfold updated, new_password.
  destruct (JS.truthy (isProtected req)) eqn:Tip,
           (JS.truthy (password req)) eqn:Tpw; cbn in E.
  - destruct (password req) as [| | |?|p] eqn:Epw; cbn in E; try wrong_status.
    rewrite truthy_hash in E. apply negb_true_iff in Tpw. rewrite Tpw.
    tx_outcome E Hold. simplify_eq/=.
    eexists. split_and!; try done. eauto.
  - destruct (n_isProtected old) eqn:Eprot; cbn in E; [|wrong_status].
    rewrite Tpw in E.
    tx_outcome E Hold. rewrite Eprot in *.
    destruct (password req) as [| | |?|p] eqn:Epw; simplify_eq/=;
      try (apply negb_false_iff in Tpw; rewrite Tpw);
      eexists; split_and!; done.
  - rewrite Tpw in E.
    tx_outcome E Hold.
    destruct (password req) as [| | |?|p] eqn:Epw; simplify_eq/=.
    apply negb_true_iff in Tpw. rewrite Tpw.
    eexists. split_and!; try done. eauto.
  - rewrite Tpw in E.
    tx_outcome E Hold.
    destruct (password req) as [| | |?|p] eqn:Epw; simplify_eq/=;
      try (apply negb_false_iff in Tpw; rewrite Tpw);
      eexists; split_and!; done.
Qed.

(** The update of a well-formed request succeeds. *)
Lemma patch_note_ok s c noteId req env user old isProtected' :
  authenticate s c = Next user →
  notes s !! noteId = Some old → n_ownerId old = u_id user →
  is_Some (notes s !! n_id old) →
  (noteValidation PATCH req).2 = [] →
  Prisma.Boolean_set (isProtected req) (n_isProtected old) = Some isProtected' →
  (JS.truthy (password req) = true → ∃ p, password req = JS.str p) →
  (JS.truthy (isProtected req) = true → JS.truthy (password req) = false →
   n_isProtected old = true) →
  patch_note s c noteId req env =
  (mkResponse 200
     (NoteBody (without_password (note_json (updated req env old isProtected') None))),
   committed s noteId (updated req env old isProtected') (now env) old).
Proof.
  intros Hauth Hold Howner Hfk Hval Hip Hpw Hprot.
  unfold patch_note, run. rewrite Hauth. cbn.
  rewrite (proj2 (checkNoteOwnership_Next s user noteId)) by eauto. cbn.
  rewrite (proj2 (handleValidationErrors_Next _ _) (conj Hval eq_refl)). cbn.
  rewrite noteValidation_body. cbn.
  unfold Prisma.note_findUnique. rewrite Hold.
  assert (Htx : ∀ pw,
    Prisma.String_opt_set pw (n_password old) = Some (new_password req env old) →
    ('(_, s1) ← Prisma.noteVersion_create (n_title old) (n_description old)
                                          (n_id old) (now env) s;
     Prisma.note_update noteId
       (Prisma.mkNoteData (JS.str (JS.trim (Validator.toString (title req))))
                          (JS.str (JS.trim (Validator.toString (description req))))
                          (isProtected req) pw)
       (now env) s1)
    = Some (updated req env old isProtected',
            committed s noteId (updated req env old isProtected') (now env) old)).
  { intros pw Hpw'. apply snapshot_then_update. split; [done|].
    eexists old, _, _, _, _. split_and!; try done. }
  unfold new_password in Htx.
  destruct (JS.truthy (password req)) eqn:Tpw.
  - destruct (Hpw eq_refl) as [p Ep]. rewrite Ep in *. cbn in Tpw.
    rewrite (proj1 (negb_true_iff _) Tpw) in Htx.
    destruct (JS.truthy (isProtected req)) eqn:Tip; cbn.
    + rewrite truthy_hash, Htx; done.
    + rewrite Tpw, Htx; done.
  - rewrite andb_false_r. cbn.
    assert (JS.truthy (isProtected req) && true && negb (n_isProtected old) = false)
      as ->.
    { destruct (JS.truthy (isProtected req)); [|done]. by rewrite Hprot. }
    cbn. rewrite Tpw, Htx; [done|].
    destruct (password req) as [| | |?|p]; try done.
    cbn in Tpw. by rewrite (proj1 (negb_false_iff _) Tpw).
Qed.


(** ** [POST /] *)

Lemma create_then_snapshot s d ownerId t n s' :
  ('(newNote, s1) ← Prisma.note_create d ownerId t s;
   '(_, s2) ← Prisma.noteVersion_create (n_title newNote) (n_description newNote)
                                        (n_id newNote) t s1;
   Some (newNote, s2)) = Some (n, s') ↔
  is_Some (users s !! ownerId) ∧
  ∃ title description isProtected password,
    Prisma.String_arg (Prisma.d_title d) = Some title ∧
    Prisma.String_arg (Prisma.d_description d) = Some description ∧
    Prisma.Boolean_arg (Prisma.d_isProtected d) = Some isProtected ∧
    Prisma.String_opt_arg (Prisma.d_password d) = Some password ∧
    n = mkNote (nextNoteId s) title description isProtected password ownerId t t ∧
    s' = inserted s n t.
Proof.
  unfold Prisma.note_create, Prisma.noteVersion_create, inserted. split.
  - intros E. destruct (users s !! ownerId) eqn:E0; simplify_option_eq.
    split; [by eauto|]. eexists _, _, _, _. split_and!; done.
  - intros [[x E0] (t' & d' & ip & pw & E1 & E2 & E3 & E4 & -> & ->)].
    rewrite E1. simpl. rewrite E2. simpl. rewrite E3. simpl. rewrite E4. simpl.
    rewrite E0. simpl. rewrite lookup_insert_eq. done.
Qed.

Lemma post_note_201 s c req env r s' :
  post_note s c req env = (r, s') → status r = 201 →
  ∃ user isProtected' password',
    let new := mkNote (nextNoteId s)
                 (JS.trim (Validator.toString (title req)))
                 (JS.trim (Validator.toString (description req)))
                 isProtected' password' (u_id user) (now env) (now env) in
    authenticate s c = Next user ∧
    (noteValidation POST req).2 = [] ∧
    Prisma.Boolean_arg (js_or (isProtected req) (JS.bool false)) = Some isProtected' ∧
    (if JS.truthy (isProtected req) && JS.truthy (password req)
     then ∃ p, password req = JS.str p ∧
               password' = Some (bcrypt_hash p 12 (salt env))
     else Prisma.String_opt_arg (password req) = Some password') ∧
    s' = inserted s new (now env) ∧
    r = mkResponse 201 (NoteBody (note_json new None)).
Proof.
  unfold post_note, run. intros E Hst.
  destruct (authenticate s c) as [?|user] eqn:Hauth; cbn in E; [wrong_status|].
  destruct (handleValidationErrors (noteValidation POST req)) as [?|req'] eqn:Hval;
    cbn in E; [wrong_status|].
  apply handleValidationErrors_Next in Hval as [Hval ->].
  rewrite noteValidation_body in E. cbn in E.
  exists user.
  destruct (JS.truthy (isProtected req) && JS.truthy (password req)) eqn:Tb;
    cbn in E.
  - destruct (password req) as [| | |?|p] eqn:Epw; cbn in E; try wrong_status.
    match type of E with
    | context [try_catch ?tx _ _] => destruct tx as [[? ?]|] eqn:Htx; cbn in E;
                                     [|wrong_status]
    end.
    apply create_then_snapshot in Htx as (_ & ? & ? & ? & ? & ? & ? & ? & ? & -> & ->).
    injection E as <- <-. simplify_eq/=. eexists _, _. split_and!; try done. eauto.
  - match type of E with
    | context [try_catch ?tx _ _] => destruct tx as [[? ?]|] eqn:Htx; cbn in E;
                                     [|wrong_status]
    end.
    apply create_then_snapshot in Htx as (_ & ? & ? & ? & ? & ? & ? & ? & ? & -> & ->).
    injection E as <- <-. simplify_eq/=. eexists _, _. split_and!; done.
Qed.

(** ** The store invariant is kept by the writes *)

Lemma fresh_version s : store_wf s → versions s !! nextVersionId s = None.
Proof.
  intros Hwf. destruct (versions s !! nextVersionId s) eqn:E; [|done].
  apply (wf_version_fresh s Hwf) in E. lia.
Qed.

Lemma fresh_note s : store_wf s → notes s !! nextNoteId s = None.
Proof.
  intros Hwf. destruct (notes s !! nextNoteId s) eqn:E; [|done].
  apply (wf_note_fresh s Hwf) in E. lia.
Qed.

Lemma wf_inserted s new t :
  store_wf s → n_id new = nextNoteId s → is_Some (users s !! n_ownerId new) →
  store_wf (inserted s new t).
Proof.
  intros Hwf Hid Hown. split; unfold inserted; simpl.
  - apply Hwf.
  - intros k n [[<- <-]|[_ E]]%lookup_insert_Some; [done|]. by eapply wf_note_id.
  - intros k n [[<- <-]|[_ E]]%lookup_insert_Some; [lia|].
    apply (wf_note_fresh s Hwf) in E. lia.
  - intros k n [[<- <-]|[_ E]]%lookup_insert_Some; [done|]. by eapply wf_note_owner.
  - intros k v [[<- <-]|[_ E]]%lookup_insert_Some; [lia|].
    apply (wf_version_fresh s Hwf) in E. lia.
  - intros k v [[<- <-]|[_ E]]%lookup_insert_Some; simpl.
    + rewrite Hid, lookup_insert_eq. by eauto.
    + apply lookup_insert_is_Some'. right. by eapply wf_version_note.
Qed.

Lemma wf_committed s noteId new t old :
  store_wf s → notes s !! noteId = Some old →
  n_id new = n_id old → n_ownerId new = n_ownerId old →
  store_wf (committed s noteId new t old).
Proof.
  intros Hwf Hold Hid Hown. split; unfold committed, snapshot; simpl.
  - apply Hwf.
  - intros k n [[<- <-]|[_ E]]%lookup_insert_Some; [|by eapply wf_note_id].
    rewrite Hid. by eapply wf_note_id.
  - intros k n [[<- <-]|[_ E]]%lookup_insert_Some; by eapply wf_note_fresh.
  - intros k n [[<- <-]|[_ E]]%lookup_insert_Some; [|by eapply wf_note_owner].
    rewrite Hown. by eapply wf_note_owner.
  - intros k v [[<- <-]|[_ E]]%lookup_insert_Some; [lia|].
    apply (wf_version_fresh s Hwf) in E. lia.
  - intros k v [[<- <-]|[_ E]]%lookup_insert_Some; simpl;
      apply lookup_insert_is_Some'; right.
    + rewrite (wf_note_id s Hwf _ _ Hold). by eauto.
    + by eapply wf_version_note.
Qed.

(** ** The history of a note *)

Lemma versions_of_insert noteId v (vs : gmap Z NoteVersion) k :
  vs !! k = None →
  filter (λ v, v_noteId v = noteId) (map_to_list (<[k := v]> vs)).*2 ≡ₚ
  filter (λ v, v_noteId v = noteId) (v :: (map_to_list vs).*2).
Proof. intros Hk. by rewrite map_to_list_insert. Qed.

Lemma versions_of_inserted s new t :
  store_wf s → n_id new = nextNoteId s →
  versions_of (inserted s new t) (nextNoteId s) ≡ₚ
  [mkNoteVersion (nextVersionId s) (n_title new) (n_description new)
                 (nextNoteId s) t].
Proof.
  intros Hwf Hid. unfold versions_of, inserted. simpl.
  rewrite versions_of_insert by by apply fresh_version.
  rewrite filter_cons_True by done. rewrite Hid.
  assert (filter (λ v, v_noteId v = nextNoteId s) (map_to_list (versions s)).*2 = [])
    as ->; [|done].
  apply elem_of_nil_inv. intros v [Hv Hin]%list_elem_of_filter.
  apply list_elem_of_fmap in Hin as [[k v'] [-> Hin%elem_of_map_to_list]].
  destruct (wf_version_note s Hwf _ _ Hin) as [n Hn].
  apply (wf_note_fresh s Hwf) in Hn. simpl in Hv. lia.
Qed.

Lemma versions_of_committed s noteId new t old :
  store_wf s → notes s !! noteId = Some old →
  versions_of (committed s noteId new t old) noteId ≡ₚ
  snapshot s old t :: versions_of s noteId.
Proof.
  intros Hwf Hold. unfold versions_of, committed. simpl.
  rewrite versions_of_insert by by apply fresh_version.
  rewrite filter_cons_True; [done|]. simpl. by eapply wf_note_id.
Qed.

(** ** [GET /:id/versions] *)

Global Instance createdAt_desc_trans : Transitive Prisma.createdAt_desc.
Proof. unfold Prisma.createdAt_desc. intros a b c. lia. Qed.
Global Instance createdAt_desc_total : Total Prisma.createdAt_desc.
Proof. unfold Prisma.createdAt_desc. intros a b. lia. Qed.
Global Instance updatedAt_desc_trans : Transitive Prisma.updatedAt_desc.
Proof. unfold Prisma.updatedAt_desc. intros a b c. lia. Qed.
Global Instance updatedAt_desc_total : Total Prisma.updatedAt_desc.
Proof. unfold Prisma.updatedAt_desc. intros a b. lia. Qed.

Lemma noteVersion_findMany_perm s noteId :
  Prisma.noteVersion_findMany s noteId ≡ₚ versions_of s noteId.
Proof. apply merge_sort_Permutation. Qed.

Lemma noteVersion_findMany_sorted s noteId :
  StronglySorted Prisma.createdAt_desc (Prisma.noteVersion_findMany s noteId).
Proof. apply StronglySorted_merge_sort; apply _. Qed.

Lemma get_versions_owner s c noteId user note :
  authenticate s c = Next user →
  notes s !! noteId = Some note → n_ownerId note = u_id user →
  get_versions s c noteId =
  (mkResponse 200
     (VersionsBody (currentVersion note ::
                    (version_json <$> Prisma.noteVersion_findMany s noteId))), s).
Proof.
  intros Hauth Hnote Hown. unfold get_versions, run. rewrite Hauth. cbn.
  unfold Prisma.note_findUnique. rewrite Hnote.
  rewrite bool_decide_eq_false_2 by (intros ?; done).
  by rewrite andb_false_r.
Qed.

Lemma patch_all_history s c noteId ups sN note :
  store_wf s → notes s !! noteId = Some note →
  patch_all s c noteId ups = Some sN →
  store_wf sN ∧ users sN = users s ∧
  length (versions_of sN noteId) = (length ups + length (versions_of s noteId))%nat ∧
  ∃ note', notes sN !! noteId = Some note' ∧ n_ownerId note' = n_ownerId note.
Proof.
  revert s note. induction ups as [|[req env] ups IH]; intros s note Hwf Hnote Hall.
  - injection Hall as <-. split_and!; [done..|]. by exists note.
  - simpl in Hall. destruct (patch_note s c noteId req env) as [r s1] eqn:E.
    destruct (status r =? 200) eqn:Hst; [|done]. apply Z.eqb_eq in Hst.
    apply patch_note_200 in E
      as (user & old & ip & _ & Hold & _ & _ & _ & _ & _ & -> & _); [|done].
    rewrite Hnote in Hold. injection Hold as <-.
    apply (IH _ (updated req env note ip)) in Hall
      as (HwfN & Husers & Hlen & note' & Hnote' & Hown').
    + split_and!; [done|done| |by eauto].
      rewrite Hlen, versions_of_committed by done. simpl. lia.
    + by apply wf_committed.
    + unfold committed. simpl. apply lookup_insert_eq.
Qed.

(** ** [POST /:id/revert] *)

Lemma post_revert_200 s c noteId versionId env r s' :
  post_revert s c noteId versionId env = (r, s') → status r = 200 →
  ∃ user old k version,
    authenticate s c = Next user ∧
    notes s !! noteId = Some old ∧ n_ownerId old = u_id user ∧
    is_Some (notes s !! n_id old) ∧
    parsedVersionId versionId = JS.num k ∧
    versions s !! k = Some version ∧ v_noteId version = noteId ∧
    s' = committed s noteId (reverted old version (now env)) (now env) old ∧
    r = mkResponse 200
          (NoteBody (without_password
                       (note_json (reverted old version (now env)) None))).
Proof.
  unfold post_revert, run. intros E Hst.
  destruct (authenticate s c) as [?|user] eqn:Hauth; cbn in E; [wrong_status|].
  destruct (checkNoteOwnership s user noteId) as [?|[]] eqn:Hown; cbn in E;
    [wrong_status|].
  apply checkNoteOwnership_Next in Hown as (old & Hold & Howner).
  unfold Prisma.noteVersion_findUnique, Prisma.note_findUnique in E.
  destruct (parsedVersionId versionId) as [| | |k|] eqn:Hk; cbn in E;
    try wrong_status.
  destruct (versions s !! k) as [version|] eqn:Hv; cbn in E; [|wrong_status].
  case_bool_decide as Hn; cbn in E; [wrong_status|].
  rewrite Hold in E. cbn in E.
  match type of E with
  | context [try_catch ?tx _ _] =>
      destruct tx as [[? ?]|] eqn:Htx; cbn in E; [|wrong_status]
  end.
  apply snapshot_then_update in Htx
    as (Hfk & ? & ? & ? & ? & ? & Htx & ? & ? & ? & ? & -> & ->).
  rewrite Hold in Htx. injection Htx as <-. injection E as <- <-.
  simplify_eq/=. exists user, old, k, version.
  split_and!; done.
Qed.

Lemma post_revert_ok s c noteId versionId env user old k version :
  authenticate s c = Next user →
  notes s !! noteId = Some old → n_ownerId old = u_id user →
  is_Some (notes s !! n_id old) →
  parsedVersionId versionId = JS.num k →
  versions s !! k = Some version → v_noteId version = noteId →
  post_revert s c noteId versionId env =
  (mkResponse 200
     (NoteBody (without_password (note_json (reverted old version (now env)) None))),
   committed s noteId (reverted old version (now env)) (now env) old).
Proof.
  intros Hauth Hold Howner Hfk Hk Hv Hn.
  unfold post_revert, run. rewrite Hauth. cbn.
  rewrite (proj2 (checkNoteOwnership_Next s user noteId)) by eauto. cbn.
  unfold Prisma.noteVersion_findUnique, Prisma.note_findUnique.
  rewrite Hk. cbn. rewrite Hv.
  rewrite bool_decide_eq_false_2 by (intros ?; done).
  rewrite Hold. cbn.
  rewrite (proj2 (snapshot_then_update s noteId old _ (now env)
                    (reverted old version (now env))
                    (committed s noteId (reverted old version (now env))
                               (now env) old))); [done|].
  split; [done|]. eexists old, _, _, _, _. split_and!; done.
Qed.

(** ** Version history after a create and [N] updates *)

(** C3 (amended).  After a create followed by [N] successful updates of
    the created note, [GET /:id/versions] answers 200 with the synthetic
    current entry first, whose title and description are those of the live
    note and whose timestamp is the note's [updatedAt], followed by exactly
    [N + 1] persisted versions of the note, newest first: the initial
    snapshot seeded by the create and one snapshot per update. *)
Theorem versions_after_updates s0 c req env ups r1 s1 sN :
  store_wf s0 →
  post_note s0 c req env = (r1, s1) → status r1 = 201 →
  patch_all s1 c (nextNoteId s0) ups = Some sN →
  ∃ note current history,
    notes sN !! nextNoteId s0 = Some note ∧
    get_versions sN c (nextNoteId s0) =
      (mkResponse 200 (VersionsBody (current :: (version_json <$> history))), sN) ∧
    vj_id current = JS.str "current" ∧ vj_isCurrent current = JS.bool true ∧
    vj_title current = n_title note ∧
    vj_description current = n_description note ∧
    vj_createdAt current = n_updatedAt note ∧
    history ≡ₚ versions_of sN (nextNoteId s0) ∧
    length history = S (length ups) ∧
    StronglySorted Prisma.createdAt_desc history.
Proof.
  intros Hwf Hpost Hst Hall.
  apply post_note_201 in Hpost
    as (user & ip & pw & Hauth & _ & _ & _ & -> & _); [|done].
  set (new := mkNote _ _ _ _ _ _ _ _) in *.
  pose proof Hauth as (uid & -> & Huser)%authenticate_Next.
  assert (u_id user = uid) as Huid by by eapply wf_user_id.
  assert (store_wf (inserted s0 new (now env))) as Hwf1.
  { apply wf_inserted; [done|done|]. simpl. rewrite Huid. by eauto. }
  eapply patch_all_history in Hall
    as (HwfN & Husers & Hlen & note & Hnote & Hown); [|done|].
  2:{ unfold inserted. simpl. apply lookup_insert_eq. }
  rewrite versions_of_inserted in Hlen by done. simpl in Hlen, Hown.
  exists note, (currentVersion note), (Prisma.noteVersion_findMany sN (nextNoteId s0)).
  split_and!; try done.
  - apply get_versions_owner with user; [|done|done].
    apply authenticate_Next. exists uid. by rewrite Husers.
  - apply noteVersion_findMany_perm.
  - rewrite noteVersion_findMany_perm. lia.
  - apply noteVersion_findMany_sorted.
Qed.

(** ** Revert *)

(** C5.  For a note of the caller and a persisted version [v] of that note,
    a revert to [v] followed by a revert to the version that the first
    revert created both succeed, and the second one restores the title and
    the description the note had before the first (the protection flag and
    the password are untouched throughout). *)
Theorem revert_round_trip s c noteId user old k version v env1 v' env2 :
  store_wf s →
  authenticate s c = Next user →
  notes s !! noteId = Some old → n_ownerId old = u_id user →
  versions s !! k = Some version → v_noteId version = noteId →
  parsedVersionId v = JS.num k →
  parsedVersionId v' = JS.num (nextVersionId s) →
  ∃ r1 s1 created r2 s2 new,
    post_revert s c noteId v env1 = (r1, s1) ∧ status r1 = 200 ∧
    versions s !! nextVersionId s = None ∧
    versions s1 !! nextVersionId s = Some created ∧
    post_revert s1 c noteId v' env2 = (r2, s2) ∧ status r2 = 200 ∧
    notes s2 !! noteId = Some new ∧
    n_title new = n_title old ∧ n_description new = n_description old ∧
    n_isProtected new = n_isProtected old ∧ n_password new = n_password old.
Proof.
  intros Hwf Hauth Hold Hown Hv Hn Hk Hk'.
  assert (n_id old = noteId) as Hid by by eapply wf_note_id.
  eexists _, _, (snapshot s old (now env1)), _, _, _.
  split; [apply post_revert_ok with user k; try done; rewrite Hid; by eauto|].
  split; [done|]. split; [by apply fresh_version|].
  split; [apply lookup_insert_eq|].
  split.
  { apply (post_revert_ok _ c noteId v' env2 user
             (reverted old version (now env1)) (nextVersionId s)
             (snapshot s old (now env1))); try done.
    - apply lookup_insert_eq.
    - simpl. rewrite Hid. rewrite lookup_insert_eq. by eauto.
    - apply lookup_insert_eq. }
  split; [done|]. split; [apply lookup_insert_eq|]. done.
Qed.

(** ** Protection and the stored password *)

(** A create whose body has a [password] key and a truthy [isProtected]
    gets past the validation only with a truthy password. *)
Lemma noteValidation_POST_password req :
  (noteValidation POST req).2 = [] → password req ≠ JS.undefined →
  JS.truthy (isProtected req) = true → JS.truthy (password req) = true.
Proof.
  unfold noteValidation. cbn [snd]. intros E Hpw Hip.
  repeat (apply app_eq_nil in E as [_ E]).
  rewrite Hip in E.
  destruct (password req) as [| |b|n|p]; simpl in *;
    [done|done|by destruct b|by destruct (n =? 0)|by destruct (String.eqb p "")].
Qed.

Lemma Boolean_arg_js_or v :
  Prisma.Boolean_arg (js_or v (JS.bool false)) = Some true → v = JS.bool true.
Proof.
  unfold js_or. destruct (JS.truthy v) eqn:E; [|done].
  destruct v as [| |[]| |]; done.
Qed.

Lemma new_password_is_Some req env old :
  JS.truthy (password req) = true → (∃ p, password req = JS.str p) →
  is_Some (new_password req env old).
Proof.
  intros Tpw [p Ep]. unfold new_password. rewrite Ep in *. simpl in Tpw.
  apply negb_true_iff in Tpw. rewrite Tpw. by eauto.
Qed.

Lemma new_password_falsy req env old :
  JS.truthy (password req) = false → new_password req env old = n_password old.
Proof.
  intros Tpw. unfold new_password. destruct (password req) as [| | | |p]; try done.
  simpl in Tpw. apply negb_false_iff in Tpw. by rewrite Tpw.
Qed.

(** C2 (amended).  After a successful create whose body carries a
    [password] key, and after a successful update of a note on which it
    held before, a protected note has a stored password.  The converse is
    not maintained: an update without a non-empty password leaves the
    stored password as it was, also when the patch sets [isProtected] to
    [false]. *)
Theorem protection_after_write s c w env r s' :
  write s c w env = (r, s') → status r = write_status w →
  match w with
  | Create req => password req ≠ JS.undefined
  | Update noteId _ =>
      ∀ old, notes s !! noteId = Some old → protected_has_password old
  end →
  ∃ new,
    notes s' !! write_target s w = Some new ∧
    protected_has_password new ∧
    ∀ noteId req old,
      w = Update noteId req → notes s !! noteId = Some old →
      JS.truthy (password req) = false →
      n_password new = n_password old ∧
      (∀ b, isProtected req = JS.bool b → n_isProtected new = b).
Proof.
  destruct w as [req|noteId req]; simpl; intros E Hst Hpre.
  - apply post_note_201 in E
      as (user & ip & pw & _ & Hval & Hip & Hpw & -> & _); [|done].
    eexists. split; [apply lookup_insert_eq|]. split; [|done].
    intros Hprot. simpl in Hprot. subst ip.
    apply Boolean_arg_js_or in Hip.
    rewrite (noteValidation_POST_password req), Hip in Hpw; [|done..|by rewrite Hip].
    simpl in Hpw. destruct Hpw as (p & _ & ->). simpl. by eauto.
  - apply patch_note_200 in E
      as (user & old & ip & _ & Hold & _ & _ & Hip & Hstr & Hprot & -> & _); [|done].
    eexists. split; [apply lookup_insert_eq|]. split.
    + intros Hnew. simpl in *. subst ip.
      destruct (JS.truthy (password req)) eqn:Tpw;
        [by apply new_password_is_Some; auto|].
      rewrite new_password_falsy by done. apply (Hpre old Hold).
      destruct (isProtected req) as [| |[]| |] eqn:Eip; simplify_eq/=; auto.
    + intros ? ? old' [= <- <-] Hold' Tpw. simplify_eq/=.
      split; [by apply new_password_falsy|].
      intros b Eb. rewrite Eb in Hip. by simplify_eq/=.
Qed.

(** ** Partial updates *)

(** C4 (amended).  For a note owned by the caller and a patch whose title
    and description are ASCII strings (or safe integers), [title] and
    [description] are required in the patch: an update succeeds only if
    both are non-empty after trimming and the title has at most 255
    characters.  [isProtected] and [password] are optional: a patch with
    such a title and description succeeds; an omitted [isProtected] or
    [password] leaves the stored value unchanged, and every field present
    replaces the stored value (title and description trimmed, the password
    hashed when the same patch has [isProtected] true). *)
Theorem update_field_semantics s c noteId req env user old :
  store_wf s →
  authenticate s c = Next user →
  notes s !! noteId = Some old → n_ownerId old = u_id user →
  plain_note req = true →
  (∀ r s', patch_note s c noteId req env = (r, s') → status r = 200 →
     JS.trim (Validator.toString (title req)) ≠ "" ∧
     (String.length (JS.trim (Validator.toString (title req))) ≤ 255)%nat ∧
     JS.trim (Validator.toString (description req)) ≠ "") ∧
  ((noteValidation PATCH req).2 = [] →
   (isProtected req = JS.undefined ∨ ∃ b, isProtected req = JS.bool b) →
   (password req = JS.undefined ∨ ∃ p, password req = JS.str p ∧ p ≠ "") →
   (isProtected req = JS.bool true → password req = JS.undefined →
    n_isProtected old = true) →
   ∃ r s' new,
     patch_note s c noteId req env = (r, s') ∧ status r = 200 ∧
     notes s' !! noteId = Some new ∧
     n_title new = JS.trim (Validator.toString (title req)) ∧
     n_description new = JS.trim (Validator.toString (description req)) ∧
     (isProtected req = JS.undefined → n_isProtected new = n_isProtected old) ∧
     (∀ b, isProtected req = JS.bool b → n_isProtected new = b) ∧
     (password req = JS.undefined → n_password new = n_password old) ∧
     (∀ p, password req = JS.str p →
        n_password new = Some (if JS.truthy (isProtected req)
                               then bcrypt_hash p 12 (salt env) else p))).
Proof.
  intros Hwf Hauth Hold Hown _. split.
  - intros r s' E Hst.
    apply patch_note_200 in E as (_ & _ & _ & _ & _ & _ & Hval & _); [|done].
    by apply noteValidation_title in Hval.
  - intros Hval Hip Hpw Hprot.
    assert (∃ ip, Prisma.Boolean_set (isProtected req) (n_isProtected old) = Some ip ∧
                  (isProtected req = JS.undefined → ip = n_isProtected old) ∧
                  (∀ b, isProtected req = JS.bool b → ip = b)) as (ip & Eip & Hip1 & Hip2).
    { destruct Hip as [->|[b ->]]; simpl; eexists; split_and!; try done.
      by intros ? [= ->]. }
    eexists _, _, (updated req env old ip).
    split; [apply patch_note_ok with user; try done|].
    + rewrite (wf_note_id s Hwf _ _ Hold). by eauto.
    + destruct Hpw as [->|(p & -> & _)]; [done|by eauto].
    + intros Tip Tpw. destruct Hpw as [Epw|(p & Epw & Hp)].
      * apply Hprot; [|done]. destruct Hip as [E|[[] E]]; rewrite E in Tip; done.
      * rewrite Epw in Tpw. simpl in Tpw. apply negb_false_iff, String.eqb_eq in Tpw.
        done.
    + split; [done|]. split; [apply lookup_insert_eq|]. simpl.
      split_and!; try done.
      * intros Epw. apply new_password_falsy. by rewrite Epw.
      * intros p Ep. destruct Hpw as [Epw|(p' & Epw & Hp)]; [congruence|].
        unfold new_password. rewrite Ep in *. injection Epw as ->.
        apply String.eqb_neq in Hp. by rewrite Hp.
Qed.

(** ** The password rule of an update *)

(** C6.  For an update by the owner: a patch that sets [isProtected] to
    [true] on a note that is not protected, without a non-empty password,
    is answered 400 and writes nothing; a patch without a new password on
    a note that is already protected (and that is valid otherwise, with an
    ASCII title and description) succeeds and keeps the stored password
    hash. *)
Theorem update_password_rule s c noteId req env user old :
  store_wf s →
  authenticate s c = Next user →
  notes s !! noteId = Some old → n_ownerId old = u_id user →
  JS.truthy (password req) = false →
  (n_isProtected old = false → isProtected req = JS.bool true →
   status (patch_note s c noteId req env).1 = 400 ∧
   (patch_note s c noteId req env).2 = s) ∧
  (n_isProtected old = true →
   plain_note req = true →
   (noteValidation PATCH req).2 = [] →
   (isProtected req = JS.undefined ∨ ∃ b, isProtected req = JS.bool b) →
   ∃ r s' new,
     patch_note s c noteId req env = (r, s') ∧ status r = 200 ∧
     notes s' !! noteId = Some new ∧ n_password new = n_password old).
Proof.
  intros Hwf Hauth Hold Hown Tpw. split.
  - intros Hprot Hip. unfold patch_note, run. rewrite Hauth. cbn.
    rewrite (proj2 (checkNoteOwnership_Next s user noteId)) by eauto. cbn.
    destruct (handleValidationErrors (noteValidation PATCH req)) as [?|req'] eqn:Hval;
      cbn.
    + by apply handleValidationErrors_Send in Hval as [-> _].
    + apply handleValidationErrors_Next in Hval as [Hval ->].
      rewrite noteValidation_body. cbn.
      unfold Prisma.note_findUnique. rewrite Hold, Hip, Tpw, Hprot. done.
  - intros Hprot _ Hval Hip.
    assert (∃ ip, Prisma.Boolean_set (isProtected req) (n_isProtected old) = Some ip)
      as [ip Eip].
    { destruct Hip as [->|[b ->]]; simpl; by eauto. }
    eexists _, _, (updated req env old ip).
    split; [apply patch_note_ok with user; try done|].
    + rewrite (wf_note_id s Hwf _ _ Hold). by eauto.
    + by rewrite Tpw.
    + split; [done|]. split; [apply lookup_insert_eq|].
      by apply new_password_falsy.
Qed.

(** C9.  An update by the owner whose patch has a non-empty password while
    [isProtected] is absent or [false] succeeds (for a valid ASCII title
    and description) and stores the supplied password string as it is, not
    hashed. *)
Theorem update_password_unprotected_verbatim s c noteId req env user old p :
  store_wf s →
  authenticate s c = Next user →
  notes s !! noteId = Some old → n_ownerId old = u_id user →
  plain_note req = true →
  (noteValidation PATCH req).2 = [] →
  password req = JS.str p → p ≠ "" →
  (isProtected req = JS.undefined ∨ isProtected req = JS.bool false) →
  ∃ r s' new,
    patch_note s c noteId req env = (r, s') ∧ status r = 200 ∧
    notes s' !! noteId = Some new ∧ n_password new = Some p.
Proof.
  intros Hwf Hauth Hold Hown _ Hval Epw Hp Hip.
  assert (JS.truthy (isProtected req) = false) as Tip
    by (destruct Hip as [->| ->]; done).
  assert (JS.truthy (password req) = true) as Tpw.
  { rewrite Epw. simpl. by apply negb_true_iff, String.eqb_neq. }
  assert (∃ ip, Prisma.Boolean_set (isProtected req) (n_isProtected old) = Some ip)
    as [ip Eip].
  { destruct Hip as [->| ->]; simpl; by eauto. }
  eexists _, _, (updated req env old ip).
  split; [apply patch_note_ok with user; try done|].
  - rewrite (wf_note_id s Hwf _ _ Hold). by eauto.
  - by eauto.
  - by rewrite Tip.
  - split; [done|]. split; [apply lookup_insert_eq|].
    simpl. unfold new_password. rewrite Epw, Tip.
    apply String.eqb_neq in Hp. by rewrite Hp.
Qed.

(** ** Unlock *)

(** C7.  For an authenticated unlock of an existing note: it is answered
    400 when the note is not protected; 401 with an error body and no note
    content when the supplied (non-empty) password does not verify against
    the stored hash; and 200 with the note's title and description and no
    [password] key when it does. *)
Theorem unlock_outcomes s c noteId user note :
  authenticate s c = Next user →
  notes s !! noteId = Some note →
  (n_isProtected note = false →
   ∀ password, ∃ msg,
     post_unlock s c noteId password = (mkResponse 400 (ErrorBody msg), s)) ∧
  (n_isProtected note = true →
   ∀ p h, p ≠ "" → n_password note = Some h →
     post_unlock s c noteId (JS.str p) =
     if bcrypt_compare p h
     then (mkResponse 200
             (NoteBody (mkNoteJson (n_id note) (n_title note)
                          (JS.str (n_description note)) true JS.undefined
                          (n_ownerId note) (n_createdAt note) (n_updatedAt note)
                          None JS.undefined)), s)
     else (mkResponse 401 (ErrorBody "Invalid password"), s)).
Proof.
  intros Hauth Hnote. unfold post_unlock, run. rewrite Hauth. cbn.
  unfold Prisma.note_findUnique. rewrite Hnote. split.
  - intros Hprot password. rewrite Hprot.
    destruct (JS.truthy password); cbn; by eauto.
  - intros Hprot p h Hp Hh. rewrite Hprot, Hh.
    apply String.eqb_neq in Hp. rewrite Hp. cbn.
    destruct (bcrypt_compare p h); cbn; [|done].
    unfold without_password, note_json. simpl. by rewrite Hprot.
Qed.

(** ** Revert to a version that is not one of the note *)

(** A [versionId] that [parseInt] cannot read reaches the client as it
    is, is refused for the [Int] column, and the [catch] block answers. *)
Lemma revert_non_numeric_version s c noteId versionId env user old :
  authenticate s c = Next user →
  notes s !! noteId = Some old → n_ownerId old = u_id user →
  JS.plain_id versionId = true →
  (∀ k, parsedVersionId versionId ≠ JS.num k) →
  post_revert s c noteId versionId env =
  (mkResponse 500 (ErrorBody "Server error"), s).
Proof.
  intros Hauth Hold Hown _ Hno. unfold post_revert, run. rewrite Hauth. cbn.
  rewrite (proj2 (checkNoteOwnership_Next s user noteId)) by eauto. cbn.
  unfold Prisma.noteVersion_findUnique.
  destruct (parsedVersionId versionId) as [| | |k|] eqn:Hk; cbn; try done.
  by destruct (Hno k).
Qed.

(** Where the handler does what it means to: a revert by the owner whose
    [versionId] does not identify a persisted version of the target note
    fails and writes nothing, and when [versionId] is or parses to an
    integer of the [Int] range (no version under that id, or a version of
    another note) the answer is 404 "Version not found". *)
Lemma revert_unknown_version s c noteId versionId env user old :
  authenticate s c = Next user →
  notes s !! noteId = Some old → n_ownerId old = u_id user →
  JS.plain_id versionId = true →
  (∀ k, parsedVersionId versionId = JS.num k → Prisma.is_Int k = true) →
  (∀ k version, parsedVersionId versionId = JS.num k →
                versions s !! k = Some version → v_noteId version ≠ noteId) →
  (post_revert s c noteId versionId env).2 = s ∧
  status (post_revert s c noteId versionId env).1 ≠ 200 ∧
  ((∃ k, parsedVersionId versionId = JS.num k) →
   (post_revert s c noteId versionId env).1 =
   mkResponse 404 (ErrorBody "Version not found")).
Proof.
  intros Hauth Hold Hown _ _ Hnone. unfold post_revert, run. rewrite Hauth. cbn.
  rewrite (proj2 (checkNoteOwnership_Next s user noteId)) by eauto. cbn.
  unfold Prisma.noteVersion_findUnique.
  destruct (parsedVersionId versionId) as [| | |k|] eqn:Hk; cbn;
    try (split; [done|]; split; [done|]; by intros [? ?]).
  destruct (versions s !! k) as [version|] eqn:Hv; cbn; [|done].
  by rewrite bool_decide_eq_true_2 by by eapply Hnone.
Qed.

(** ** Listing *)

(** C10.  For an authenticated caller, [GET /] answers 200 with one entry
    per note of the store, whoever owns it: the entries are, up to order,
    the metadata (id, title, protection flag, timestamps and the owner's
    id, name and email) of all notes, the titles of protected notes
    included, and they are ordered by [updatedAt] descending. *)
Theorem list_notes_of_all_users s c user :
  authenticate s c = Next user →
  ∃ l,
    get_notes s c = (mkResponse 200 (NotesBody l), s) ∧
    l ≡ₚ (note_meta s <$> (map_to_list (notes s)).*2) ∧
    StronglySorted meta_updatedAt_desc l ∧
    ∀ k n, notes s !! k = Some n →
      mkNoteMeta (n_id n) (n_title n) (n_isProtected n) (n_createdAt n)
                 (n_updatedAt n) (owner_json <$> users s !! n_ownerId n) ∈ l.
Proof.
  intros Hauth. unfold get_notes, run. rewrite Hauth. cbn.
  eexists. split; [done|].
  assert (Prisma.note_findMany s ≡ₚ (map_to_list (notes s)).*2) as Hperm
    by apply merge_sort_Permutation.
  split; [by rewrite Hperm|]. split.
  - apply StronglySorted_fmap with Prisma.updatedAt_desc; [done|].
    apply StronglySorted_merge_sort; apply _.
  - intros k n Hn. rewrite Hperm.
    apply (list_elem_of_fmap_2' _ _ n); [|done].
    apply list_elem_of_fmap. exists (k, n). split; [done|].
    by apply elem_of_map_to_list.
Qed.

(** ** The password hash in response bodies *)

(** X24.  Whatever the request, a note body in the response of read,
    unlock, update or revert has no [password] key. *)
Lemma responses_without_password s c noteId req versionId password env j :
  body (get_note s c noteId).1 = NoteBody j ∨
  body (post_unlock s c noteId password).1 = NoteBody j ∨
  body (patch_note s c noteId req env).1 = NoteBody j ∨
  body (post_revert s c noteId versionId env).1 = NoteBody j →
  j_password j = JS.undefined.
Proof.
  unfold get_note, post_unlock, patch_note, post_revert, run.
  unfold authenticate, checkNoteOwnership, handleValidationErrors.
  unfold try_catch, send, mbind, Step_bind.
  intros Hj.
  repeat (destruct Hj as [Hj|Hj]);
    repeat (case_match; simplify_eq/=; try done).
Qed.

(** C1 (the create path).  The body of a successful [POST /] is the note
    row as stored: for a protected note it carries the password hash in its
    [password] field. *)
Theorem create_response_has_password_hash :
  ∃ j, (post_note Demo.s0 (Token 1) Demo.secret (Demo.env 10)).1 =
       mkResponse 201 (NoteBody j) ∧
       j_isProtected j = true ∧
       j_password j = JS.str (bcrypt_hash "secret1A!" 12 "salt").
Proof. eexists. split; [vm_compute; reflexivity|]. split; reflexivity. Qed.

(** ** Every request keeps the store invariant *)

(** A request that is not answered with its status of success writes
    nothing. *)
Lemma failed_write_unchanged s c noteId req versionId env :
  ((post_note s c req env).2 = s ∨ status (post_note s c req env).1 = 201) ∧
  ((patch_note s c noteId req env).2 = s ∨
   status (patch_note s c noteId req env).1 = 200) ∧
  ((post_revert s c noteId versionId env).2 = s ∨
   status (post_revert s c noteId versionId env).1 = 200).
Proof.
  unfold post_note, patch_note, post_revert, run.
  unfold authenticate, checkNoteOwnership, handleValidationErrors.
  unfold try_catch, send, mbind, Step_bind.
  split_and!; repeat (case_match; simplify_eq/=; auto).
Qed.

(** X25.  The four read routes (list, read, unlock, versions) never write:
    whatever the request and its outcome, the store is as before. *)
Lemma reads_unchanged s c noteId password :
  (get_notes s c).2 = s ∧ (get_note s c noteId).2 = s ∧
  (post_unlock s c noteId password).2 = s ∧ (get_versions s c noteId).2 = s.
Proof.
  unfold get_notes, get_note, post_unlock, get_versions, run.
  unfold authenticate, try_catch, send, mbind, Step_bind.
  split_and!; repeat (case_match; simplify_eq/=; auto).
Qed.

Lemma wf_deleted s noteId old s' :
  store_wf s → Prisma.note_delete noteId s = Some (old, s') → store_wf s'.
Proof.
  unfold Prisma.note_delete. intros Hwf E.
  destruct (notes s !! noteId) as [n|] eqn:Hn; simplify_eq/=.
  split; simpl.
  - apply Hwf.
  - intros k n' [_ E]%lookup_delete_Some. by eapply wf_note_id.
  - intros k n' [_ E]%lookup_delete_Some. by eapply wf_note_fresh.
  - intros k n' [_ E]%lookup_delete_Some. by eapply wf_note_owner.
  - intros k v [E _]%map_lookup_filter_Some. by eapply wf_version_fresh.
  - intros k v [E Hne]%map_lookup_filter_Some. simpl in Hne.
    destruct (wf_version_note s Hwf _ _ E) as [n' Hn'].
    exists n'. by apply lookup_delete_Some.
Qed.

(** X23.  Every writing note route keeps the invariant of the store,
    whatever the request and its outcome: ids are the keys and lie below
    the counters, every note has its owner and every version its note. *)
Theorem requests_keep_store_wf s c noteId req versionId env :
  store_wf s →
  store_wf (post_note s c req env).2 ∧
  store_wf (patch_note s c noteId req env).2 ∧
  store_wf (post_revert s c noteId versionId env).2 ∧
  store_wf (delete_note s c noteId).2.
Proof.
  intros Hwf.
  destruct (failed_write_unchanged s c noteId req versionId env)
    as (Hpost & Hpatch & Hrevert).
  split_and!.
  - destruct Hpost as [->|Hst]; [done|].
    destruct (post_note s c req env) as [r s'] eqn:E.
    apply post_note_201 in E
      as (user & ip & pw & Hauth & _ & _ & _ & -> & _); [|done].
    apply authenticate_Next in Hauth as (uid & -> & Huser).
    apply wf_inserted; [done|done|]. simpl.
    rewrite (wf_user_id s Hwf _ _ Huser). by eauto.
  - destruct Hpatch as [->|Hst]; [done|].
    destruct (patch_note s c noteId req env) as [r s'] eqn:E.
    apply patch_note_200 in E
      as (user & old & ip & _ & Hold & _ & _ & _ & _ & _ & -> & _); [|done].
    by apply wf_committed.
  - destruct Hrevert as [->|Hst]; [done|].
    destruct (post_revert s c noteId versionId env) as [r s'] eqn:E.
    apply post_revert_200 in E
      as (user & old & k & version & _ & Hold & _ & _ & _ & _ & _ & -> & _); [|done].
    by apply wf_committed.
  - unfold delete_note, run, try_catch, send, mbind, Step_bind.
    repeat (case_match; simplify_eq/=; try done).
    by eapply wf_deleted.
Qed.

(** * Further properties of the note routes *)

(** ** Who may read what *)

(** X1.  [GET /:id] for an authenticated caller and an existing note
    answers 200 with the note's metadata and never with its [password];
    the description is replaced by [null], with [needsPassword] set, exactly
    when the note is protected and the caller is not its owner. *)
Theorem read_note_visibility s c noteId user note :
  store_wf s →
  authenticate s c = Next user →
  notes s !! noteId = Some note →
  ∃ j,
    get_note s c noteId = (mkResponse 200 (NoteBody j), s) ∧
    j_id j = n_id note ∧ j_title j = n_title note ∧
    j_isProtected j = n_isProtected note ∧ j_ownerId j = n_ownerId note ∧
    j_password j = JS.undefined ∧
    (n_isProtected note = true → n_ownerId note ≠ u_id user →
     j_description j = JS.null ∧ j_needsPassword j = JS.bool true) ∧
    (n_isProtected note = false ∨ n_ownerId note = u_id user →
     j_description j = JS.str (n_description note) ∧
     j_needsPassword j = JS.undefined).
Proof.
  intros Hwf Hauth Hnote. unfold get_note, run. rewrite Hauth. cbn.
  unfold Prisma.note_findUnique, Prisma.user_findUnique. rewrite Hnote.
  destruct (wf_note_owner s Hwf _ _ Hnote) as [owner Howner].
  rewrite Howner. cbn.
  assert (u_id owner = n_ownerId note) as Hid by by eapply wf_user_id.
  destruct (n_isProtected note) eqn:Hprot; cbn.
  - rewrite Hid.
    case_bool_decide as Hne; eexists; (split; [done|]); cbn;
      split_and!; try done;
      try (intros [?|?]; done); try (intros _ ?; by destruct Hne).
  - eexists. split; [done|]. cbn. split_and!; done.
Qed.

(** X2.  [GET /:id/versions] answers 403 without any version when the note
    is protected and the caller is not its owner; for the owner, and for
    every authenticated caller of an unprotected note, it answers 200 with
    the current entry followed by all persisted versions of the note,
    newest first. *)
Theorem versions_protection_gate s c noteId user note :
  authenticate s c = Next user →
  notes s !! noteId = Some note →
  (n_isProtected note = true → n_ownerId note ≠ u_id user →
   get_versions s c noteId =
   (mkResponse 403 (ErrorBody "Access denied - Unlock protected note first"), s)) ∧
  (n_isProtected note = false ∨ n_ownerId note = u_id user →
   ∃ history,
     get_versions s c noteId =
     (mkResponse 200
        (VersionsBody (currentVersion note :: (version_json <$> history))), s) ∧
     history ≡ₚ versions_of s noteId ∧
     StronglySorted Prisma.createdAt_desc history).
Proof.
  intros Hauth Hnote. unfold get_versions, run. rewrite Hauth. cbn.
  unfold Prisma.note_findUnique. rewrite Hnote. split.
  - intros -> Hne. by rewrite bool_decide_eq_true_2.
  - intros Hok. exists (Prisma.noteVersion_findMany s noteId).
    split; [|split; [apply noteVersion_findMany_perm|apply noteVersion_findMany_sorted]].
    destruct Hok as [-> | Hown]; [done|].
    rewrite bool_decide_eq_false_2 by (intros ?; done). by rewrite andb_false_r.
Qed.

(** ** Guards *)

(** X3.  No note route does anything for a request that fails
    authentication: each answers with the 401 of the middleware and leaves
    the store as it is. *)
Theorem unauthenticated_rejected s c r :
  authenticate s c = Send r →
  status r = 401 ∧
  (∀ noteId req versionId password env,
     get_notes s c = (r, s) ∧
     post_note s c req env = (r, s) ∧
     get_note s c noteId = (r, s) ∧
     post_unlock s c noteId password = (r, s) ∧
     patch_note s c noteId req env = (r, s) ∧
     delete_note s c noteId = (r, s) ∧
     get_versions s c noteId = (r, s) ∧
     post_revert s c noteId versionId env = (r, s)).
Proof.
  intros Hauth. split; [by eapply authenticate_Send|].
  intros. unfold get_notes, post_note, get_note, post_unlock, patch_note,
    delete_note, get_versions, post_revert, run.
  rewrite Hauth. done.
Qed.

(** X4.  The owner-only routes (update, delete, revert) check existence
    before ownership: on an id of the [Int] range that no note has they
    answer 404, on a note of another user 403, and in both cases nothing
    is written. *)
Theorem owner_only_routes s c noteId req versionId env user :
  authenticate s c = Next user →
  (Prisma.is_Int noteId = true → notes s !! noteId = None →
   patch_note s c noteId req env =
     (mkResponse 404 (ErrorBody "Note not found"), s) ∧
   delete_note s c noteId = (mkResponse 404 (ErrorBody "Note not found"), s) ∧
   post_revert s c noteId versionId env =
     (mkResponse 404 (ErrorBody "Note not found"), s)) ∧
  (∀ note, notes s !! noteId = Some note → n_ownerId note ≠ u_id user →
   ∃ r, status r = 403 ∧
     patch_note s c noteId req env = (r, s) ∧
     delete_note s c noteId = (r, s) ∧
     post_revert s c noteId versionId env = (r, s)).
Proof.
  intros Hauth. unfold patch_note, delete_note, post_revert, run.
  rewrite Hauth. cbn. unfold checkNoteOwnership, Prisma.note_findUnique. split.
  - intros _ ->. done.
  - intros note -> Hne. rewrite bool_decide_eq_true_2 by done.
    eexists. split; [|done]. done.
Qed.

(** ** Deletion *)

(** X5.  A delete by the owner answers 200, removes the note and every
    version of it, and touches nothing else: the other notes, the versions
    of the other notes and the users are as before.  The note is then gone
    for the read routes. *)
Theorem delete_cascades s c noteId user note :
  authenticate s c = Next user →
  notes s !! noteId = Some note → n_ownerId note = u_id user →
  ∃ s',
    delete_note s c noteId =
      (mkResponse 200 (MessageBody "Note deleted successfully"), s') ∧
    notes s' !! noteId = None ∧
    versions_of s' noteId = [] ∧
    (∀ k v, versions s' !! k = Some v ↔
            versions s !! k = Some v ∧ v_noteId v ≠ noteId) ∧
    (∀ k, k ≠ noteId → notes s' !! k = notes s !! k) ∧
    users s' = users s ∧
    get_note s' c noteId = (mkResponse 404 (ErrorBody "Note not found"), s') ∧
    get_versions s' c noteId = (mkResponse 404 (ErrorBody "Note not found"), s').
Proof.
  intros Hauth Hnote Hown. unfold delete_note, run. rewrite Hauth. cbn.
  rewrite (proj2 (checkNoteOwnership_Next s user noteId)) by eauto. cbn.
  unfold Prisma.note_findUnique, Prisma.note_delete. rewrite Hnote. cbn.
  eexists. split; [done|]. cbn.
  assert (∀ k v, filter (λ kv : Z * NoteVersion, v_noteId kv.2 ≠ noteId)
                        (versions s) !! k = Some v ↔
                 versions s !! k = Some v ∧ v_noteId v ≠ noteId) as Hfilter.
  { intros k v. by rewrite map_lookup_filter_Some. }
  split; [apply lookup_delete_eq|]. split.
  { unfold versions_of. cbn. apply elem_of_nil_inv.
    intros v [Hv Hin]%list_elem_of_filter.
    apply list_elem_of_fmap in Hin as [[k v'] [-> Hin%elem_of_map_to_list]].
    apply Hfilter in Hin as [_ Hne]. done. }
  split; [done|]. split; [by intros k ?; apply lookup_delete_ne|].
  split; [done|].
  unfold get_note, get_versions, run.
  rewrite (authenticate_users s) by done. rewrite Hauth. cbn.
  unfold Prisma.note_findUnique. cbn. by rewrite lookup_delete_eq.
Qed.

(** ** What a write leaves alone *)

(** X6.  A create, an update and a revert only add to the version table
    and only write the note they are about: the users are untouched, every
    version that was stored is still stored unchanged, a create leaves all
    existing notes as they are, and an update or revert of one note leaves
    all other notes as they are. *)
Theorem writes_leave_the_rest s c noteId req versionId env :
  store_wf s →
  (∀ s', s' = (post_note s c req env).2 ∨
         s' = (patch_note s c noteId req env).2 ∨
         s' = (post_revert s c noteId versionId env).2 →
     users s' = users s ∧
     ∀ k v, versions s !! k = Some v → versions s' !! k = Some v) ∧
  (∀ k n, notes s !! k = Some n →
     notes (post_note s c req env).2 !! k = Some n) ∧
  (∀ k, k ≠ noteId →
     notes (patch_note s c noteId req env).2 !! k = notes s !! k ∧
     notes (post_revert s c noteId versionId env).2 !! k = notes s !! k).
Proof.
  intros Hwf.
  destruct (failed_write_unchanged s c noteId req versionId env)
    as (Hpost & Hpatch & Hrevert).
  assert (∀ k v x, versions s !! k = Some v →
            <[nextVersionId s := x]> (versions s) !! k = Some v) as Hkeep.
  { intros k v x Hk. rewrite lookup_insert_ne; [done|].
    intros <-. by rewrite fresh_version in Hk. }
  assert (∃ new t, (post_note s c req env).2 = s ∨
                   (post_note s c req env).2 = inserted s new t) as Hpost'.
  { destruct Hpost as [->|Hst]; [by exists (mkNote 0 "" "" false None 0 0 0), 0; left|].
    destruct (post_note s c req env) as [r s'] eqn:E.
    apply post_note_201 in E as (? & ? & ? & _ & _ & _ & _ & -> & _); [|done].
    eexists _, _. by right. }
  assert (∃ new t old, (patch_note s c noteId req env).2 = s ∨
            (patch_note s c noteId req env).2 = committed s noteId new t old)
    as Hpatch'.
  { destruct Hpatch as [->|Hst];
      [by exists (mkNote 0 "" "" false None 0 0 0), 0,
                 (mkNote 0 "" "" false None 0 0 0); left|].
    destruct (patch_note s c noteId req env) as [r s'] eqn:E.
    apply patch_note_200 in E
      as (? & ? & ? & _ & _ & _ & _ & _ & _ & _ & -> & _); [|done].
    eexists _, _, _. by right. }
  assert (∃ new t old, (post_revert s c noteId versionId env).2 = s ∨
            (post_revert s c noteId versionId env).2 = committed s noteId new t old)
    as Hrevert'.
  { destruct Hrevert as [->|Hst];
      [by exists (mkNote 0 "" "" false None 0 0 0), 0,
                 (mkNote 0 "" "" false None 0 0 0); left|].
    destruct (post_revert s c noteId versionId env) as [r s'] eqn:E.
    apply post_revert_200 in E
      as (? & ? & ? & ? & _ & _ & _ & _ & _ & _ & _ & -> & _); [|done].
    eexists _, _, _. by right. }
  destruct Hpost' as (n1 & t1 & Hs1), Hpatch' as (n2 & t2 & o2 & Hs2),
           Hrevert' as (n3 & t3 & o3 & Hs3).
  split_and!.
  - intros s' [->|[->| ->]].
    + destruct Hs1 as [->| ->]; [done|]. split; [done|]. intros k v. apply Hkeep.
    + destruct Hs2 as [->| ->]; [done|]. split; [done|]. intros k v. apply Hkeep.
    + destruct Hs3 as [->| ->]; [done|]. split; [done|]. intros k v. apply Hkeep.
  - intros k n Hk. destruct Hs1 as [->| ->]; [done|]. unfold inserted. cbn.
    rewrite lookup_insert_ne; [done|]. intros <-. by rewrite fresh_note in Hk.
  - intros k Hk. split.
    + destruct Hs2 as [->| ->]; [done|]. unfold committed. cbn.
      by rewrite lookup_insert_ne.
    + destruct Hs3 as [->| ->]; [done|]. unfold committed. cbn.
      by rewrite lookup_insert_ne.
Qed.

(** ** What an update and a revert record *)

(** X7.  A successful update keeps the note's id, owner and creation time,
    stamps [updatedAt] with the time of the request, and adds exactly one
    version to the note's history, under a fresh id: the title and the
    description the note had before the update. *)
Theorem update_records_previous s c noteId req env r s' old :
  store_wf s →
  patch_note s c noteId req env = (r, s') → status r = 200 →
  notes s !! noteId = Some old →
  ∃ new,
    notes s' !! noteId = Some new ∧ body r = NoteBody (without_password (note_json new None)) ∧
    n_id new = noteId ∧ n_ownerId new = n_ownerId old ∧
    n_createdAt new = n_createdAt old ∧ n_updatedAt new = now env ∧
    versions s !! nextVersionId s = None ∧
    versions s' !! nextVersionId s =
      Some (mkNoteVersion (nextVersionId s) (n_title old) (n_description old)
                          noteId (now env)) ∧
    versions_of s' noteId ≡ₚ
      mkNoteVersion (nextVersionId s) (n_title old) (n_description old)
                    noteId (now env) :: versions_of s noteId.
Proof.
  intros Hwf E Hst Hold.
  apply patch_note_200 in E
    as (user & old' & ip & _ & Hold' & _ & _ & _ & _ & _ & -> & ->); [|done].
  rewrite Hold in Hold'. injection Hold' as <-.
  assert (n_id old = noteId) as Hid by by eapply wf_note_id.
  eexists. split; [apply lookup_insert_eq|]. split; [done|]. cbn.
  split_and!; try done.
  - by apply fresh_version.
  - unfold snapshot. rewrite Hid. apply lookup_insert_eq.
  - rewrite versions_of_committed by done. unfold snapshot. by rewrite Hid.
Qed.

(** X8.  A successful revert (with a [versionId] that is an ASCII string
    or an integer, of a value in the safe range) overwrites the title and
    the description with those of the chosen version of the same note and
    nothing else of the row but [updatedAt] (the protection flag, the
    password, the owner and the creation time stay), and adds exactly one
    version to the note's history: the title and the description
    replaced. *)
Theorem revert_effect s c noteId versionId env r s' old :
  store_wf s →
  JS.plain_id versionId = true →
  post_revert s c noteId versionId env = (r, s') → status r = 200 →
  notes s !! noteId = Some old →
  ∃ k version new,
    parsedVersionId versionId = JS.num k ∧
    versions s !! k = Some version ∧ v_noteId version = noteId ∧
    notes s' !! noteId = Some new ∧
    new = mkNote noteId (v_title version) (v_description version)
                 (n_isProtected old) (n_password old) (n_ownerId old)
                 (n_createdAt old) (now env) ∧
    body r = NoteBody (without_password (note_json new None)) ∧
    versions s' !! k = Some version ∧
    versions_of s' noteId ≡ₚ
      mkNoteVersion (nextVersionId s) (n_title old) (n_description old)
                    noteId (now env) :: versions_of s noteId.
Proof.
  intros Hwf _ E Hst Hold.
  apply post_revert_200 in E
    as (user & old' & k & version & _ & Hold' & _ & _ & Hk & Hv & Hn & -> & ->);
    [|done].
  rewrite Hold in Hold'. injection Hold' as <-.
  assert (n_id old = noteId) as Hid by by eapply wf_note_id.
  exists k, version, (reverted old version (now env)). split_and!; try done.
  - apply lookup_insert_eq.
  - unfold reverted. by rewrite Hid.
  - cbn. rewrite lookup_insert_ne; [done|]. intros <-.
    by rewrite fresh_version in Hv.
  - rewrite versions_of_committed by done. unfold snapshot. by rewrite Hid.
Qed.

(** ** What a create stores *)

(** X9.  A successful create (of a body with an ASCII title and
    description) stores a new note under the next free id, owned by the
    caller, with the trimmed title and description of the body, both
    timestamps at the time of the request, protected exactly when the body
    has [isProtected: true]; the note's history is then the one initial
    version with the same title and description; and the response body is
    the stored row. *)
Theorem create_effect s c req env r s' :
  store_wf s →
  plain_note req = true →
  post_note s c req env = (r, s') → status r = 201 →
  ∃ user new,
    authenticate s c = Next user ∧
    notes s !! nextNoteId s = None ∧ notes s' !! nextNoteId s = Some new ∧
    body r = NoteBody (note_json new None) ∧
    n_id new = nextNoteId s ∧ n_ownerId new = u_id user ∧
    n_title new = JS.trim (Validator.toString (title req)) ∧
    n_description new = JS.trim (Validator.toString (description req)) ∧
    n_createdAt new = now env ∧ n_updatedAt new = now env ∧
    (n_isProtected new = true ↔ isProtected req = JS.bool true) ∧
    versions_of s' (nextNoteId s) =
      [mkNoteVersion (nextVersionId s) (n_title new) (n_description new)
                     (nextNoteId s) (now env)].
Proof.
  intros Hwf _ E Hst.
  apply post_note_201 in E
    as (user & ip & pw & Hauth & _ & Hip & _ & -> & ->); [|done].
  eexists user, _. split; [done|]. split; [by apply fresh_note|].
  split; [apply lookup_insert_eq|]. cbn. split_and!; try done.
  - split.
    + intros ->. by apply Boolean_arg_js_or.
    + intros Eip. rewrite Eip in Hip. cbn in Hip. by injection Hip.
  - apply Permutation_singleton_r. by rewrite versions_of_inserted.
Qed.


End Proofs.

(** * Properties of the notifications *)

Section NotificationProofs.

Context `{Bcrypt}.

Lemma post_note_io_eq s c req env t :
  post_note_io s c req env t =
  (post_note s c req env,
   if status (post_note s c req env).1 =? 201
   then match authenticate s c, body (post_note s c req env).1 with
        | Next user, NoteBody j =>
            [mkNotification "create" (j_id j) (u_id user) (j_title j) t
                            JS.undefined]
        | _, _ => []
        end
   else []).
Proof.
  unfold post_note_io, post_note, run_io, run.
  unfold handleValidationErrors, try_catch, send, mbind, Step_bind.
  repeat (case_match; simplify_eq/=; try done).
Qed.

Lemma patch_note_io_eq s c noteId req env t :
  patch_note_io s c noteId req env t =
  (patch_note s c noteId req env,
   if status (patch_note s c noteId req env).1 =? 200
   then match authenticate s c, body (patch_note s c noteId req env).1 with
        | Next user, NoteBody j =>
            [mkNotification "update" (j_id j) (u_id user) (j_title j) t
                            JS.undefined]
        | _, _ => []
        end
   else []).
Proof.
  unfold patch_note_io, patch_note, run_io, run.
  unfold checkNoteOwnership, handleValidationErrors, try_catch, send, mbind,
    Step_bind.
  repeat (case_match; simplify_eq/=; try done).
Qed.

Lemma delete_note_io_eq s c noteId t :
  delete_note_io s c noteId t =
  (delete_note s c noteId,
   if status (delete_note s c noteId).1 =? 200
   then match authenticate s c, notes s !! noteId with
        | Next user, Some old =>
            [mkNotification "delete" (n_id old) (u_id user) (n_title old) t
                            JS.undefined]
        | _, _ => []
        end
   else []).
Proof.
  unfold delete_note_io, delete_note, run_io, run.
  unfold checkNoteOwnership, Prisma.note_findUnique, Prisma.note_delete,
    try_catch, send, mbind, Step_bind.
  repeat (case_match; simplify_eq/=; try done).
Qed.

Lemma post_revert_io_eq s c noteId versionId env t :
  post_revert_io s c noteId versionId env t =
  (post_revert s c noteId versionId env,
   if status (post_revert s c noteId versionId env).1 =? 200
   then match authenticate s c, body (post_revert s c noteId versionId env).1 with
        | Next user, NoteBody j =>
            [mkNotification "revert" (j_id j) (u_id user) (j_title j) t
                            (parsedVersionId versionId)]
        | _, _ => []
        end
   else []).
Proof.
  unfold post_revert_io, post_revert, run_io, run.
  unfold checkNoteOwnership, try_catch, send, mbind, Step_bind.
  repeat (case_match; simplify_eq/=; try done).
Qed.

Lemma delete_note_200 s c noteId r s' :
  delete_note s c noteId = (r, s') → status r = 200 →
  ∃ user old,
    authenticate s c = Next user ∧
    notes s !! noteId = Some old ∧ n_ownerId old = u_id user ∧
    Prisma.note_delete noteId s = Some (old, s').
Proof.
  unfold delete_note, run. intros E Hst.
  destruct (authenticate s c) as [?|user] eqn:Hauth; cbn in E;
    [apply authenticate_Send in Hauth; injection E as <- <-; congruence|].
  destruct (checkNoteOwnership s user noteId) as [?|[]] eqn:Hown; cbn in E.
  { apply checkNoteOwnership_Send in Hown as [[-> _]|[Hown _]];
      injection E as <- <-; [discriminate Hst|congruence]. }
  apply checkNoteOwnership_Next in Hown as (old & Hold & Howner).
  unfold Prisma.note_findUnique, Prisma.note_delete in *.
  rewrite Hold in E. cbn in E. injection E as <- <-.
  exists user, old. rewrite Hold. done.
Qed.

(** X26.  A writing note route broadcasts exactly one notification when it
    succeeds and none when it answers anything else; the broadcast changes
    neither the response nor what is written. *)
Theorem notification_only_on_success s c noteId req versionId env t :
  ((post_note_io s c req env t).1 = post_note s c req env ∧
   length (post_note_io s c req env t).2 =
   if status (post_note s c req env).1 =? 201 then 1%nat else 0%nat) ∧
  ((patch_note_io s c noteId req env t).1 = patch_note s c noteId req env ∧
   length (patch_note_io s c noteId req env t).2 =
   if status (patch_note s c noteId req env).1 =? 200 then 1%nat else 0%nat) ∧
  ((delete_note_io s c noteId t).1 = delete_note s c noteId ∧
   length (delete_note_io s c noteId t).2 =
   if status (delete_note s c noteId).1 =? 200 then 1%nat else 0%nat) ∧
  ((post_revert_io s c noteId versionId env t).1 =
     post_revert s c noteId versionId env ∧
   length (post_revert_io s c noteId versionId env t).2 =
   if status (post_revert s c noteId versionId env).1 =? 200
   then 1%nat else 0%nat).
Proof.
  rewrite post_note_io_eq, patch_note_io_eq, delete_note_io_eq,
    post_revert_io_eq. cbn [fst snd].
  split_and!; try done.
  - destruct (post_note s c req env) as [r s'] eqn:E. cbn [fst].
    destruct (status r =? 201) eqn:Hst; [|done]. apply Z.eqb_eq in Hst.
    apply post_note_201 in E as (user & ? & ? & -> & _ & _ & _ & _ & ->); done.
  - destruct (patch_note s c noteId req env) as [r s'] eqn:E. cbn [fst].
    destruct (status r =? 200) eqn:Hst; [|done]. apply Z.eqb_eq in Hst.
    apply patch_note_200 in E
      as (user & ? & ? & -> & _ & _ & _ & _ & _ & _ & _ & ->); done.
  - destruct (delete_note s c noteId) as [r s'] eqn:E. cbn [fst].
    destruct (status r =? 200) eqn:Hst; [|done]. apply Z.eqb_eq in Hst.
    apply delete_note_200 in E as (user & old & -> & -> & _); done.
  - destruct (post_revert s c noteId versionId env) as [r s'] eqn:E. cbn [fst].
    destruct (status r =? 200) eqn:Hst; [|done]. apply Z.eqb_eq in Hst.
    apply post_revert_200 in E
      as (user & ? & ? & ? & -> & _ & _ & _ & _ & _ & _ & _ & ->); done.
Qed.

(** X27.  What a notification says: the action, the id of the note, the
    id of the caller, who is the owner of the note, and the title of the
    note — after a create, an update or a revert the title now stored
    (for a revert that of the chosen version, with its parsed id), after a
    delete the title of the note that is gone — whether or not the note is
    protected. *)
Theorem notification_content s c noteId req versionId env t e :
  store_wf s →
  (e ∈ (post_note_io s c req env t).2 →
   ∃ new,
     notes s !! ev_noteId e = None ∧
     notes (post_note s c req env).2 !! ev_noteId e = Some new ∧
     e = mkNotification "create" (nextNoteId s) (n_ownerId new) (n_title new) t
                        JS.undefined) ∧
  (e ∈ (patch_note_io s c noteId req env t).2 →
   ∃ new,
     notes (patch_note s c noteId req env).2 !! noteId = Some new ∧
     e = mkNotification "update" noteId (n_ownerId new) (n_title new) t
                        JS.undefined) ∧
  (e ∈ (delete_note_io s c noteId t).2 →
   ∃ old,
     notes s !! noteId = Some old ∧
     notes (delete_note s c noteId).2 !! noteId = None ∧
     e = mkNotification "delete" noteId (n_ownerId old) (n_title old) t
                        JS.undefined) ∧
  (e ∈ (post_revert_io s c noteId versionId env t).2 →
   ∃ new k version,
     notes (post_revert s c noteId versionId env).2 !! noteId = Some new ∧
     versions s !! k = Some version ∧ n_title new = v_title version ∧
     e = mkNotification "revert" noteId (n_ownerId new) (n_title new) t
                        (JS.num k)).
Proof.
  intros Hwf.
  rewrite post_note_io_eq, patch_note_io_eq, delete_note_io_eq,
    post_revert_io_eq. cbn [fst snd].
  split_and!.
  - destruct (post_note s c req env) as [r s'] eqn:E. cbn [fst snd].
    destruct (status r =? 201) eqn:Hst; [|by intros ?%elem_of_nil].
    apply Z.eqb_eq in Hst.
    apply post_note_201 in E as (user & ? & ? & -> & _ & _ & _ & -> & ->);
      [|done].
    cbn. intros ->%list_elem_of_singleton. cbn.
    eexists. split; [by apply fresh_note|].
    split; [apply lookup_insert_eq|done].
  - destruct (patch_note s c noteId req env) as [r s'] eqn:E. cbn [fst snd].
    destruct (status r =? 200) eqn:Hst; [|by intros ?%elem_of_nil].
    apply Z.eqb_eq in Hst.
    apply patch_note_200 in E
      as (user & old & ? & -> & Hold & Hown & _ & _ & _ & _ & -> & ->); [|done].
    cbn. intros ->%list_elem_of_singleton.
    eexists. split; [apply lookup_insert_eq|]. cbn.
    by rewrite (wf_note_id s Hwf _ _ Hold), Hown.
  - destruct (delete_note s c noteId) as [r s'] eqn:E. cbn [fst snd].
    destruct (status r =? 200) eqn:Hst; [|by intros ?%elem_of_nil].
    apply Z.eqb_eq in Hst.
    apply delete_note_200 in E as (user & old & -> & Hold & Hown & Hdel);
      [|done].
    rewrite Hold. intros ->%list_elem_of_singleton.
    exists old. split; [done|]. split.
    + unfold Prisma.note_delete in Hdel. rewrite Hold in Hdel.
      injection Hdel as <-. cbn. apply lookup_delete_eq.
    + by rewrite (wf_note_id s Hwf _ _ Hold), Hown.
  - destruct (post_revert s c noteId versionId env) as [r s'] eqn:E.
    cbn [fst snd].
    destruct (status r =? 200) eqn:Hst; [|by intros ?%elem_of_nil].
    apply Z.eqb_eq in Hst.
    apply post_revert_200 in E
      as (user & old & k & version & -> & Hold & Hown & _ & -> & Hv & _ & -> & ->);
      [|done].
    cbn. intros ->%list_elem_of_singleton.
    eexists _, k, version. split; [apply lookup_insert_eq|].
    split; [done|]. split; [done|]. cbn.
    by rewrite (wf_note_id s Hwf _ _ Hold), Hown.
Qed.

End NotificationProofs.

(** * Properties of the account routes *)

Section AccountProofs.

Context `{Bcrypt} `{Jwt} `{Mail}.

Local Arguments authenticate : simpl never.

(** ** Lookup by address *)

Lemma user_findUnique_email_Some s e u :
  user_findUnique_email s e = Some u →
  ∃ k, users s !! k = Some u ∧ same_email (u_email u) e = true.
Proof.
  unfold user_findUnique_email. intros E.
  destruct (find _ _) as [[k u']|] eqn:Hf; simplify_eq/=.
  apply find_some in Hf as [Hin He]. exists k. split; [|done].
  by apply elem_of_map_to_list, list_elem_of_In.
Qed.

Lemma user_findUnique_email_None s e k u :
  user_findUnique_email s e = None → users s !! k = Some u →
  same_email (u_email u) e = false.
Proof.
  unfold user_findUnique_email. intros E Hk.
  destruct (find _ _) as [[k' u']|] eqn:Hf; simplify_eq/=.
  apply elem_of_map_to_list, list_elem_of_In in Hk.
  by apply (find_none _ _ Hf (k, u)).
Qed.

Lemma user_findUnique_email_unique s e k u :
  emails_unique s → users s !! k = Some u → same_email (u_email u) e = true →
  user_findUnique_email s e = Some u.
Proof.
  intros Huniq Hk He.
  destruct (user_findUnique_email s e) as [u'|] eqn:E.
  - apply user_findUnique_email_Some in E as (k' & Hk' & He').
    assert (k' = k) as ->.
    { eapply Huniq; [done..|]. eapply same_email_trans; [done|].
      by apply same_email_sym. }
    congruence.
  - by rewrite (user_findUnique_email_None s e k u E Hk) in He.
Qed.

Lemma handle_validation_Next {A} (v : A * list string) a :
  handle_validation v = Next a ↔ v.2 = [] ∧ a = v.1.
Proof.
  unfold handle_validation, send. destruct v as [b [|e es]]; simpl.
  - split; [by intros [= ->]|by intros [_ ->]].
  - split; [discriminate|by intros [? _]].
Qed.

Lemma handle_validation_Send {A} (v : A * list string) r :
  handle_validation v = Send r → r = mkResponse 400 (ErrorsBody v.2) ∧ v.2 ≠ [].
Proof.
  unfold handle_validation, send. destruct v as [b [|e es]]; simpl; [done|].
  by intros [= <-].
Qed.

(** ** The database invariant under the two writes of the user table *)

Lemma db_wf_user_create name email password t db u db' :
  db_wf db → user_create name email password t db = Some (u, db') →
  u = mkUser (nextUserId db) name email password t t ∧
  users (store db) !! nextUserId db = None ∧
  db' = mkDb (mkStore (<[nextUserId db := u]> (users (store db)))
                      (notes (store db)) (versions (store db))
                      (nextNoteId (store db)) (nextVersionId (store db)))
             (nextUserId db + 1) ∧
  db_wf db'.
Proof.
  intros [Hwf Hfresh Huniq] E. unfold user_create in E.
  destruct (user_findUnique_email (store db) email) eqn:Hf; [done|].
  injection E as <- <-.
  assert (users (store db) !! nextUserId db = None) as Hnew.
  { destruct (users (store db) !! nextUserId db) eqn:E; [|done].
    apply Hfresh in E. lia. }
  split; [done|]. split; [done|]. split; [done|].
  split; cbn.
  - split; cbn.
    + intros k u [[<- <-]|[_ E]]%lookup_insert_Some; [done|]. by eapply wf_user_id.
    + apply Hwf.
    + apply Hwf.
    + intros k n Hk. apply lookup_insert_is_Some'. right. by eapply wf_note_owner.
    + apply Hwf.
    + apply Hwf.
  - intros k u [[<- <-]|[_ E]]%lookup_insert_Some; [lia|].
    apply Hfresh in E. lia.
  - unfold emails_unique. cbn.
    intros k1 k2 u1 u2 [[<- <-]|[? E1]]%lookup_insert_Some
      [[<- <-]|[? E2]]%lookup_insert_Some He; cbn in *; try done.
    + apply same_email_sym in He.
      by rewrite (user_findUnique_email_None _ _ _ _ Hf E2) in He.
    + by rewrite (user_findUnique_email_None _ _ _ _ Hf E1) in He.
    + by eapply Huniq.
Qed.

Lemma db_wf_user_update id name email password t db u db' :
  db_wf db → user_update id name email password t db = Some (u, db') →
  ∃ old,
    users (store db) !! id = Some old ∧
    u = mkUser id (default (u_name old) name) (default (u_email old) email)
               (default (u_password old) password) (u_createdAt old) t ∧
    db' = mkDb (mkStore (<[id := u]> (users (store db)))
                        (notes (store db)) (versions (store db))
                        (nextNoteId (store db)) (nextVersionId (store db)))
               (nextUserId db) ∧
    db_wf db'.
Proof.
  intros [Hwf Hfresh Huniq] E. unfold user_update in E.
  destruct (users (store db) !! id) as [old|] eqn:Hold; [|done]. cbn in E.
  destruct (existsb _ _) eqn:Hex; [done|]. injection E as <- <-.
  assert (u_id old = id) as Hid by by eapply wf_user_id.
  rewrite Hid. exists old. split; [done|]. split; [done|]. split; [done|].
  assert (∀ k u, users (store db) !! k = Some u → k ≠ id →
            same_email (u_email u)
              (default (u_email old) email) = false) as Hother.
  { intros k u Hk Hne.
    apply elem_of_map_to_list, list_elem_of_In in Hk.
    rewrite <-not_true_iff_false in Hex. rewrite existsb_exists in Hex.
    destruct (same_email (u_email u) (default (u_email old) email)) eqn:He; [|done].
    destruct Hex. exists (k, u). split; [done|]. cbn. rewrite He, andb_true_r.
    apply negb_true_iff, Z.eqb_neq. done. }
  split; cbn.
  - split; cbn.
    + intros k u [[<- <-]|[_ E]]%lookup_insert_Some; [done|]. by eapply wf_user_id.
    + apply Hwf.
    + apply Hwf.
    + intros k n Hk. apply lookup_insert_is_Some'. right. by eapply wf_note_owner.
    + apply Hwf.
    + apply Hwf.
  - intros k u [[<- <-]|[_ E]]%lookup_insert_Some; by eapply Hfresh.
  - unfold emails_unique. cbn.
    intros k1 k2 u1 u2 [[<- <-]|[? E1]]%lookup_insert_Some
      [[<- <-]|[? E2]]%lookup_insert_Some He; cbn in *; try done.
    + apply same_email_sym in He. by rewrite (Hother _ _ E2) in He.
    + by rewrite (Hother _ _ E1) in He.
    + by eapply Huniq.
Qed.

(** ** Validation *)

Lemma password_rules_nil required p :
  password_rules required p = [] →
  (8 ≤ String.length p)%nat ∧ Rules.matches Rules.upper p = true ∧
  Rules.matches Rules.digit p = true ∧ Rules.matches Rules.special p = true.
Proof.
  unfold password_rules. intros E.
  apply app_eq_nil in E as [_ E]. apply app_eq_nil in E as [E1 E].
  apply app_eq_nil in E as [E2 E]. apply app_eq_nil in E as [E3 E4].
  destruct (Rules.isLength_min 8 p) eqn:Hlen; [|done].
  destruct (Rules.matches Rules.upper p); [|done].
  destruct (Rules.matches Rules.digit p); [|done].
  destruct (Rules.matches Rules.special p); [|done].
  unfold Rules.isLength_min in Hlen. apply Z.leb_le in Hlen. split; [lia|done].
Qed.

Lemma email_rules_nil e : email_rules e = [] → e ≠ "" ∧ isEmail e = true.
Proof.
  unfold email_rules, Validator.notEmpty. intros [E1 E2]%app_eq_nil.
  destruct (isEmail e); [|done]. split; [|done].
  destruct (String.eqb_spec e ""); [done|done].
Qed.

Lemma registerValidation_nil req :
  (registerValidation req).2 = [] →
  email_rules (JS.trim (Validator.toString (reg_email req))) = [] ∧
  password_rules "Password is required"
    (JS.trim (Validator.toString (reg_password req))) = [] ∧
  (2 ≤ String.length (JS.trim (Validator.toString (reg_name req))))%nat.
Proof.
  unfold registerValidation. cbn [snd]. intros E.
  apply app_eq_nil in E as [_ E]. apply app_eq_nil in E as [E1 E].
  apply app_eq_nil in E as [E2 E3]. split; [done|]. split; [done|].
  destruct (Rules.isLength_min 2 _) eqn:Hlen; [|done].
  unfold Rules.isLength_min in Hlen. apply Z.leb_le in Hlen. lia.
Qed.

(** ** Registration *)

Lemma post_register_201 db req env production r db' :
  db_wf db →
  post_register db req env production = (r, db') → reply_status r = 201 →
  let name := JS.trim (Validator.toString (reg_name req)) in
  let email := JS.trim (Validator.toString (reg_email req)) in
  let password := JS.trim (Validator.toString (reg_password req)) in
  let u := mkUser (nextUserId db) name email (bcrypt_hash password 12 (salt env))
                  (now env) (now env) in
  (registerValidation req).2 = [] ∧
  users (store db) !! nextUserId db = None ∧
  db' = mkDb (mkStore (<[nextUserId db := u]> (users (store db)))
                      (notes (store db)) (versions (store db))
                      (nextNoteId (store db)) (nextVersionId (store db)))
             (nextUserId db + 1) ∧
  r = mkReply 201 (UserBody (mkOwnerJson (nextUserId db) name email))
        (Some (setTokenCookie (jwt_sign (nextUserId db) (now env)) production)) ∧
  db_wf db'.
Proof.
  intros Hwf E Hst. unfold post_register, run_db in E.
  destruct (handle_validation (registerValidation req)) as [?|[[name email] password]]
    eqn:Hval; cbn in E.
  { apply handle_validation_Send in Hval as [-> _]. by injection E as <- <-. }
  apply handle_validation_Next in Hval as [Hval [= -> -> ->]].
  destruct (user_findUnique_email _ _) eqn:Hf; cbn in E;
    [by injection E as <- <-|].
  destruct (user_create _ _ _ _ _) as [[u db1]|] eqn:Hc; cbn in E;
    [|by injection E as <- <-].
  injection E as <- <-.
  apply db_wf_user_create in Hc as (-> & Hnew & -> & Hwf'); [|done].
  cbn. split_and!; done.
Qed.

(** X11.  A successful registration (of a body of ASCII strings) stores
    one new user under the next free id: the trimmed name and address of
    the body and the hash of the trimmed password, never the password
    itself in the response, whose body has the id, the name and the
    address only; the password it
    accepted has at least 8 characters with an upper-case letter, a digit
    and one of [!@#$%^&*]; the response sets the [jwt] cookie to a token
    for the new user; all other users and all notes are as before, and the
    database invariant (unique addresses included) still holds. *)
Theorem register_effect db req env production r db' :
  db_wf db →
  plain_register req = true →
  post_register db req env production = (r, db') → reply_status r = 201 →
  let name := JS.trim (Validator.toString (reg_name req)) in
  let email := JS.trim (Validator.toString (reg_email req)) in
  let password := JS.trim (Validator.toString (reg_password req)) in
  let u := mkUser (nextUserId db) name email (bcrypt_hash password 12 (salt env))
                  (now env) (now env) in
  users (store db) !! nextUserId db = None ∧
  users (store db') = <[nextUserId db := u]> (users (store db)) ∧
  notes (store db') = notes (store db) ∧
  versions (store db') = versions (store db) ∧
  r = mkReply 201 (UserBody (mkOwnerJson (nextUserId db) name email))
        (Some (setTokenCookie (jwt_sign (nextUserId db) (now env)) production)) ∧
  (2 ≤ String.length name)%nat ∧ isEmail email = true ∧
  (8 ≤ String.length password)%nat ∧
  Rules.matches Rules.upper password = true ∧
  Rules.matches Rules.digit password = true ∧
  Rules.matches Rules.special password = true ∧
  db_wf db'.
Proof.
  intros Hwf _ E Hst.
  apply post_register_201 in E as (Hval & Hnew & -> & -> & Hwf'); [|done..].
  apply registerValidation_nil in Hval as (He & Hp & Hn).
  apply email_rules_nil in He as [_ He].
  apply password_rules_nil in Hp as (? & ? & ? & ?).
  cbn. split_and!; done.
Qed.

(** X12.  A registration (of a body of ASCII strings that passes the
    validation) with an address that a user already has is answered 400
    "Email already registered" and writes nothing; so the same valid
    registration sent a second time is refused. *)
Theorem register_taken db req env production :
  plain_register req = true →
  (registerValidation req).2 = [] →
  (∀ u, user_findUnique_email (store db)
          (JS.trim (Validator.toString (reg_email req))) = Some u →
     post_register db req env production =
     (mkReply 400 (Plain (ErrorBody "Email already registered")) None, db)) ∧
  (∀ r db' env' production',
     db_wf db →
     post_register db req env production = (r, db') → reply_status r = 201 →
     post_register db' req env' production' =
     (mkReply 400 (Plain (ErrorBody "Email already registered")) None, db')).
Proof.
  intros _ Hval.
  assert (∀ db0 e p u,
    user_findUnique_email (store db0)
      (JS.trim (Validator.toString (reg_email req))) = Some u →
    post_register db0 req e p =
    (mkReply 400 (Plain (ErrorBody "Email already registered")) None, db0)) as Htaken.
  { intros db0 e p u Hf. unfold post_register, run_db.
    rewrite (proj2 (handle_validation_Next (registerValidation req) _)
               (conj Hval eq_refl)).
    cbn. by rewrite Hf. }
  split; [by intros u; apply Htaken|].
  intros r db' env' production' Hwf E Hst.
  apply post_register_201 in E as (_ & _ & -> & _ & Hwf'); [|done..].
  eapply Htaken, (user_findUnique_email_unique _ _ (nextUserId db));
    [apply Hwf'|apply lookup_insert_eq|apply same_email_refl].
Qed.

(** ** Login *)

Lemma loginValidation_nil req :
  (loginValidation req).2 = [] ↔
  email_rules (JS.trim (Validator.toString (login_email req))) = [] ∧
  JS.trim (Validator.toString (login_password req)) ≠ "".
Proof.
  unfold loginValidation, Validator.notEmpty. cbn [snd]. split.
  - intros [E1 E2]%app_eq_nil. split; [done|].
    by destruct (String.eqb_spec
                   (JS.trim (Validator.toString (login_password req))) "").
  - intros [E1 Hne]. rewrite E1. cbn. apply String.eqb_neq in Hne.
    by rewrite Hne.
Qed.

Lemma post_login_200 db req env production u :
  (loginValidation req).2 = [] →
  user_findUnique_email (store db)
    (JS.trim (Validator.toString (login_email req))) = Some u →
  bcrypt_compare (JS.trim (Validator.toString (login_password req)))
                 (u_password u) = true →
  post_login db req env production =
  (mkReply 200 (UserBody (user_json u))
     (Some (setTokenCookie (jwt_sign (u_id u) (now env)) production)), db).
Proof.
  intros Hval Hf Hc. unfold post_login, run_db.
  rewrite (proj2 (handle_validation_Next (loginValidation req) _)
             (conj Hval eq_refl)).
  cbn. rewrite Hf. unfold comparePassword. by rewrite Hc.
Qed.

Lemma post_login_200_inv db req env production r db' :
  post_login db req env production = (r, db') → reply_status r = 200 →
  ∃ u,
    (loginValidation req).2 = [] ∧
    user_findUnique_email (store db)
      (JS.trim (Validator.toString (login_email req))) = Some u ∧
    bcrypt_compare (JS.trim (Validator.toString (login_password req)))
                   (u_password u) = true ∧
    db' = db ∧
    r = mkReply 200 (UserBody (user_json u))
          (Some (setTokenCookie (jwt_sign (u_id u) (now env)) production)).
Proof.
  unfold post_login, run_db. intros E Hst.
  destruct (handle_validation (loginValidation req)) as [?|[email password]]
    eqn:Hval; cbn in E.
  { apply handle_validation_Send in Hval as [-> _]. by injection E as <- <-. }
  apply handle_validation_Next in Hval as [Hval [= -> ->]].
  destruct (user_findUnique_email _ _) as [u|] eqn:Hf; cbn in E;
    [|by injection E as <- <-].
  unfold comparePassword in E.
  destruct (bcrypt_compare _ _) eqn:Hc; cbn in E; [|by injection E as <- <-].
  injection E as <- <-. by exists u.
Qed.

(** X13.  Registration and login agree (on bodies of ASCII strings):
    after a successful registration, a login with an address and a
    password that trim to the registered ones (blanks around either are ignored) answers 200 with the id, name
    and address of the new user and a fresh token for it, and writes
    nothing, provided the hasher accepts the password against its own
    hash. *)
Theorem register_then_login db req env production r db' lreq env' production' :
  db_wf db →
  plain_register req = true → plain_login lreq = true →
  post_register db req env production = (r, db') → reply_status r = 201 →
  let name := JS.trim (Validator.toString (reg_name req)) in
  let email := JS.trim (Validator.toString (reg_email req)) in
  let password := JS.trim (Validator.toString (reg_password req)) in
  bcrypt_compare password (bcrypt_hash password 12 (salt env)) = true →
  JS.trim (Validator.toString (login_email lreq)) = email →
  JS.trim (Validator.toString (login_password lreq)) = password →
  post_login db' lreq env' production' =
  (mkReply 200 (UserBody (mkOwnerJson (nextUserId db) name email))
     (Some (setTokenCookie (jwt_sign (nextUserId db) (now env')) production')),
   db').
Proof.
  intros Hwf _ _ E Hst name email password Hc He Hp.
  apply post_register_201 in E as (Hval & _ & -> & _ & Hwf'); [|done..].
  apply registerValidation_nil in Hval as (Hemail & Hpw & _).
  apply password_rules_nil in Hpw as (Hlen & _).
  rewrite (post_login_200 _ lreq env' production'
             (mkUser (nextUserId db) name email
                     (bcrypt_hash password 12 (salt env)) (now env) (now env)));
    [done| | |].
  - apply loginValidation_nil. rewrite He, Hp. split; [done|].
    intros Hempty. fold password in Hlen. rewrite Hempty in Hlen. cbn in Hlen. lia.
  - rewrite He. apply (user_findUnique_email_unique _ _ (nextUserId db));
      [apply Hwf'|apply lookup_insert_eq|apply same_email_refl].
  - cbn. by rewrite Hp.
Qed.

(** X14.  A login never writes, and (for a body of ASCII strings that
    passes the validation) it does not tell an unknown address from a
    wrong password: in both cases the reply is the same 401
    "Invalid email or password", without a cookie. *)
Theorem login_failure_uniform db req env production :
  (post_login db req env production).2 = db ∧
  (plain_login req = true →
   (loginValidation req).2 = [] →
   (user_findUnique_email (store db)
      (JS.trim (Validator.toString (login_email req))) = None ∨
    ∃ u, user_findUnique_email (store db)
           (JS.trim (Validator.toString (login_email req))) = Some u ∧
         bcrypt_compare (JS.trim (Validator.toString (login_password req)))
                        (u_password u) = false) →
   (post_login db req env production).1 =
   mkReply 401 (Plain (ErrorBody "Invalid email or password")) None).
Proof.
  unfold post_login, run_db. split.
  - destruct (handle_validation (loginValidation req)) as [?|[email password]];
      cbn; [done|].
    destruct (user_findUnique_email _ _); cbn; [|done].
    by destruct (negb _).
  - intros _ Hval Hfail.
    rewrite (proj2 (handle_validation_Next (loginValidation req) _)
               (conj Hval eq_refl)).
    cbn. destruct Hfail as [->|(u & -> & Hc)]; [done|].
    unfold comparePassword. by rewrite Hc.
Qed.

(** ** Tokens *)

Lemma substring_all s : String.substring 0 (String.length s) s = s.
Proof. induction s as [|c s IH]; [done|]. cbn. by rewrite IH. Qed.

Lemma string_app_cons c (t x : string) :
  String.String c t ++ x = String.String c (t ++ x).
Proof. reflexivity. Qed.

Lemma until_blank_app t rest :
  blank_free t → until_blank (t ++ String.String " " rest) = t.
Proof.
  unfold blank_free. induction t as [|c t IH]; [done|].
  rewrite string_app_cons. cbn. intros Hc. apply not_elem_of_cons in Hc as [Hc Ht].
  destruct (Ascii.eqb_spec c " ") as [->|_]; [done|]. by rewrite IH.
Qed.

Lemma until_blank_id t : blank_free t → until_blank t = t.
Proof.
  unfold blank_free. induction t as [|c t IH]; cbn; [done|].
  intros Hc. apply not_elem_of_cons in Hc as [Hc Ht].
  destruct (Ascii.eqb_spec c " ") as [->|_]; [done|]. by rewrite IH.
Qed.

Lemma bearer_app x : bearer ("Bearer " ++ x) = Some (until_blank x).
Proof.
  change ("Bearer " ++ x) with
    (String.String "B" (String.String "e" (String.String "a" (String.String "r"
      (String.String "e" (String.String "r" (String.String " " x))))))).
  unfold bearer. cbn.
  assert (String.prefix "" x = true) as -> by by destruct x.
  by rewrite Nat.sub_0_r, substring_all.
Qed.

Lemma bearer_other h : String.prefix "Bearer " h = false → bearer h = None.
Proof. unfold bearer. by intros ->. Qed.

(** X15.  Where [authenticate] takes the token from: a [jwt] cookie that is
    not empty wins over any [Authorization] header; without one, the token
    is what follows ['Bearer '] up to the next blank; a header of another
    scheme, or nothing after ['Bearer '], is no token at all. *)
Theorem request_token_cases :
  (∀ t auth, t ≠ "" → request_token (mkHeaders (Some t) auth) = Some t) ∧
  (∀ cookie t rest, cookie = None ∨ cookie = Some "" →
     t ≠ "" → blank_free t →
     request_token (mkHeaders cookie (Some ("Bearer " ++ t))) = Some t ∧
     request_token (mkHeaders cookie
                      (Some ("Bearer " ++ t ++ String.String " " rest))) = Some t) ∧
  (∀ cookie h rest, cookie = None ∨ cookie = Some "" →
     String.prefix "Bearer " h = false →
     request_token (mkHeaders cookie (Some h)) = None ∧
     request_token (mkHeaders cookie None) = None ∧
     request_token (mkHeaders cookie (Some ("Bearer " ++ String.String " " rest)))
       = None).
Proof.
  unfold request_token. split_and!.
  - intros t auth Ht. cbn. apply String.eqb_neq in Ht. by rewrite !Ht.
  - intros cookie t rest Hcookie Ht Hblank. cbn [cookie_jwt authorization].
    assert (match cookie with
            | Some t0 => if String.eqb t0 "" then None else Some t0
            | None => None
            end = None) as -> by (by destruct Hcookie as [->| ->]).
    cbn. rewrite !bearer_app, until_blank_id, until_blank_app by done.
    cbn. apply String.eqb_neq in Ht. by rewrite Ht.
  - intros cookie h rest Hcookie Hh. cbn [cookie_jwt authorization].
    assert (match cookie with
            | Some t0 => if String.eqb t0 "" then None else Some t0
            | None => None
            end = None) as -> by (by destruct Hcookie as [->| ->]).
    cbn. rewrite bearer_other, bearer_app by done. done.
Qed.

(** X16.  The cookie of a successful login is a session of 30 days: it is
    the [jwt] cookie, [httpOnly], with a [maxAge] of 30 days, and a request
    that carries its value (whatever its [Authorization] header) is
    authenticated as the user who logged in from the login on and for
    less than 2592000 seconds; from then on it is answered 401
    "Invalid token". *)
Theorem login_session db req env production r db' :
  db_wf db →
  post_login db req env production = (r, db') → reply_status r = 200 →
  ∃ user cookie,
    reply_body r = UserBody (user_json user) ∧
    reply_cookie r = Some cookie ∧
    cookie_name cookie = "jwt" ∧ httpOnly cookie = true ∧
    maxAge cookie = Some (1000 * 2592000) ∧ secure cookie = Some production ∧
    ∀ t auth,
      authenticate (store db')
        (credential (mkHeaders (Some (cookie_value cookie)) auth) t) =
      if t `div` 1000 <? now env `div` 1000 + 2592000
      then Next user
      else send 401 (ErrorBody "Invalid token").
Proof.
  intros Hwf E Hst.
  apply post_login_200_inv in E as (u & _ & Hf & _ & -> & ->); [|done].
  apply user_findUnique_email_Some in Hf as (k & Hk & _).
  assert (u_id u = k) as Hid by (eapply wf_user_id; [apply Hwf|done]).
  eexists u, _. split; [done|]. split; [done|]. cbn.
  split_and!; try done.
  intros t auth. unfold credential, request_token. cbn.
  unfold generateToken.
  rewrite (proj2 (String.eqb_neq _ _) (jwt_sign_nonempty _ _)).
  rewrite (proj2 (String.eqb_neq _ _) (jwt_sign_nonempty _ _)).
  rewrite jwt_verify_sign.
  destruct (_ <? _); [|done].
  apply authenticate_Next. exists (u_id u). by rewrite Hid.
Qed.

(** X17.  A logout needs no authentication and writes nothing: it only
    replaces the [jwt] cookie by an empty one that expired in 1970.  A
    request that carries that cookie and no [Authorization] header has no
    token; but the token of the login is not revoked: a request that still
    presents it is authenticated as before. *)
Theorem logout_clears_cookie_only db req env production r db' :
  db_wf db →
  post_login db req env production = (r, db') → reply_status r = 200 →
  ∃ user token cleared,
    reply_body r = UserBody (user_json user) ∧
    cookie_value <$> reply_cookie r = Some token ∧
    post_logout db' =
      (mkReply 200 (Plain (MessageBody "Logged out successfully")) (Some cleared),
       db') ∧
    cookie_name cleared = "jwt" ∧ cookie_value cleared = "" ∧
    expires cleared = Some 0 ∧
    (∀ t, credential (mkHeaders (Some (cookie_value cleared)) None) t = NoToken) ∧
    (∀ t, t `div` 1000 < now env `div` 1000 + 2592000 →
       authenticate (store (post_logout db').2)
         (credential (mkHeaders (Some token) None) t) = Next user).
Proof.
  intros Hwf E Hst.
  apply post_login_200_inv in E as (u & _ & Hf & _ & -> & ->); [|done].
  apply user_findUnique_email_Some in Hf as (k & Hk & _).
  assert (u_id u = k) as Hid by (eapply wf_user_id; [apply Hwf|done]).
  eexists u, _, _. split; [done|]. split; [done|]. split; [done|]. cbn.
  split_and!; try done.
  intros t Ht. unfold credential, request_token, generateToken. cbn.
  rewrite (proj2 (String.eqb_neq _ _) (jwt_sign_nonempty _ _)).
  rewrite (proj2 (String.eqb_neq _ _) (jwt_sign_nonempty _ _)).
  rewrite jwt_verify_sign.
  rewrite (proj2 (Z.ltb_lt _ _) Ht).
  apply authenticate_Next. exists (u_id u). by rewrite Hid.
Qed.

(** ** The profile routes *)

Lemma profile_fields req name email :
  (name, email) = (profileValidation req).1 →
  match name with
  | Some v => if String.eqb v "" then None else Some v
  | None => None
  end = given (prof_name req) ∧
  match email with
  | Some v => if String.eqb v "" then None else Some v
  | None => None
  end = given (prof_email req).
Proof.
  unfold profileValidation. cbn [fst]. intros [= -> ->].
  by destruct (prof_name req), (prof_email req).
Qed.

Lemma patch_me_eq db c req env user :
  authenticate (store db) c = Next user →
  (profileValidation req).2 = [] →
  patch_me db c req env =
  if match given (prof_email req) with
     | Some e => negb (String.eqb e (u_email user)) &&
                 bool_decide (is_Some (user_findUnique_email (store db) e))
     | None => false
     end
  then (mkReply 400 (Plain (ErrorBody "Email already in use")) None, db)
  else match user_update (u_id user) (given (prof_name req))
               (given (prof_email req)) None (now env) db with
       | Some (u, db') => (mkReply 200 (UserBody (user_json u)) None, db')
       | None => (mkReply 500 (Plain (ErrorBody "Server error")) None, db)
       end.
Proof.
  intros Hauth Hval. unfold patch_me, run_db. rewrite Hauth. cbn.
  destruct (handle_validation (profileValidation req)) as [?|[name email]]
    eqn:Hv; cbn.
  { by apply handle_validation_Send in Hv as [_ ?]. }
  apply handle_validation_Next in Hv as [_ Hbody].
  apply profile_fields in Hbody as [-> ->].
  destruct (given (prof_email req)) as [e|]; cbn.
  - destruct (negb (String.eqb e (u_email user))); cbn.
    + destruct (user_findUnique_email (store db) e); cbn; [done|].
      by destruct (user_update _ _ _ _ _ _) as [[??]|].
    + by destruct (user_update _ _ _ _ _ _) as [[??]|].
  - by destruct (user_update _ _ _ _ _ _) as [[??]|].
Qed.

(** X18.  A successful profile update (of a body of ASCII strings that
    passes the validation) rewrites the caller's own row and nothing
    else: the name and the address are replaced by the trimmed values of
    the fields that are there and not empty, an omitted field
    keeps its value, the password and the creation time stay; the body of
    the response has the id, the name and the address only; the addresses
    are still unique.  An address that another user has is refused with
    400 "Email already in use" and nothing is written. *)
Theorem profile_update db c req env user :
  db_wf db →
  authenticate (store db) c = Next user →
  plain_profile req = true →
  (profileValidation req).2 = [] →
  (∀ e other, given (prof_email req) = Some e → e ≠ u_email user →
     user_findUnique_email (store db) e = Some other →
     patch_me db c req env =
     (mkReply 400 (Plain (ErrorBody "Email already in use")) None, db)) ∧
  (∀ r db', patch_me db c req env = (r, db') → reply_status r = 200 →
     let u' := mkUser (u_id user) (default (u_name user) (given (prof_name req)))
                 (default (u_email user) (given (prof_email req)))
                 (u_password user) (u_createdAt user) (now env) in
     r = mkReply 200 (UserBody (mkOwnerJson (u_id user) (u_name u') (u_email u')))
                 None ∧
     users (store db') = <[u_id user := u']> (users (store db)) ∧
     notes (store db') = notes (store db) ∧
     versions (store db') = versions (store db) ∧
     db_wf db').
Proof.
  intros Hwf Hauth _ Hval. rewrite (patch_me_eq db c req env user) by done.
  pose proof Hauth as (uid & -> & Huser)%authenticate_Next.
  assert (u_id user = uid) as Huid by (eapply wf_user_id; [apply Hwf|done]).
  split.
  - intros e other -> Hne ->. apply String.eqb_neq in Hne. by rewrite Hne.
  - intros r db' E Hst.
    destruct (match given (prof_email req) with Some _ => _ | None => _ end);
      [by injection E as <- <-|].
    destruct (user_update _ _ _ _ _ _) as [[u db1]|] eqn:Hu;
      [|by injection E as <- <-].
    injection E as <- <-.
    apply db_wf_user_update in Hu as (old & Hold & -> & -> & Hwf'); [|done].
    rewrite Huid, Huser in Hold. injection Hold as <-.
    cbn in *. split_and!; done.
Qed.

(** ** Changing the password *)

Lemma passwordChangeValidation_nil req :
  (passwordChangeValidation req).2 = [] →
  password_rules "New password is required"
    (JS.trim (Validator.toString (newPassword req))) = [].
Proof.
  unfold passwordChangeValidation. cbn [snd]. by intros [_ ?]%app_eq_nil.
Qed.

Lemma patch_password_eq db c req env user :
  db_wf db →
  authenticate (store db) c = Next user →
  (passwordChangeValidation req).2 = [] →
  patch_password db c req env =
  if bcrypt_compare (JS.trim (Validator.toString (oldPassword req)))
                    (u_password user)
  then match user_update (u_id user) None None
               (Some (bcrypt_hash (JS.trim (Validator.toString (newPassword req)))
                                  12 (salt env)))
               (now env) db with
       | Some (_, db') =>
           (mkReply 200 (Plain (MessageBody "Password updated successfully")) None,
            db')
       | None => (mkReply 500 (Plain (ErrorBody "Server error")) None, db)
       end
  else (mkReply 400 (Plain (ErrorBody "Current password is incorrect")) None, db).
Proof.
  intros Hwf Hauth Hval. unfold patch_password, run_db. rewrite Hauth. cbn.
  rewrite (proj2 (handle_validation_Next (passwordChangeValidation req) _)
             (conj Hval eq_refl)).
  cbn. unfold Prisma.user_findUnique.
  pose proof Hauth as (uid & -> & Huser)%authenticate_Next.
  assert (u_id user = uid) as Huid by (eapply wf_user_id; [apply Hwf|done]).
  rewrite Huid, Huser. cbn. unfold comparePassword, hashPassword.
  destruct (bcrypt_compare _ _); cbn; [|done].
  by destruct (user_update _ _ _ _ _ _) as [[??]|].
Qed.

(** X19.  A password change (of a body of ASCII strings that passes the
    validation) with a wrong current password is answered 400 and writes
    nothing.  With the right one it answers 200 and replaces the caller's
    password by the hash of the trimmed new password (which
    has at least 8 characters with an upper-case letter, a digit and a
    special character), leaving the rest of the row, the other users and
    the notes as they are; a login with the address and the new password
    then succeeds, provided the hasher accepts a password against its own
    hash. *)
Theorem password_change db c req env user :
  db_wf db →
  authenticate (store db) c = Next user →
  plain_passwords req = true →
  (passwordChangeValidation req).2 = [] →
  let old := JS.trim (Validator.toString (oldPassword req)) in
  let new := JS.trim (Validator.toString (newPassword req)) in
  (bcrypt_compare old (u_password user) = false →
   patch_password db c req env =
   (mkReply 400 (Plain (ErrorBody "Current password is incorrect")) None, db)) ∧
  (bcrypt_compare old (u_password user) = true →
   ∃ db',
     patch_password db c req env =
     (mkReply 200 (Plain (MessageBody "Password updated successfully")) None, db') ∧
     users (store db') =
       <[u_id user := mkUser (u_id user) (u_name user) (u_email user)
                        (bcrypt_hash new 12 (salt env))
                        (u_createdAt user) (now env)]> (users (store db)) ∧
     notes (store db') = notes (store db) ∧
     versions (store db') = versions (store db) ∧
     (8 ≤ String.length new)%nat ∧
     db_wf db' ∧
     ∀ lreq env' production,
       plain_login lreq = true →
       bcrypt_compare new (bcrypt_hash new 12 (salt env)) = true →
       isEmail (u_email user) = true → u_email user ≠ "" →
       JS.trim (Validator.toString (login_email lreq)) = u_email user →
       JS.trim (Validator.toString (login_password lreq)) = new →
       post_login db' lreq env' production =
       (mkReply 200 (UserBody (mkOwnerJson (u_id user) (u_name user) (u_email user)))
          (Some (setTokenCookie (jwt_sign (u_id user) (now env')) production)),
        db')).
Proof.
  intros Hwf Hauth _ Hval old new.
  rewrite (patch_password_eq db c req env user) by done. fold old new.
  pose proof Hauth as (uid & -> & Huser)%authenticate_Next.
  assert (u_id user = uid) as Huid by (eapply wf_user_id; [apply Hwf|done]).
  split; [by intros ->|]. intros ->.
  assert (is_Some (user_update (u_id user) None None
            (Some (bcrypt_hash new 12 (salt env))) (now env) db)) as [[u db'] Hu].
  { unfold user_update. rewrite Huid, Huser. cbn.
    destruct (existsb _ _) eqn:Hex; [|by eauto].
    apply existsb_exists in Hex as ([k u] & Hin & Hk). cbn in Hk.
    apply andb_true_iff in Hk as [Hne He].
    apply negb_true_iff, Z.eqb_neq in Hne.
    apply list_elem_of_In, elem_of_map_to_list in Hin.
    destruct Hne. eapply (db_emails_unique db Hwf); done. }
  rewrite Hu.
  apply db_wf_user_update in Hu as (old' & Hold & -> & -> & Hwf'); [|done].
  rewrite Huid, Huser in Hold. injection Hold as <-.
  apply passwordChangeValidation_nil, password_rules_nil in Hval as (Hlen & _).
  cbn in Hwf'. rewrite ?Huid in Hwf'.
  eexists. split; [done|]. cbn. rewrite ?Huid. split_and!; try done.
  intros lreq env' production _ Hc Hmail Hne He Hp.
  rewrite (post_login_200 _ lreq env' production
             (mkUser uid (u_name user) (u_email user)
                     (bcrypt_hash new 12 (salt env)) (u_createdAt user) (now env)));
    [done| | |].
  - apply loginValidation_nil. rewrite He, Hp. split.
    + unfold email_rules, Validator.notEmpty. rewrite Hmail.
      apply String.eqb_neq in Hne. by rewrite Hne.
    + intros Hempty. fold new in Hlen. rewrite Hempty in Hlen. cbn in Hlen. lia.
  - rewrite He. apply (user_findUnique_email_unique _ _ uid);
      [apply Hwf'|apply lookup_insert_eq|apply same_email_refl].
  - cbn. by rewrite Hp.
Qed.

(** ** The database invariant *)

(** X20.  Every account route keeps the invariant of the database: ids
    are the keys and lie below the counters, foreign keys resolve, and no
    two users have the same address. *)
Theorem accounts_keep_db_wf db c reg login prof pw env production :
  db_wf db →
  db_wf (post_register db reg env production).2 ∧
  db_wf (post_login db login env production).2 ∧
  db_wf (post_logout db).2 ∧
  db_wf (get_me db c).2 ∧
  db_wf (patch_me db c prof env).2 ∧
  db_wf (patch_password db c pw env).2.
Proof.
  intros Hwf. split_and!.
  - unfold post_register, run_db.
    destruct (handle_validation _) as [?|[[name email] password]]; cbn; [done|].
    destruct (user_findUnique_email _ _); cbn; [done|].
    destruct (user_create _ _ _ _ _) as [[u db1]|] eqn:Hc; cbn; [|done].
    by apply db_wf_user_create in Hc as (_ & _ & _ & ?).
  - unfold post_login, run_db.
    destruct (handle_validation _) as [?|[email password]]; cbn; [done|].
    destruct (user_findUnique_email _ _); cbn; [|done].
    by destruct (negb _).
  - done.
  - unfold get_me, run_db. by destruct (authenticate _ _).
  - destruct (authenticate (store db) c) as [r|user] eqn:Hauth.
    { unfold patch_me, run_db. by rewrite Hauth. }
    destruct (handle_validation (profileValidation prof)) as [?|[name email]] eqn:Hv.
    { unfold patch_me, run_db. rewrite Hauth. cbn. by rewrite Hv. }
    apply handle_validation_Next in Hv as [Hv _].
    rewrite (patch_me_eq db c prof env user) by done.
    destruct (match given (prof_email prof) with Some _ => _ | None => _ end);
      [done|].
    destruct (user_update _ _ _ _ _ _) as [[u db1]|] eqn:Hu; [|done].
    by apply db_wf_user_update in Hu as (? & _ & _ & _ & ?).
  - destruct (authenticate (store db) c) as [r|user] eqn:Hauth.
    { unfold patch_password, run_db. by rewrite Hauth. }
    destruct (handle_validation (passwordChangeValidation pw)) as [?|[o n]] eqn:Hv.
    { unfold patch_password, run_db. rewrite Hauth. cbn. by rewrite Hv. }
    apply handle_validation_Next in Hv as [Hv _].
    rewrite (patch_password_eq db c pw env user) by done.
    destruct (bcrypt_compare _ _); [|done].
    destruct (user_update _ _ _ _ _ _) as [[u db1]|] eqn:Hu; [|done].
    by apply db_wf_user_update in Hu as (? & _ & _ & _ & ?).
Qed.

End AccountProofs.

(** * Properties of the seeding *)

Section SeedProofs.

Context `{Bcrypt} `{Mail}.

Local Arguments Prisma.note_create : simpl never.
Local Arguments Prisma.noteVersion_create : simpl never.

Lemma versions_of_inserted_other s new t k :
  store_wf s → k ≠ nextNoteId s → n_id new = nextNoteId s →
  versions_of (inserted s new t) k ≡ₚ versions_of s k.
Proof.
  intros Hwf Hk Hid. unfold versions_of, inserted. simpl.
  rewrite versions_of_insert by by apply fresh_version.
  rewrite filter_cons_False; [done|]. simpl. by rewrite Hid.
Qed.

Lemma user_findUnique_email_fresh s e :
  (∀ k u, users s !! k = Some u → same_email (u_email u) e = false) →
  user_findUnique_email s e = None.
Proof.
  intros Hall. destruct (user_findUnique_email s e) as [u|] eqn:E; [|done].
  apply user_findUnique_email_Some in E as (k & Hk & He).
  by rewrite (Hall k u Hk) in He.
Qed.

(** One round of the inner loop. *)
Lemma seed_note_step (user : User) i j env db :
  db_wf db → users (store db) !! u_id user = Some user →
  (∀ k n, notes (store db) !! k = Some n → seeded_note (store db) k n) →
  ∃ new,
    let db' := mkDb (inserted (store db) new (seed_now env)) (nextUserId db) in
    (∀ js, seed_notes user i (j :: js) env db = seed_notes user i js env db') ∧
    db_wf db' ∧
    (∀ k n, notes (store db') !! k = Some n → seeded_note (store db') k n) ∧
    size (notes (store db')) = S (size (notes (store db))).
Proof.
  intros [Hwf Hfresh Huniq] Huser Hnotes.
  set (isProtected := bool_decide (j `mod` 4 = 0)).
  set (new := mkNote (nextNoteId (store db)) (seed_note_title i j)
                (seed_note_description i j) isProtected
                (if isProtected
                 then Some (bcrypt_hash "notePassword" 12 (seed_salt env i j))
                 else None)
                (u_id user) (seed_now env) (seed_now env)).
  exists new. cbn zeta.
  assert (store_wf (inserted (store db) new (seed_now env))) as Hwf'.
  { apply wf_inserted; [done|done|]. cbn. by eauto. }
  split_and!.
  - intros js. cbn [seed_notes]. fold isProtected.
    pose proof (proj2 (create_then_snapshot (store db)
      (Prisma.mkNoteData (JS.str (seed_note_title i j))
         (JS.str (seed_note_description i j)) (JS.bool isProtected)
         (if isProtected
          then JS.str (bcrypt_hash "notePassword" 12 (seed_salt env i j))
          else JS.null))
      (u_id user) (seed_now env) new
      (inserted (store db) new (seed_now env)))) as Hc.
    destruct (Prisma.note_create _ _ _ _) as [[note s1]|] eqn:E1.
    + cbn in Hc |- *.
      destruct (Prisma.noteVersion_create _ _ _ _ s1) as [[v s2]|] eqn:E2;
        cbn in Hc |- *.
      * assert (Some (note, s2) = Some (new, inserted (store db) new (seed_now env)))
          as [= -> ->]; [|done].
        apply Hc. split; [by eauto|].
        eexists _, _, _, _. split_and!; try done. subst new. by destruct isProtected.
      * exfalso. assert (None = Some (new, inserted (store db) new (seed_now env)));
          [|done].
        apply Hc. split; [by eauto|].
        eexists _, _, _, _. split_and!; try done. subst new. by destruct isProtected.
    + exfalso. cbn in Hc.
      assert (None = Some (new, inserted (store db) new (seed_now env))); [|done].
      apply Hc. split; [by eauto|].
      eexists _, _, _, _. split_and!; try done. subst new. by destruct isProtected.
  - split; [done|apply Hfresh|apply Huniq].
  - cbn. intros k n [[<- <-]|[Hne Hk]]%lookup_insert_Some.
    + split.
      * unfold protection_invariant. subst new. cbn.
        destruct isProtected; cbn; [by split; eauto|].
        split; [by intros [??]|done].
      * eexists. split; [by apply versions_of_inserted|done].
    + destruct (Hnotes k n Hk) as [Hp (v & Hv & Ht & Hd)].
      split; [done|]. exists v. split; [|done].
      rewrite versions_of_inserted_other; done.
  - cbn. apply map_size_insert_None. by apply fresh_note.
Qed.

Lemma seed_notes_all (user : User) i js env db :
  db_wf db → users (store db) !! u_id user = Some user →
  (∀ k n, notes (store db) !! k = Some n → seeded_note (store db) k n) →
  ∃ db',
    seed_notes user i js env db = Some db' ∧
    db_wf db' ∧ users (store db') = users (store db) ∧
    (∀ k n, notes (store db') !! k = Some n → seeded_note (store db') k n) ∧
    size (notes (store db')) = (size (notes (store db)) + length js)%nat.
Proof.
  revert db. induction js as [|j js IH]; intros db Hwf Huser Hnotes.
  - exists db. split_and!; try done; cbn; lia.
  - destruct (seed_note_step user i j env db Hwf Huser Hnotes)
      as (new & Hstep & Hwf' & Hnotes' & Hsize).
    cbn zeta in *. rewrite Hstep.
    destruct (IH _ Hwf' Huser Hnotes') as (db' & E & ? & Hu & ? & Hs).
    exists db'. split_and!; try done; rewrite Hs, Hsize; cbn; lia.
Qed.

Lemma seed_users_all ids seen env db :
  seeding env seen db → NoDup (seen ++ ids)%list →
  (∀ i j, i ∈ (seen ++ ids)%list → j ∈ (seen ++ ids)%list → i ≠ j →
     same_email (seed_user_email i) (seed_user_email j) = false) →
  (∀ i, 0 ≤ seed_random env i ≤ 2) →
  ∃ db', seed_users ids env db = Some db' ∧ seeding env (seen ++ ids)%list db'.
Proof.
  revert seen db. induction ids as [|i ids IH]; intros seen db Hs Hnodup Hdist Hrand.
  { exists db. by rewrite app_nil_r. }
  destruct Hs as [Hwf Hnotes Husers Hcount Hncount].
  assert (i ∉ seen) as Hi.
  { apply NoDup_app in Hnodup as (_ & Hdisj & _). intros Hin.
    apply (Hdisj i Hin). by left. }
  cbn [seed_users].
  assert (user_findUnique_email (store db) (seed_user_email i) = None) as Hfree.
  { apply user_findUnique_email_fresh. intros k u Hk.
    destruct (Husers k u Hk) as (i' & Hi' & -> & _).
    apply Hdist; [apply elem_of_app; by left|apply elem_of_app; right; by left|].
    by intros ->. }
  destruct (user_create (seed_user_name i) (seed_user_email i)
              (bcrypt_hash "Password123!" 12 (seed_salt env i 0)) (seed_now env) db)
    as [[user db1]|] eqn:Hc;
    [|unfold user_create in Hc; by rewrite Hfree in Hc].
  apply db_wf_user_create in Hc as (-> & Hnew & -> & Hwf1); [|done].
  set (user := mkUser (nextUserId db) _ _ _ _ _) in *.
  set (db1 := mkDb _ _) in *. cbn [mbind option_bind].
  destruct (seed_notes_all user i (seqZ 1 (seed_random env i + 4)) env db1)
    as (db2 & E2 & Hwf2 & Hu2 & Hnotes2 & Hsize2);
    [done|apply lookup_insert_eq|exact Hnotes|].
  rewrite E2. cbn [mbind option_bind].
  assert (length (seqZ 1 (seed_random env i + 4)) =
          Z.to_nat (seed_random env i + 4)) as Hlen by apply length_seqZ.
  destruct (IH (seen ++ [i])%list db2) as (db' & E & Hs').
  - split; [done|done| | |].
    + rewrite Hu2. subst db1. cbn.
      intros k u [[<- <-]|[_ Hk]]%lookup_insert_Some.
      * exists i. split; [apply elem_of_app; right; by left|done].
      * destruct (Husers k u Hk) as (i' & ? & ? & ?). exists i'.
        split; [apply elem_of_app; by left|done].
    + rewrite Hu2. subst db1. cbn.
      rewrite map_size_insert_None by done. rewrite length_app, Hcount. cbn. lia.
    + rewrite Hsize2, Hlen, length_app. subst db1. cbn.
      specialize (Hrand i). lia.
  - by rewrite <-app_assoc.
  - intros. apply Hdist; by rewrite <-?app_assoc in *.
  - done.
  - exists db'. split; [done|]. by rewrite <-app_assoc in Hs'.
Qed.

(** X21.  On a database without users the seeding wipes the tables and
    creates the 5 sample users, each with 4 to 6 notes (20 to 30 in all,
    the count it reports); the result satisfies the invariant of the
    database, every user has the hash of the sample password, and every
    note has a stored password exactly when it is protected and a history
    of one version with its title and description.  It needs the five
    sample addresses to differ for the database. *)
Theorem seed_fresh env db :
  users (store db) = ∅ →
  (∀ i, 0 ≤ seed_random env i ≤ 2) →
  (∀ i j, i ∈ seqZ 1 5 → j ∈ seqZ 1 5 → i ≠ j →
     same_email (seed_user_email i) (seed_user_email j) = false) →
  ∃ res db',
    seed env db = Some (res, db') ∧
    skipped res = false ∧ usersCount res = 5 ∧
    size (users (store db')) = 5%nat ∧
    notesCount res = Z.of_nat (size (notes (store db'))) ∧
    20 ≤ notesCount res ≤ 30 ∧
    db_wf db' ∧
    (∀ k u, users (store db') !! k = Some u →
       ∃ i, 1 ≤ i ≤ 5 ∧ u_email u = seed_user_email i ∧
            u_password u = bcrypt_hash "Password123!" 12 (seed_salt env i 0)) ∧
    (∀ k n, notes (store db') !! k = Some n → seeded_note (store db') k n).
Proof.
  intros Hempty Hrand Hdist. unfold seed. rewrite Hempty, map_size_empty.
  change (0 <? Z.of_nat 0) with false. cbn iota.
  set (cleaned := mkDb _ _).
  destruct (seed_users_all (seqZ 1 5) [] env cleaned) as (db' & E & Hs).
  - split; cbn; done.
  - cbn. apply NoDup_seqZ.
  - done.
  - done.
  - cbn [app] in E, Hs. rewrite E. cbn [mbind option_bind].
    destruct Hs as [Hwf Hnotes Husers Hcount Hncount].
    rewrite length_seqZ in Hcount, Hncount.
    change (Z.to_nat 5) with 5%nat in Hcount, Hncount.
    eexists _, db'. split; [done|]. cbn [skipped usersCount notesCount].
    split_and!; try done; try lia.
    intros k u Hk. destruct (Husers k u Hk) as (i & Hi & ? & ?).
    exists i. split; [|done]. apply elem_of_seqZ in Hi. lia.
Qed.

Lemma seed_notes_users (user : User) i js env db db' :
  seed_notes user i js env db = Some db' → users (store db') = users (store db).
Proof.
  revert db. induction js as [|j js IH]; intros db E; [by injection E as <-|].
  cbn [seed_notes] in E.
  destruct (Prisma.note_create _ _ _ _) as [[note s1]|] eqn:E1; [|done].
  cbn in E.
  destruct (Prisma.noteVersion_create _ _ _ _ _) as [[v s2]|] eqn:E2; [|done].
  cbn in E. apply IH in E. rewrite E. cbn.
  unfold Prisma.note_create in E1. unfold Prisma.noteVersion_create in E2.
  simplify_option_eq; done.
Qed.

Lemma seed_users_keeps ids env db db' k :
  seed_users ids env db = Some db' →
  is_Some (users (store db) !! k) → is_Some (users (store db') !! k).
Proof.
  revert db. induction ids as [|i ids IH]; intros db E Hk;
    [by injection E as <-|].
  cbn [seed_users] in E.
  destruct (user_create _ _ _ _ _) as [[user db1]|] eqn:Hc; [|done]. cbn in E.
  destruct (seed_notes _ _ _ _ _) as [db2|] eqn:E2; [|done]. cbn in E.
  apply (IH _ E). rewrite (seed_notes_users _ _ _ _ _ _ E2).
  unfold user_create in Hc. destruct (user_findUnique_email _ _); [done|].
  injection Hc as <- <-. cbn. by apply lookup_insert_is_Some'; right.
Qed.

Lemma seed_users_nonempty i ids env db db' :
  seed_users (i :: ids) env db = Some db' → users (store db') ≠ ∅.
Proof.
  intros E. cbn [seed_users] in E.
  destruct (user_create _ _ _ _ _) as [[user db1]|] eqn:Hc; [|done]. cbn in E.
  destruct (seed_notes _ _ _ _ _) as [db2|] eqn:E2; [|done]. cbn in E.
  assert (is_Some (users (store db') !! nextUserId db)) as [u Hu].
  { apply (seed_users_keeps _ _ _ _ _ E).
    rewrite (seed_notes_users _ _ _ _ _ _ E2).
    unfold user_create in Hc. destruct (user_findUnique_email _ _); [done|].
    injection Hc as <- <-. cbn. rewrite lookup_insert_eq. by eauto. }
  intros Hempty. by rewrite Hempty, lookup_empty in Hu.
Qed.

(** X22.  The seeding runs once: on a database that has a user it writes
    nothing and reports the counts with [skipped]; in particular a seeding
    right after a seeding is skipped. *)
Theorem seed_once env db :
  (users (store db) ≠ ∅ →
   seed env db =
   Some (mkSeedResult (Z.of_nat (size (users (store db))))
                      (Z.of_nat (size (notes (store db)))) true, db)) ∧
  (∀ res db' env',
     seed env db = Some (res, db') →
     ∃ res', seed env' db' = Some (res', db') ∧ skipped res' = true).
Proof.
  assert (∀ e d, users (store d) ≠ ∅ →
    seed e d = Some (mkSeedResult (Z.of_nat (size (users (store d))))
                       (Z.of_nat (size (notes (store d)))) true, d)) as Hskip.
  { intros e d Hne. unfold seed.
    assert (size (users (store d)) ≠ 0%nat) by by rewrite map_size_empty_iff.
    rewrite (proj2 (Z.ltb_lt _ _)) by lia. done. }
  split; [apply Hskip|].
  intros res db' env' E.
  assert (users (store db') ≠ ∅) as Hne; [|rewrite Hskip by done; by eauto].
  unfold seed in E. destruct (0 <? _) eqn:Hlt.
  - injection E as <- <-. apply Z.ltb_lt in Hlt.
    intros Hempty. rewrite Hempty, map_size_empty in Hlt. lia.
  - destruct (seed_users _ _ _) as [db1|] eqn:E1; [|done]. cbn in E.
    injection E as <- <-. by apply seed_users_nonempty in E1.
Qed.

End SeedProofs.

Lemma db_wf_b_sound `{Mail} db : db_wf_b db = true → db_wf db.
Proof.
  unfold db_wf_b. cbn zeta. rewrite !andb_true_iff, !forallb_forall.
  intros [[Hs Hf] Hu]. split.
  - by apply store_wf_b_sound.
  - intros k u Hk. apply elem_of_map_to_list, list_elem_of_In, Hf in Hk.
    cbn in Hk. lia.
  - intros k1 k2 u1 u2 H1 H2 He.
    apply elem_of_map_to_list, list_elem_of_In, Hu in H1.
    rewrite forallb_forall in H1.
    apply elem_of_map_to_list, list_elem_of_In, H1 in H2.
    cbn in H2. rewrite He in H2. cbn in H2. lia.
Qed.

(** * The properties on concrete requests *)

Local Existing Instance Demo.bcrypt.

Lemma s0_wf : store_wf Demo.s0.
Proof. apply store_wf_b_sound. vm_compute. reflexivity. Qed.

Lemma s1_wf : store_wf Demo.s1.
Proof. apply store_wf_b_sound. vm_compute. reflexivity. Qed.

Lemma s1p_wf : store_wf Demo.s1p.
Proof. apply store_wf_b_sound. vm_compute. reflexivity. Qed.

Lemma s2_wf : store_wf Demo.s2.
Proof. apply store_wf_b_sound. vm_compute. reflexivity. Qed.

(** The scenario of the specification: create {T1, D1}, update to
    {T2, D2}, list the versions, revert to the version {T1}. *)
Example scenario_versions :
  (get_versions Demo.s2 (Token 1) 1).1 =
  mkResponse 200 (VersionsBody
    [mkVersionJson (JS.str "current") "T2" "D2" 1 20 (JS.bool true);
     mkVersionJson (JS.num 2) "T1" "D1" 1 20 JS.undefined;
     mkVersionJson (JS.num 1) "T1" "D1" 1 10 JS.undefined]).
Proof. vm_compute. reflexivity. Qed.

Example scenario_revert :
  notes (post_revert Demo.s2 (Token 1) 1 (JS.num 1) (Demo.env 30)).2 !! 1 =
  Some (mkNote 1 "T1" "D1" false None 1 10 30) ∧
  versions (post_revert Demo.s2 (Token 1) 1 (JS.num 1) (Demo.env 30)).2 !! 3 =
  Some (mkNoteVersion 3 "T2" "D2" 1 30).
Proof. split; vm_compute; reflexivity. Qed.

(** A reader who is not the owner gets no description of a protected note
    and is told to unlock it. *)
Example scenario_locked :
  (get_note Demo.s1p (Token 2) 1).1 =
  mkResponse 200 (NoteBody
    (mkNoteJson 1 "T1" JS.null true JS.undefined 1 10 10
                (Some (mkOwnerJson 1 "Alice" "alice@example.com"))
                (JS.bool true))).
Proof. vm_compute. reflexivity. Qed.

Example scenario_unlock :
  (post_unlock Demo.s1p (Token 2) 1 (JS.str "secret1A!")).1 =
  mkResponse 200 (NoteBody
    (mkNoteJson 1 "T1" (JS.str "D1") true JS.undefined 1 10 10 None JS.undefined)) ∧
  (post_unlock Demo.s1p (Token 2) 1 (JS.str "wrong")).1 =
  mkResponse 401 (ErrorBody "Invalid password").
Proof. split; vm_compute; reflexivity. Qed.

(** ** Where the routes part from the specification *)

(** C2, as stated, fails: Alice switches the protection of her protected
    note off; the update succeeds and the note keeps its password hash
    while [isProtected] is false. *)
Lemma unprotect_keeps_hash :
  ∃ r s' n,
    patch_note Demo.s1p (Token 1) 1 Demo.unprotect (Demo.env 20) = (r, s') ∧
    status r = 200 ∧ notes s' !! 1 = Some n ∧
    n_isProtected n = false ∧ n_password n = Some "$2a$secret1A!" ∧
    ¬ protection_invariant n.
Proof.
  eexists _, _, _. split; [vm_compute; reflexivity|].
  split; [reflexivity|]. split; [vm_compute; reflexivity|].
  split; [reflexivity|]. split; [reflexivity|].
  unfold protection_invariant. simpl. intros [Hp _].
  discriminate Hp. by eauto.
Qed.

(** C3, as stated, fails for [N = 0]: right after the create, the versions
    response has one persisted entry behind the current one. *)
Lemma one_version_after_create :
  ∃ r1 s1 l,
    post_note Demo.s0 (Token 1) Demo.plain (Demo.env 10) = (r1, s1) ∧
    status r1 = 201 ∧
    patch_all s1 (Token 1) 1 [] = Some s1 ∧
    (get_versions s1 (Token 1) 1).1 = mkResponse 200 (VersionsBody l) ∧
    length (persisted l) = 1%nat ∧
    length (persisted l) ≠ length (@nil (NoteRequest * Env)).
Proof.
  eexists _, _, _. split; [vm_compute; reflexivity|].
  split; [reflexivity|]. split; [reflexivity|].
  split; [vm_compute; reflexivity|]. split; [reflexivity|]. discriminate.
Qed.

(** C4, as stated, fails: the owner's patch with a title and no
    description is answered 400 and nothing is written. *)
Lemma title_only_rejected :
  patch_note Demo.s1 (Token 1) 1 Demo.title_only (Demo.env 20) =
  (mkResponse 400 (ErrorsBody ["Description is required"]), Demo.s1) ∧
  status (patch_note Demo.s1 (Token 1) 1 Demo.title_only (Demo.env 20)).1 ≠ 200.
Proof. split; [vm_compute; reflexivity|vm_compute; discriminate]. Qed.

(** C8 (the ['current'] entry).  ['current'], the id that the versions
    response gives its synthetic entry, identifies no persisted version.
    The handler has a 404 "Version not found" answer for such an id, but
    the owner's revert to it does not get there: [parseInt] cannot read
    it, the lookup is called with the string and throws, and the answer is
    500 "Server error".  Nothing is written. *)
Lemma revert_to_current_is_500 :
  parsedVersionId (JS.str "current") = JS.str "current" ∧
  Prisma.noteVersion_findUnique Demo.s1 (JS.str "current") = None ∧
  post_revert Demo.s1 (Token 1) 1 (JS.str "current") (Demo.env 20) =
  (mkResponse 500 (ErrorBody "Server error"), Demo.s1) ∧
  status (post_revert Demo.s1 (Token 1) 1 (JS.str "current") (Demo.env 20)).1 ≠ 404.
Proof.
  split; [reflexivity|]. split; [reflexivity|].
  split; [vm_compute; reflexivity|vm_compute; discriminate].
Qed.

(** ** The theorems at concrete requests *)

(** [protection_after_write] on Alice's create of a protected note and on
    her update that switches the protection off. *)
Lemma protection_after_write_witness :
  (∃ new,
     notes (write Demo.s0 (Token 1) (Create Demo.secret) (Demo.env 10)).2 !! 1
       = Some new ∧
     protected_has_password new) ∧
  ∃ new,
    notes (write Demo.s1p (Token 1) (Update 1 Demo.unprotect) (Demo.env 20)).2 !! 1
      = Some new ∧
    protected_has_password new ∧
    n_password new = Some "$2a$secret1A!" ∧ n_isProtected new = false.
Proof.
  split.
  - destruct (protection_after_write Demo.s0 (Token 1) (Create Demo.secret)
                (Demo.env 10) _ _ (surjective_pairing _))
      as (new & Hnew & Hinv & _).
    + vm_compute. reflexivity.
    + discriminate.
    + exists new. split; [exact Hnew|exact Hinv].
  - destruct (protection_after_write Demo.s1p (Token 1) (Update 1 Demo.unprotect)
                (Demo.env 20) _ _ (surjective_pairing _))
      as (new & Hnew & Hinv & Hkeep).
    + vm_compute. reflexivity.
    + intros old Hold. vm_compute in Hold. injection Hold as <-.
      intros _. simpl. eexists. reflexivity.
    + exists new. split; [exact Hnew|]. split; [exact Hinv|].
      destruct (Hkeep 1 Demo.unprotect
                  (mkNote 1 "T1" "D1" true (Some "$2a$secret1A!") 1 10 10))
        as [Hpw Hflag]; [reflexivity|vm_compute; reflexivity|reflexivity|].
      split; [exact Hpw|]. apply Hflag. reflexivity.
Defined.

(** [versions_after_updates] on a create and two updates: three persisted
    versions behind the current entry. *)
Lemma versions_after_updates_witness :
  ∃ sN note current history,
    patch_all Demo.s1 (Token 1) 1
      [(Demo.edit "T2" "D2", Demo.env 20); (Demo.edit "T3" "D3", Demo.env 30)]
      = Some sN ∧
    notes sN !! 1 = Some note ∧
    get_versions sN (Token 1) 1 =
      (mkResponse 200 (VersionsBody (current :: (version_json <$> history))), sN) ∧
    vj_title current = n_title note ∧
    length history = 3%nat ∧
    StronglySorted Prisma.createdAt_desc history.
Proof.
  destruct (patch_all Demo.s1 (Token 1) 1
              [(Demo.edit "T2" "D2", Demo.env 20); (Demo.edit "T3" "D3", Demo.env 30)])
    as [sN|] eqn:E; [|vm_compute in E; discriminate E].
  exists sN.
  destruct (versions_after_updates Demo.s0 (Token 1) Demo.plain (Demo.env 10)
              [(Demo.edit "T2" "D2", Demo.env 20); (Demo.edit "T3" "D3", Demo.env 30)]
              _ _ sN s0_wf (surjective_pairing _))
    as (note & current & history & Hnote & Hget & _ & _ & Ht & _ & _ & _ & Hlen & Hsort).
  - vm_compute. reflexivity.
  - exact E.
  - exists note, current, history.
    split; [reflexivity|]. split; [exact Hnote|]. split; [exact Hget|].
    split; [exact Ht|]. split; [exact Hlen|exact Hsort].
Defined.

(** [revert_round_trip] on the note {T2, D2} with the history {T1, D1}:
    back to version 1, then back to the version the revert created. *)
Lemma revert_round_trip_witness :
  ∃ r1 s1 created r2 s2 new,
    post_revert Demo.s2 (Token 1) 1 (JS.num 1) (Demo.env 30) = (r1, s1) ∧
    status r1 = 200 ∧
    versions Demo.s2 !! 3 = None ∧ versions s1 !! 3 = Some created ∧
    post_revert s1 (Token 1) 1 (JS.str "3") (Demo.env 40) = (r2, s2) ∧
    status r2 = 200 ∧
    notes s2 !! 1 = Some new ∧ n_title new = "T2" ∧ n_description new = "D2".
Proof.
  destruct (revert_round_trip Demo.s2 (Token 1) 1 Demo.alice
              (mkNote 1 "T2" "D2" false None 1 10 20) 1
              (mkNoteVersion 1 "T1" "D1" 1 10) (JS.num 1) (Demo.env 30)
              (JS.str "3") (Demo.env 40) s2_wf)
    as (r1 & s1 & created & r2 & s2 & new & H1 & H2 & H3 & H4 & H5 & H6 & H7
        & H8 & H9 & _);
    try (vm_compute; reflexivity).
  exists r1, s1, created, r2, s2, new.
  repeat (split; [assumption|]). assumption.
Defined.

(** [update_field_semantics] on a patch with a title and a description
    only: the flag and the hash of the protected note stay. *)
Lemma update_field_semantics_witness :
  ∃ r s' new,
    patch_note Demo.s1p (Token 1) 1 (Demo.edit "  T2 " "D2") (Demo.env 20) = (r, s') ∧
    status r = 200 ∧ notes s' !! 1 = Some new ∧
    n_title new = "T2" ∧ n_description new = "D2" ∧
    n_isProtected new = true ∧ n_password new = Some "$2a$secret1A!".
Proof.
  destruct (update_field_semantics Demo.s1p (Token 1) 1 (Demo.edit "  T2 " "D2")
              (Demo.env 20) Demo.alice
              (mkNote 1 "T1" "D1" true (Some "$2a$secret1A!") 1 10 10) s1p_wf)
    as [_ Hok]; try (vm_compute; reflexivity).
  destruct Hok as (r & s' & new & E & Hst & Hnew & Ht & Hd & Hip & _ & Hpw & _).
  - vm_compute. reflexivity.
  - left. reflexivity.
  - left. reflexivity.
  - intros Hip. discriminate Hip.
  - exists r, s', new. split; [exact E|]. split; [exact Hst|]. split; [exact Hnew|].
    split; [exact Ht|]. split; [exact Hd|].
    split; [apply Hip; reflexivity|apply Hpw; reflexivity].
Defined.

(** [update_password_rule] on the unprotected and on the protected note. *)
Lemma update_password_rule_witness :
  (status (patch_note Demo.s1 (Token 1) 1 Demo.protect_without_password
                      (Demo.env 20)).1 = 400 ∧
   (patch_note Demo.s1 (Token 1) 1 Demo.protect_without_password (Demo.env 20)).2
     = Demo.s1) ∧
  ∃ r s' new,
    patch_note Demo.s1p (Token 1) 1 (Demo.edit "T2" "D2") (Demo.env 20) = (r, s') ∧
    status r = 200 ∧ notes s' !! 1 = Some new ∧
    n_password new = Some "$2a$secret1A!".
Proof.
  split.
  - destruct (update_password_rule Demo.s1 (Token 1) 1 Demo.protect_without_password
                (Demo.env 20) Demo.alice (mkNote 1 "T1" "D1" false None 1 10 10) s1_wf)
      as [Hreject _]; try (vm_compute; reflexivity).
    apply Hreject; reflexivity.
  - destruct (update_password_rule Demo.s1p (Token 1) 1 (Demo.edit "T2" "D2")
                (Demo.env 20) Demo.alice
                (mkNote 1 "T1" "D1" true (Some "$2a$secret1A!") 1 10 10) s1p_wf)
      as [_ Hkeep]; try (vm_compute; reflexivity).
    apply Hkeep;
      [reflexivity|reflexivity|vm_compute; reflexivity|left; reflexivity].
Defined.

(** [unlock_outcomes] for Bob on Alice's notes. *)
Lemma unlock_outcomes_witness :
  (∃ msg, post_unlock Demo.s1 (Token 2) 1 (JS.str "secret1A!") =
          (mkResponse 400 (ErrorBody msg), Demo.s1)) ∧
  post_unlock Demo.s1p (Token 2) 1 (JS.str "wrong") =
    (mkResponse 401 (ErrorBody "Invalid password"), Demo.s1p) ∧
  post_unlock Demo.s1p (Token 2) 1 (JS.str "secret1A!") =
    (mkResponse 200 (NoteBody (mkNoteJson 1 "T1" (JS.str "D1") true JS.undefined
                                          1 10 10 None JS.undefined)), Demo.s1p).
Proof.
  assert (authenticate Demo.s1 (Token 2) = Next Demo.bob) as Hauth
    by (vm_compute; reflexivity).
  assert (authenticate Demo.s1p (Token 2) = Next Demo.bob) as Hauthp
    by (vm_compute; reflexivity).
  assert (notes Demo.s1 !! 1 = Some (mkNote 1 "T1" "D1" false None 1 10 10))
    as Hnote by (vm_compute; reflexivity).
  assert (notes Demo.s1p !! 1 =
          Some (mkNote 1 "T1" "D1" true (Some "$2a$secret1A!") 1 10 10))
    as Hnotep by (vm_compute; reflexivity).
  destruct (unlock_outcomes Demo.s1 (Token 2) 1 Demo.bob _ Hauth Hnote)
    as [Hplain _].
  destruct (unlock_outcomes Demo.s1p (Token 2) 1 Demo.bob _ Hauthp Hnotep)
    as [_ Hprot].
  split; [|split].
  - apply Hplain. reflexivity.
  - apply (Hprot eq_refl "wrong" "$2a$secret1A!"); [discriminate|reflexivity].
  - apply (Hprot eq_refl "secret1A!" "$2a$secret1A!"); [discriminate|reflexivity].
Defined.

(** [revert_unknown_version] on an id that no version has. *)
Lemma revert_unknown_version_at_7 :
  (post_revert Demo.s1 (Token 1) 1 (JS.num 7) (Demo.env 20)).2 = Demo.s1 ∧
  (post_revert Demo.s1 (Token 1) 1 (JS.num 7) (Demo.env 20)).1 =
  mkResponse 404 (ErrorBody "Version not found").
Proof.
  assert (authenticate Demo.s1 (Token 1) = Next Demo.alice) as Hauth
    by (vm_compute; reflexivity).
  assert (notes Demo.s1 !! 1 = Some (mkNote 1 "T1" "D1" false None 1 10 10))
    as Hnote by (vm_compute; reflexivity).
  assert (∀ k version, parsedVersionId (JS.num 7) = JS.num k →
            versions Demo.s1 !! k = Some version → v_noteId version ≠ 1) as Hnone.
  { intros k version Hk Hv. vm_compute in Hk. injection Hk as <-.
    vm_compute in Hv. discriminate Hv. }
  assert (∀ k, parsedVersionId (JS.num 7) = JS.num k → Prisma.is_Int k = true)
    as Hint.
  { intros k Hk. vm_compute in Hk. injection Hk as <-. reflexivity. }
  destruct (revert_unknown_version Demo.s1 (Token 1) 1 (JS.num 7) (Demo.env 20)
              Demo.alice _ Hauth Hnote eq_refl eq_refl Hint Hnone)
    as (Hs & _ & H404).
  split; [exact Hs|]. apply H404. exists 7. vm_compute. reflexivity.
Defined.

(** [update_password_unprotected_verbatim] on a patch with a password and
    no [isProtected]. *)
Lemma update_password_unprotected_verbatim_witness :
  ∃ r s' new,
    patch_note Demo.s1 (Token 1) 1 Demo.password_only (Demo.env 20) = (r, s') ∧
    status r = 200 ∧ notes s' !! 1 = Some new ∧
    n_password new = Some "hunter2".
Proof.
  destruct (update_password_unprotected_verbatim Demo.s1 (Token 1) 1
              Demo.password_only (Demo.env 20) Demo.alice
              (mkNote 1 "T1" "D1" false None 1 10 10) "hunter2" s1_wf)
    as (r & s' & new & E & Hst & Hnew & Hpw); try (vm_compute; reflexivity).
  - discriminate.
  - left. reflexivity.
  - exists r, s', new. split; [exact E|]. split; [exact Hst|].
    split; [exact Hnew|exact Hpw].
Defined.

(** [list_notes_of_all_users]: Bob's list has Alice's protected note, with
    its title. *)
Lemma list_notes_of_all_users_witness :
  ∃ l,
    get_notes Demo.s1p (Token 2) = (mkResponse 200 (NotesBody l), Demo.s1p) ∧
    mkNoteMeta 1 "T1" true 10 10 (Some (mkOwnerJson 1 "Alice" "alice@example.com")) ∈ l.
Proof.
  destruct (list_notes_of_all_users Demo.s1p (Token 2) Demo.bob)
    as (l & E & _ & _ & Hall); [vm_compute; reflexivity|].
  exists l. split; [exact E|].
  apply (Hall 1 (mkNote 1 "T1" "D1" true (Some "$2a$secret1A!") 1 10 10)).
  vm_compute. reflexivity.
Defined.

(** ** The further properties at concrete requests *)

Local Existing Instance Site.jwt.
Local Existing Instance Site.mail.

Lemma db0_wf : db_wf Site.db0.
Proof. apply db_wf_b_sound. vm_compute. reflexivity. Qed.

Lemma db1_wf : db_wf Site.db1.
Proof. apply db_wf_b_sound. vm_compute. reflexivity. Qed.

(** [read_note_visibility] for Bob on Alice's protected note. *)
Lemma read_note_visibility_witness :
  ∃ j,
    get_note Demo.s1p (Token 2) 1 = (mkResponse 200 (NoteBody j), Demo.s1p) ∧
    j_password j = JS.undefined ∧
    j_description j = JS.null ∧ j_needsPassword j = JS.bool true.
Proof.
  destruct (read_note_visibility Demo.s1p (Token 2) 1 Demo.bob
              (mkNote 1 "T1" "D1" true (Some "$2a$secret1A!") 1 10 10) s1p_wf)
    as (j & E & _ & _ & _ & _ & Hpw & Hlocked & _).
  - vm_compute. reflexivity.
  - vm_compute. reflexivity.
  - exists j. split; [exact E|]. split; [exact Hpw|].
    apply Hlocked; [reflexivity|vm_compute; discriminate].
Defined.

(** [versions_protection_gate] on Alice's protected note, for Bob and for
    Alice. *)
Lemma versions_protection_gate_witness :
  get_versions Demo.s1p (Token 2) 1 =
    (mkResponse 403 (ErrorBody "Access denied - Unlock protected note first"),
     Demo.s1p) ∧
  ∃ history,
    get_versions Demo.s1p (Token 1) 1 =
      (mkResponse 200 (VersionsBody
         (mkVersionJson (JS.str "current") "T1" "D1" 1 10 (JS.bool true)
          :: (version_json <$> history))), Demo.s1p) ∧
    StronglySorted Prisma.createdAt_desc history.
Proof.
  split.
  - destruct (versions_protection_gate Demo.s1p (Token 2) 1 Demo.bob
                (mkNote 1 "T1" "D1" true (Some "$2a$secret1A!") 1 10 10))
      as [Hdenied _].
    + vm_compute. reflexivity.
    + vm_compute. reflexivity.
    + apply Hdenied; [reflexivity|vm_compute; discriminate].
  - destruct (versions_protection_gate Demo.s1p (Token 1) 1 Demo.alice
                (mkNote 1 "T1" "D1" true (Some "$2a$secret1A!") 1 10 10))
      as [_ Hok].
    + vm_compute. reflexivity.
    + vm_compute. reflexivity.
    + destruct Hok as (history & E & _ & Hsorted); [right; reflexivity|].
      exists history. split; [exact E|exact Hsorted].
Defined.

(** [unauthenticated_rejected] on requests without a token. *)
Lemma unauthenticated_rejected_witness :
  ∃ r, status r = 401 ∧
    get_notes Demo.s1 NoToken = (r, Demo.s1) ∧
    post_note Demo.s1 NoToken Demo.plain (Demo.env 20) = (r, Demo.s1) ∧
    delete_note Demo.s1 NoToken 1 = (r, Demo.s1).
Proof.
  exists (mkResponse 401 (ErrorBody "Access denied. No token provided")).
  destruct (unauthenticated_rejected Demo.s1 NoToken
              (mkResponse 401 (ErrorBody "Access denied. No token provided"))
              eq_refl) as [Hst Hall].
  destruct (Hall 1 Demo.plain (JS.num 1) (JS.str "x") (Demo.env 20))
    as (H1 & H2 & _ & _ & _ & H6 & _).
  split; [exact Hst|]. split; [exact H1|]. split; [exact H2|exact H6].
Defined.

(** [owner_only_routes] for Bob, on a note that does not exist and on
    Alice's note. *)
Lemma owner_only_routes_witness :
  delete_note Demo.s1 (Token 2) 9 =
    (mkResponse 404 (ErrorBody "Note not found"), Demo.s1) ∧
  ∃ r, status r = 403 ∧
    patch_note Demo.s1 (Token 2) 1 (Demo.edit "T2" "D2") (Demo.env 20)
      = (r, Demo.s1) ∧
    delete_note Demo.s1 (Token 2) 1 = (r, Demo.s1).
Proof.
  split.
  - destruct (owner_only_routes Demo.s1 (Token 2) 9 (Demo.edit "T2" "D2")
                (JS.num 1) (Demo.env 20) Demo.bob) as [Hmissing _];
      [vm_compute; reflexivity|].
    destruct Hmissing as (_ & Hdel & _);
      [reflexivity|vm_compute; reflexivity|exact Hdel].
  - destruct (owner_only_routes Demo.s1 (Token 2) 1 (Demo.edit "T2" "D2")
                (JS.num 1) (Demo.env 20) Demo.bob) as [_ Hother];
      [vm_compute; reflexivity|].
    destruct (Hother (mkNote 1 "T1" "D1" false None 1 10 10))
      as (r & Hst & Hp & Hd & _);
      [vm_compute; reflexivity|vm_compute; discriminate|].
    exists r. split; [exact Hst|]. split; [exact Hp|exact Hd].
Defined.

(** [delete_cascades] on Alice's note with its two versions. *)
Lemma delete_cascades_witness :
  ∃ s',
    delete_note Demo.s2 (Token 1) 1 =
      (mkResponse 200 (MessageBody "Note deleted successfully"), s') ∧
    notes s' !! 1 = None ∧ versions_of s' 1 = [] ∧ users s' = users Demo.s2.
Proof.
  destruct (delete_cascades Demo.s2 (Token 1) 1 Demo.alice
              (mkNote 1 "T2" "D2" false None 1 10 20))
    as (s' & E & Hn & Hv & _ & _ & Hu & _).
  - vm_compute. reflexivity.
  - vm_compute. reflexivity.
  - reflexivity.
  - exists s'. split; [exact E|]. split; [exact Hn|]. split; [exact Hv|exact Hu].
Defined.

(** [writes_leave_the_rest] on Alice's update of her note and on Bob's
    create of another. *)
Lemma writes_leave_the_rest_witness :
  users (patch_note Demo.s1 (Token 1) 1 (Demo.edit "T2" "D2") (Demo.env 20)).2
    = users Demo.s1 ∧
  versions (patch_note Demo.s1 (Token 1) 1 (Demo.edit "T2" "D2") (Demo.env 20)).2
    !! 1 = Some (mkNoteVersion 1 "T1" "D1" 1 10) ∧
  notes (post_note Demo.s1 (Token 2) Demo.plain (Demo.env 20)).2 !! 1 =
    Some (mkNote 1 "T1" "D1" false None 1 10 10).
Proof.
  destruct (writes_leave_the_rest Demo.s1 (Token 1) 1 (Demo.edit "T2" "D2")
              (JS.num 1) (Demo.env 20) s1_wf) as (Hrest & _ & _).
  destruct (writes_leave_the_rest Demo.s1 (Token 2) 1 Demo.plain
              (JS.num 1) (Demo.env 20) s1_wf) as (_ & Hnotes & _).
  destruct (Hrest _ (or_intror (or_introl eq_refl))) as [Hu Hv].
  split; [exact Hu|].
  split; [apply Hv; vm_compute; reflexivity|apply Hnotes; vm_compute; reflexivity].
Defined.

(** [update_records_previous] on Alice's update of {T1, D1} to {T2, D2}. *)
Lemma update_records_previous_witness :
  ∃ new,
    notes Demo.s2 !! 1 = Some new ∧ n_updatedAt new = 20 ∧
    versions Demo.s2 !! 2 = Some (mkNoteVersion 2 "T1" "D1" 1 20).
Proof.
  destruct (update_records_previous Demo.s1 (Token 1) 1 (Demo.edit "T2" "D2")
              (Demo.env 20) _ _ (mkNote 1 "T1" "D1" false None 1 10 10)
              s1_wf (surjective_pairing _))
    as (new & Hnew & _ & _ & _ & _ & Ht & _ & Hv & _).
  - vm_compute. reflexivity.
  - vm_compute. reflexivity.
  - exists new. split; [exact Hnew|]. split; [exact Ht|exact Hv].
Defined.

(** [revert_effect] on the revert of {T2, D2} to the version {T1, D1}. *)
Lemma revert_effect_witness :
  ∃ new,
    notes (post_revert Demo.s2 (Token 1) 1 (JS.num 1) (Demo.env 30)).2 !! 1
      = Some new ∧
    new = mkNote 1 "T1" "D1" false None 1 10 30.
Proof.
  destruct (revert_effect Demo.s2 (Token 1) 1 (JS.num 1) (Demo.env 30) _ _
              (mkNote 1 "T2" "D2" false None 1 10 20)
              s2_wf eq_refl (surjective_pairing _))
    as (k & version & new & Hk & Hv & _ & Hnew & Heq & _).
  - vm_compute. reflexivity.
  - vm_compute. reflexivity.
  - exists new. split; [exact Hnew|].
    vm_compute in Hk. injection Hk as <-.
    vm_compute in Hv. injection Hv as <-. exact Heq.
Defined.

(** [create_effect] on Alice's create of {T1, D1}. *)
Lemma create_effect_witness :
  ∃ new,
    notes Demo.s1 !! 1 = Some new ∧ n_title new = "T1" ∧
    n_isProtected new ≠ true ∧
    versions_of Demo.s1 1 =
      [mkNoteVersion 1 (n_title new) (n_description new) 1 10].
Proof.
  destruct (create_effect Demo.s0 (Token 1) Demo.plain (Demo.env 10) _ _
              s0_wf eq_refl (surjective_pairing _))
    as (user & new & _ & _ & Hnew & _ & _ & _ & Ht & _ & _ & _ & Hip & Hv).
  - vm_compute. reflexivity.
  - exists new. split; [exact Hnew|]. split; [exact Ht|].
    split; [|exact Hv].
    intros Hp. apply Hip in Hp. discriminate Hp.
Defined.


(** [requests_keep_store_wf] on the store after Alice's update. *)
Lemma requests_keep_store_wf_witness :
  store_wf (post_note Demo.s2 (Token 2) Demo.secret (Demo.env 30)).2 ∧
  store_wf (delete_note Demo.s2 (Token 1) 1).2.
Proof.
  destruct (requests_keep_store_wf Demo.s2 (Token 2) 1 Demo.secret (JS.num 1)
              (Demo.env 30) s2_wf) as (Hpost & _ & _ & _).
  destruct (requests_keep_store_wf Demo.s2 (Token 1) 1 Demo.secret (JS.num 1)
              (Demo.env 30) s2_wf) as (_ & _ & _ & Hdelete).
  split; [exact Hpost|exact Hdelete].
Defined.

(** [responses_without_password] on Bob's read of Alice's protected
    note. *)
Lemma responses_without_password_witness :
  ∃ j,
    body (get_note Demo.s1p (Token 2) 1).1 = NoteBody j ∧
    j_password j = JS.undefined.
Proof.
  eexists. split; [vm_compute; reflexivity|].
  apply (responses_without_password Demo.s1p (Token 2) 1 Demo.plain
           JS.undefined JS.undefined (Demo.env 0)).
  left. vm_compute. reflexivity.
Defined.

(** [register_effect] on Carol's registration. *)
Lemma register_effect_witness :
  users (store Site.db1) !! 3 =
    Some (mkUser 3 "Carol" "carol@example.com" "$2a$Passw0rd!" 10 10) ∧
  db_wf Site.db1.
Proof.
  destruct (register_effect Site.db0 Site.carol (Demo.env 10) true _ _
              db0_wf eq_refl (surjective_pairing _))
    as (_ & Hu & _ & _ & _ & _ & _ & _ & _ & _ & _ & Hwf).
  - vm_compute. reflexivity.
  - split; [|exact Hwf]. unfold Site.db1. rewrite Hu. vm_compute. reflexivity.
Defined.

(** [register_taken] on Carol's registration sent a second time. *)
Lemma register_taken_witness :
  post_register Site.db1 Site.carol (Demo.env 20) false =
  (mkReply 400 (Plain (ErrorBody "Email already registered")) None, Site.db1).
Proof.
  destruct (register_taken Site.db0 Site.carol (Demo.env 10) true)
    as [_ Hagain]; [reflexivity|vm_compute; reflexivity|].
  apply (Hagain _ _ (Demo.env 20) false db0_wf (surjective_pairing _)).
  vm_compute. reflexivity.
Defined.

(** [register_then_login] on Carol's registration and her login. *)
Lemma register_then_login_witness :
  post_login Site.db1 Site.carol_login (Demo.env 20) false =
  (mkReply 200 (UserBody (mkOwnerJson 3 "Carol" "carol@example.com"))
     (Some (setTokenCookie (jwt_sign 3 20) false)), Site.db1).
Proof.
  apply (register_then_login Site.db0 Site.carol (Demo.env 10) true _ _
           Site.carol_login (Demo.env 20) false db0_wf eq_refl eq_refl
           (surjective_pairing _));
    vm_compute; reflexivity.
Defined.

(** [login_failure_uniform] on an unknown address and on a wrong
    password. *)
Lemma login_failure_uniform_witness :
  (post_login Site.db1
     (mkLoginRequest (JS.str "nobody@example.com") (JS.str "Passw0rd!"))
     (Demo.env 20) false).1 =
  mkReply 401 (Plain (ErrorBody "Invalid email or password")) None ∧
  (post_login Site.db1
     (mkLoginRequest (JS.str "carol@example.com") (JS.str "passw0rd!"))
     (Demo.env 20) false).1 =
  mkReply 401 (Plain (ErrorBody "Invalid email or password")) None.
Proof.
  split.
  - destruct (login_failure_uniform Site.db1
                (mkLoginRequest (JS.str "nobody@example.com") (JS.str "Passw0rd!"))
                (Demo.env 20) false) as [_ Hfail].
    apply Hfail;
      [reflexivity|vm_compute; reflexivity|left; vm_compute; reflexivity].
  - destruct (login_failure_uniform Site.db1
                (mkLoginRequest (JS.str "carol@example.com") (JS.str "passw0rd!"))
                (Demo.env 20) false) as [_ Hfail].
    apply Hfail; [reflexivity|vm_compute; reflexivity|].
    right. eexists. split; vm_compute; reflexivity.
Defined.

(** [request_token_cases] on a cookie beside a header, on a [Bearer]
    header and on a header of another scheme. *)
Lemma request_token_cases_witness :
  request_token (mkHeaders (Some "abc") (Some "Bearer xyz")) = Some "abc" ∧
  request_token (mkHeaders None (Some "Bearer xyz")) = Some "xyz" ∧
  request_token (mkHeaders (Some "") (Some "Basic xyz")) = None.
Proof.
  destruct request_token_cases as (Hcookie & Hbearer & Hnone).
  split; [apply Hcookie; discriminate|]. split.
  - apply (Hbearer None "xyz" ""); [left; reflexivity|discriminate|].
    apply (bool_decide_unpack _). vm_compute. exact I.
  - apply (Hnone (Some "") "Basic xyz" ""); [right; reflexivity|reflexivity].
Defined.

(** [login_session] on Carol's login at second 20: her cookie
    authenticates her 10 s later and no more after 30 days. *)
Lemma login_session_witness :
  ∃ user cookie,
    reply_cookie (post_login Site.db1 Site.carol_login (Demo.env 20000) true).1
      = Some cookie ∧
    authenticate
      (store (post_login Site.db1 Site.carol_login (Demo.env 20000) true).2)
      (credential (mkHeaders (Some (cookie_value cookie)) None) 30000)
      = Next user ∧
    authenticate
      (store (post_login Site.db1 Site.carol_login (Demo.env 20000) true).2)
      (credential (mkHeaders (Some (cookie_value cookie)) None) 2592020000)
      = send 401 (ErrorBody "Invalid token").
Proof.
  destruct (login_session Site.db1 Site.carol_login (Demo.env 20000) true _ _
              db1_wf (surjective_pairing _))
    as (user & cookie & _ & Hc & _ & _ & _ & _ & Hsession).
  - vm_compute. reflexivity.
  - exists user, cookie. split; [exact Hc|].
    split; [exact (Hsession 30000 None)|exact (Hsession 2592020000 None)].
Defined.

(** [logout_clears_cookie_only] on Carol's login and logout. *)
Lemma logout_clears_cookie_only_witness :
  ∃ user token cleared,
    cookie_value <$>
      reply_cookie (post_login Site.db1 Site.carol_login (Demo.env 20000) true).1
      = Some token ∧
    reply_cookie
      (post_logout (post_login Site.db1 Site.carol_login (Demo.env 20000) true).2).1
      = Some cleared ∧
    cookie_value cleared = "" ∧
    authenticate
      (store (post_logout
                (post_login Site.db1 Site.carol_login (Demo.env 20000) true).2).2)
      (credential (mkHeaders (Some token) None) 30000) = Next user.
Proof.
  destruct (logout_clears_cookie_only Site.db1 Site.carol_login (Demo.env 20000)
              true _ _ db1_wf (surjective_pairing _))
    as (user & token & cleared & _ & Ht & Hout & _ & Hv & _ & _ & Hstill).
  - vm_compute. reflexivity.
  - exists user, token, cleared. split; [exact Ht|].
    split; [by rewrite Hout|]. split; [exact Hv|].
    apply Hstill. vm_compute. reflexivity.
Defined.

(** [profile_update] for Carol: Bob's address is refused, a new name is
    stored. *)
Lemma profile_update_witness :
  patch_me Site.db1 (Token 3) Site.to_bob's_address (Demo.env 20) =
    (mkReply 400 (Plain (ErrorBody "Email already in use")) None, Site.db1) ∧
  users (store (patch_me Site.db1 (Token 3) Site.rename (Demo.env 20)).2) !! 3 =
    Some (mkUser 3 "Caroline" "carol@example.com" "$2a$Passw0rd!" 10 20).
Proof.
  assert (authenticate (store Site.db1) (Token 3) =
          Next (mkUser 3 "Carol" "carol@example.com" "$2a$Passw0rd!" 10 10))
    as Hauth by (vm_compute; reflexivity).
  split.
  - destruct (profile_update Site.db1 (Token 3) Site.to_bob's_address
                (Demo.env 20) _ db1_wf Hauth eq_refl) as [Htaken _];
      [vm_compute; reflexivity|].
    apply (Htaken "bob@example.com" Demo.bob);
      [vm_compute; reflexivity|vm_compute; discriminate|vm_compute; reflexivity].
  - destruct (profile_update Site.db1 (Token 3) Site.rename
                (Demo.env 20) _ db1_wf Hauth eq_refl) as [_ Hok];
      [vm_compute; reflexivity|].
    destruct (Hok _ _ (surjective_pairing _)) as (_ & Hu & _);
      [vm_compute; reflexivity|].
    rewrite Hu. vm_compute. reflexivity.
Defined.

(** [password_change] for Carol: the wrong current password is refused;
    with the right one the new password logs her in. *)
Lemma password_change_witness :
  patch_password Site.db1 (Token 3) Site.wrong_password (Demo.env 20) =
    (mkReply 400 (Plain (ErrorBody "Current password is incorrect")) None,
     Site.db1) ∧
  ∃ db',
    patch_password Site.db1 (Token 3) Site.new_password (Demo.env 20) =
      (mkReply 200 (Plain (MessageBody "Password updated successfully")) None,
       db') ∧
    post_login db'
      (mkLoginRequest (JS.str "carol@example.com") (JS.str "N3wPassw0rd!"))
      (Demo.env 30) false =
    (mkReply 200 (UserBody (mkOwnerJson 3 "Carol" "carol@example.com"))
       (Some (setTokenCookie (jwt_sign 3 30) false)), db').
Proof.
  assert (authenticate (store Site.db1) (Token 3) =
          Next (mkUser 3 "Carol" "carol@example.com" "$2a$Passw0rd!" 10 10))
    as Hauth by (vm_compute; reflexivity).
  split.
  - destruct (password_change Site.db1 (Token 3) Site.wrong_password
                (Demo.env 20) _ db1_wf Hauth eq_refl) as [Hwrong _];
      [vm_compute; reflexivity|].
    apply Hwrong. vm_compute. reflexivity.
  - destruct (password_change Site.db1 (Token 3) Site.new_password
                (Demo.env 20) _ db1_wf Hauth eq_refl) as [_ Hright];
      [vm_compute; reflexivity|].
    destruct Hright as (db' & E & _ & _ & _ & _ & _ & Hlogin);
      [vm_compute; reflexivity|].
    exists db'. split; [exact E|].
    apply (Hlogin (mkLoginRequest (JS.str "carol@example.com")
                                  (JS.str "N3wPassw0rd!")) (Demo.env 30) false);
      vm_compute; first [reflexivity | discriminate].
Defined.

(** [accounts_keep_db_wf] on Carol's registration and her new name. *)
Lemma accounts_keep_db_wf_witness :
  db_wf (post_register Site.db0 Site.carol (Demo.env 10) true).2 ∧
  db_wf (patch_me Site.db1 (Token 3) Site.rename (Demo.env 20)).2.
Proof.
  destruct (accounts_keep_db_wf Site.db0 (Token 3) Site.carol Site.carol_login
              Site.rename Site.new_password (Demo.env 10) true db0_wf)
    as (Hreg & _).
  destruct (accounts_keep_db_wf Site.db1 (Token 3) Site.carol Site.carol_login
              Site.rename Site.new_password (Demo.env 20) true db1_wf)
    as (_ & _ & _ & _ & Hme & _).
  split; [exact Hreg|exact Hme].
Defined.

(** [seed_fresh] on the empty database. *)
Lemma seed_fresh_witness :
  ∃ res db',
    seed Site.seed_env Site.empty = Some (res, db') ∧
    skipped res = false ∧ usersCount res = 5 ∧
    20 ≤ notesCount res ≤ 30 ∧ db_wf db'.
Proof.
  destruct (seed_fresh Site.seed_env Site.empty)
    as (res & db' & E & Hs & Hu & _ & _ & Hn & Hwf & _).
  - reflexivity.
  - intros i. cbn. pose proof (Z.mod_pos_bound i 3). lia.
  - intros i j Hi%elem_of_seqZ Hj%elem_of_seqZ Hne.
    assert (i = 1 ∨ i = 2 ∨ i = 3 ∨ i = 4 ∨ i = 5) as Hi' by lia.
    assert (j = 1 ∨ j = 2 ∨ j = 3 ∨ j = 4 ∨ j = 5) as Hj' by lia.
    destruct Hi' as [->|[->|[->|[->| ->]]]];
      destruct Hj' as [->|[->|[->|[->| ->]]]];
      first [by destruct Hne | vm_compute; reflexivity].
  - exists res, db'. split; [exact E|]. split; [exact Hs|].
    split; [exact Hu|]. split; [exact Hn|exact Hwf].
Defined.

(** [seed_once] on the database with Alice and Bob. *)
Lemma seed_once_witness :
  seed Site.seed_env Site.db0 = Some (mkSeedResult 2 0 true, Site.db0).
Proof.
  destruct (seed_once Site.seed_env Site.db0) as [Hskip _].
  apply Hskip. intros Hx. apply (f_equal (λ m, m !! 1)) in Hx.
  vm_compute in Hx. discriminate Hx.
Defined.

(** [notification_content] on Alice's update of {T1, D1} to {T2, D2}. *)
Lemma notification_content_witness :
  ∃ new,
    notes (patch_note Demo.s1 (Token 1) 1 (Demo.edit "T2" "D2") (Demo.env 20)).2
      !! 1 = Some new ∧
    mkNotification "update" 1 1 "T2" 21 JS.undefined =
    mkNotification "update" 1 (n_ownerId new) (n_title new) 21 JS.undefined.
Proof.
  destruct (notification_content Demo.s1 (Token 1) 1 (Demo.edit "T2" "D2")
              (JS.num 1) (Demo.env 20) 21
              (mkNotification "update" 1 1 "T2" 21 JS.undefined) s1_wf)
    as (_ & Hupdate & _).
  apply Hupdate. vm_compute. constructor.
Defined.
